(** * Fetch strategies of headstartwp: a shallow embedding

    The development follows [packages/core/src/data]: the JavaScript values
    that travel through the strategies, the network capability [apiGet] of
    [api/fetch-utils.ts], and the strategies of [strategies/]
    ([PostsArchiveFetchStrategy], [SearchFetchStrategy],
    [TaxonomyTermsStrategy]).  Asynchronous code is written in a small
    monad that threads the log of the calls made to [apiGet] and carries
    the rejection of a promise as an error value. *)

From Stdlib Require Import ZArith Ascii String.
From stdpp Require Import base strings gmap list pretty.

Set Warnings "-register-all".

Local Open Scope string_scope.
Local Open Scope Z_scope.

(** ** JavaScript values *)

(** A JSON value.  Numbers are integers (ids, page counts); the members of
    an object keep their order. *)
Inductive JSON : Type :=
| JNull
| JBool (b : bool)
| JNum (n : Z)
| JStr (s : string)
| JArr (items : list JSON)
| JObj (members : list (string * JSON)).

(** A JavaScript value as a property read yields it: [None] is
    [undefined]. *)
Abbreviation jsval := (option JSON).

(** An open key/value bag of parameters. *)
Abbreviation EndpointParams := (gmap string JSON).

(** [Partial<FetchOptions>], an open bag as well. *)
Abbreviation FetchOptions := (gmap string JSON).

(** The double-quote character, for the messages that quote a name. *)
Definition dquote : string := String "034"%char EmptyString.

(** ToBoolean, as [if (x)] and [!x] apply it. *)
Definition truthy (v : jsval) : bool :=
  match v with
  | None | Some JNull => false
  | Some (JBool b) => b
  | Some (JNum n) => negb (n =? 0)
  | Some (JStr s) => negb (String.eqb s EmptyString)
  | Some (JArr _) | Some (JObj _) => true
  end.

(** [typeof x === 'string'] *)
Definition is_string (v : jsval) : bool :=
  match v with Some (JStr _) => true | _ => false end.

(** [a ?? b] *)
Definition nullish_or (v : jsval) (d : JSON) : JSON :=
  match v with
  | None | Some JNull => d
  | Some j => j
  end.

(** ToString, as a template literal applies it to an interpolated value.
    An array joins its elements with commas, a null element printing as
    the empty string. *)
Fixpoint to_string (j : JSON) : string :=
  match j with
  | JNull => "null"
  | JBool true => "true"
  | JBool false => "false"
  | JNum n => pretty n
  | JStr s => s
  | JArr items =>
      (fix join (l : list JSON) : string :=
         match l with
         | [] => EmptyString
         | x :: r =>
             let sx := match x with JNull => EmptyString | _ => to_string x end in
             match r with
             | [] => sx
             | _ :: _ => sx +:+ "," +:+ join r
             end
         end) items
  | JObj _ => "[object Object]"
  end.

Definition template (v : jsval) : string :=
  match v with
  | None => "undefined"
  | Some j => to_string j
  end.

(** First binding of a key in a list of members. *)
Fixpoint assoc {A : Type} (k : string) (l : list (string * A)) : option A :=
  match l with
  | [] => None
  | (k', v) :: r => if String.eqb k k' then Some v else assoc k r
  end.

(** ** Errors *)

Inductive error : Type :=
| ConfigError (message : string)
| NotFoundError (message : string)
| FetchError (message : string)   (* the network capability rejected *)
| TypeError (message : string).   (* a property read of null or undefined *)

(** [x.k]: a property read.  It throws on [null] and [undefined]; an array
    and a string answer [length]. *)
Definition get_prop (k : string) (v : jsval) : error + jsval :=
  match v with
  | None | Some JNull => inl (TypeError ("Cannot read properties of " +:+ template v))
  | Some (JObj members) => inr (assoc k members)
  | Some (JArr items) =>
      inr (if String.eqb k "length" then Some (JNum (Z.of_nat (length items))) else None)
  | Some (JStr s) =>
      inr (if String.eqb k "length" then Some (JNum (Z.of_nat (String.length s))) else None)
  | Some (JBool _) | Some (JNum _) => inr None
  end.

(** [x[0]] on a value that is known not to be null. *)
Definition index0 (j : JSON) : jsval :=
  match j with
  | JArr (x :: _) => Some x
  | JStr (String c _) => Some (JStr (String c EmptyString))
  | JObj members => assoc "0" members
  | _ => None
  end.

(** [x > 0] for the value of a [length] property.  An array and a string
    always answer a number; an object body that carries a [length] member
    of its own which is not a number is outside the wire format and
    compares as false here. *)
Definition gt_zero (v : jsval) : bool :=
  match v with
  | Some (JNum n) => 0 <? n
  | Some (JBool b) => b
  | _ => false
  end.

(** [{...x}]: the own enumerable members of a value. *)
Fixpoint indexed (i : nat) (l : list JSON) : list (string * JSON) :=
  match l with
  | [] => []
  | x :: r => (pretty i, x) :: indexed (S i) r
  end.

Fixpoint chars (s : string) : list JSON :=
  match s with
  | EmptyString => []
  | String c r => JStr (String c EmptyString) :: chars r
  end.

Definition spread (v : jsval) : list (string * JSON) :=
  match v with
  | Some (JObj members) => members
  | Some (JArr items) => indexed 0 items
  | Some (JStr s) => indexed 0 (chars s)
  | _ => []
  end.

(** ** The network capability and the monad of asynchronous code *)

(** One call of [apiGet]: the url and the headers of its [args] (empty
    when [args] is [{}]). *)
Record request : Type := Request {
  req_url : string;
  req_headers : list (string * string);
}.

(** What [apiGet] resolves to: [{ headers, json }]. *)
Record response : Type := Response {
  headers : list (string * string);
  json : JSON;
}.

(** The calls made so far, oldest first. *)
Abbreviation trace := (list request).

(** The backend behind [fetch]: it answers a request, possibly depending
    on the calls already made, with a response, or the call fails with a
    reason (no connection, a body that is not JSON). *)
Class Network : Type := fetch : trace -> request -> string + response.

(** An asynchronous computation: from the log of calls to the extended log
    and either the rejection or the value. *)
Definition Fetch (A : Type) : Type := trace -> trace * (error + A).

Definition ret {A : Type} (a : A) : Fetch A := fun tr => (tr, inr a).

Definition throw {A : Type} (e : error) : Fetch A := fun tr => (tr, inl e).

Definition bind {A B : Type} (m : Fetch A) (k : A -> Fetch B) : Fetch B :=
  fun tr =>
    match m tr with
    | (tr', inl e) => (tr', inl e)
    | (tr', inr a) => k a tr'
    end.

(** [try { m } catch (e) { h e }] *)
Definition try_catch {A : Type} (m : Fetch A) (h : error -> Fetch A) : Fetch A :=
  fun tr =>
    match m tr with
    | (tr', inl e) => h e tr'
    | (tr', inr a) => (tr', inr a)
    end.

(** A synchronous step that may throw. *)
Definition lift {A : Type} (r : error + A) : Fetch A :=
  fun tr => (tr, r).

(** The monad is used through the notations of stdpp: [x ← m; k]. *)
#[global] Instance Fetch_ret : MRet Fetch := @ret.
#[global] Instance Fetch_bind : MBind Fetch := fun A B k m => bind m k.

(** [asyncForEach(array, callback)] of utils: the callback is awaited on
    each element in turn.  The local variable the callback assigns to is
    threaded as [s]. *)
Fixpoint asyncForEach {A S : Type} (array : list A) (callback : S -> A -> Fetch S)
    (s : S) : Fetch S :=
  match array with
  | [] => ret s
  | x :: rest => s' ← callback s x; asyncForEach rest callback s'
  end.

(** ** Configuration and the helpers of utils *)

Record CustomPostType : Type := {
  pt_slug : string;
  pt_endpoint : string;
  pt_single : option string;
  pt_archive : option string;
}.

Record CustomTaxonomy : Type := {
  tax_slug : string;
  tax_endpoint : string;
  tax_rewrite : option string;
  tax_restParam : option string;
}.

Inductive RedirectStrategy : Type := Redirect404 | RedirectNone | RedirectAlways.

Record HeadlessConfig : Type := {
  sourceUrl : option string;
  customPostTypes : option (list CustomPostType);
  customTaxonomies : option (list CustomTaxonomy);
  redirectStrategy : option RedirectStrategy;
  useWordPressPlugin : option bool;
}.

(** The helpers the strategies import from [../../utils] and [../utils];
    their code is not part of the sources at hand, so they are taken as
    given. *)
Class Utils : Type := {
  getHeadlessConfig : HeadlessConfig;
  getCustomTaxonomies : option (list CustomTaxonomy);
  getCustomTaxonomySlugs : list string;
  getCustomPostType : JSON -> option CustomPostType;
  getWPUrl : string;
  addQueryArgs : string -> list (string * jsval) -> string;
  endpoints_posts : string;
  endpoints_category : string;
  endpoints_yoast : string;
}.

(** ** api/fetch-utils.ts *)

Definition getAuthHeader : option (list (string * string)) := None.

(** The request that reaches the backend for a logged call: [apiGet]
    passes the url through [addQueryArgs(url, queryArgs)]. *)
Definition served `{Utils} (rq : request) : request :=
  Request (addQueryArgs (req_url rq) []) (req_headers rq).

(** [apiGet(url, args = {}, withMinute = false)].  Every caller below
    leaves [withMinute] at its default, so [queryArgs] is [{}] and the
    clock is never read.  The call is logged as it is made. *)
Definition apiGet `{Network, Utils} (url : string) (args : list (string * string))
    : Fetch response :=
  fun tr =>
    let args := match getAuthHeader with Some h => h | None => args end in
    ((tr ++ [Request url args])%list,
     match fetch tr (served (Request url args)) with
     | inl reason => inl (FetchError reason)
     | inr data => inr data
     end).

(** ** strategies/AbstractFetchStrategy: the shared types *)

(** The state of a strategy object that the methods below read and write:
    [baseURL] and the active [endpoint] ([setEndpoint]). *)
Record Strategy : Type := {
  baseURL : string;
  endpoint : string;
}.

Definition setEndpoint (this : Strategy) (e : string) : Strategy :=
  {| baseURL := baseURL this; endpoint := e |}.

Record PageInfo : Type := {
  page : Z;
  totalPages : Z;
  totalItems : Z;
}.

(** The [search] member of a [QueriedObject] ([SearchEntity]). *)
Record SearchEntity : Type := {
  searchedValue : JSON;
  type : string;
  subtype : JSON;
  yoast_head : jsval;
  yoast_head_json : list (string * JSON);
}.

Record QueriedObject : Type := {
  search : option SearchEntity;
  author : option JSON;
  term : option JSON;
}.

(** [FetchResponse<T>]: [{ result, pageInfo, queriedObject? }]. *)
Record FetchResponse : Type := {
  result : JSON;
  pageInfo : PageInfo;
  queriedObject : option QueriedObject;
}.

Inductive FilterMethod : Type := ALLOW | DENY.

Record FilterDataOptions : Type := {
  method : FilterMethod;
  fields : list string;
}.

(** The methods of the base class that the strategies reach through
    [super].  The base class is not part of the sources at hand. *)
Class AbstractFetchStrategy : Type := {
  super_buildEndpointURL : Strategy -> EndpointParams -> string;
  super_fetcher : Strategy -> string -> EndpointParams -> FetchOptions -> Fetch FetchResponse;
  super_filterData : FetchResponse -> FilterDataOptions -> FetchResponse;
}.

(** [removeFields] of [utils/dataFilter], not part of the sources at hand. *)
Class DataFilter : Type := removeFields : list string -> JSON -> JSON.

(** ** strategies/PostsArchiveFetchStrategy.ts *)

Definition authorsEndpoint : string := "/wp-json/wp/v2/users".

Definition unknown_post_type : string :=
  "Unkown post type, did you forget to add it to headless.config.js?".

Module PostsArchiveFetchStrategy.
Section methods.
Context `{Network, Utils, AbstractFetchStrategy}.

Definition getDefaultEndpoint : string := endpoints_posts.

(** [buildEndpointURL(params)].  It answers the state of the strategy
    after the call and either the error thrown or the url. *)
Definition buildEndpointURL (this : Strategy) (params : EndpointParams)
    : Strategy * (error + string) :=
  let settings := getHeadlessConfig in
  let endpointParams := delete "postType" (delete "tag" (delete "category" params)) in
  let taxonomies := getCustomTaxonomySlugs in
  let endpointParams :=
    foldl (fun ep taxonomy => if truthy (ep !! taxonomy) then delete taxonomy ep else ep)
          endpointParams taxonomies in
  let after_post_type : error + Strategy :=
    if truthy (params !! "postType") then
      match getCustomPostType (default JNull (params !! "postType")) with
      | None => inl (ConfigError unknown_post_type)
      | Some postType => inr (setEndpoint this (pt_endpoint postType))
      end
    else inr this in
  match after_post_type with
  | inl e => (this, inl e)
  | inr this' =>
      let endpointParams :=
        if truthy (params !! "author") && is_string (params !! "author")
           && negb (truthy (JBool <$> useWordPressPlugin settings))
        then delete "author" endpointParams
        else endpointParams in
      (this', inr (super_buildEndpointURL this' endpointParams))
  end.

(** The body of the callback of [asyncForEach] in [fetcher]: one
    taxonomy is resolved and the new value of [finalUrl] is answered. *)
Definition resolveTaxonomy (this : Strategy) (params : EndpointParams)
    (finalUrl : string) (taxonomy : CustomTaxonomy) : Fetch string :=
  let settings := getHeadlessConfig in
  let paramSlug := default (tax_slug taxonomy) (tax_rewrite taxonomy) in
  let restParam := default (tax_slug taxonomy) (tax_restParam taxonomy) in
  if negb (truthy (params !! paramSlug)) then ret finalUrl
  else if truthy (JBool <$> useWordPressPlugin settings) then
    ret (addQueryArgs finalUrl [(restParam, params !! paramSlug)])
  else
    terms ← apiGet (baseURL this +:+ tax_endpoint taxonomy +:+ "?slug="
                     +:+ template (params !! paramSlug)) [];
    len ← lift (get_prop "length" (Some (json terms)));
    if gt_zero len then
      id ← lift (get_prop "id" (index0 (json terms)));
      ret (addQueryArgs finalUrl [(restParam, id)])
    else
      throw (NotFoundError ("Term " +:+ dquote +:+ template (params !! paramSlug)
               +:+ dquote +:+ " from " +:+ dquote +:+ tax_slug taxonomy +:+ dquote
               +:+ " has not been found")).

(** The author step of [fetcher]. *)
Definition resolveAuthor (this : Strategy) (params : EndpointParams) (finalUrl : string)
    : Fetch string :=
  let settings := getHeadlessConfig in
  if truthy (params !! "author") && is_string (params !! "author")
     && negb (truthy (JBool <$> useWordPressPlugin settings))
  then
    authors ← apiGet (baseURL this +:+ authorsEndpoint +:+ "?slug="
                       +:+ template (params !! "author")) [];
    len ← lift (get_prop "length" (Some (json authors)));
    if gt_zero len then
      id ← lift (get_prop "id" (index0 (json authors)));
      ret (addQueryArgs finalUrl [("author", id)])
    else
      throw (NotFoundError ("Author " +:+ dquote +:+ template (params !! "author")
               +:+ dquote +:+ " not found"))
  else ret finalUrl.

(** The steps of [fetcher] that come before the call of [super.fetcher]:
    they answer [finalUrl]. *)
Definition resolve (this : Strategy) (url : string) (params : EndpointParams)
    : Fetch string :=
  finalUrl ← match getCustomTaxonomies with
              | Some customTaxonomies =>
                  asyncForEach customTaxonomies (resolveTaxonomy this params) url
              | None => ret url
              end;
  resolveAuthor this params finalUrl.

(** [fetcher(url, params, options = {})] *)
Definition fetcher (this : Strategy) (url : string) (params : EndpointParams)
    (options : FetchOptions) : Fetch FetchResponse :=
  finalUrl ← resolve this url params;
  super_fetcher this finalUrl params options.

End methods.
End PostsArchiveFetchStrategy.

(** ** strategies/SearchFetchStrategy.ts *)

Module SearchFetchStrategy.
Section methods.
Context `{Network, Utils, AbstractFetchStrategy}.

Definition getDefaultEndpoint : string := endpoints_posts.

(** The url of the SEO side-fetch. *)
Definition seoUrl (params : EndpointParams) : string :=
  addQueryArgs (getWPUrl +:+ endpoints_yoast)
    [("url", Some (JStr (getWPUrl +:+ "/?s=" +:+ template (params !! "search"))))].

(** The [try] block of [fetcher] with its empty [catch]: the values of
    [seo] and [seo_json] after it. *)
Definition fetchSeo (params : EndpointParams) : Fetch (jsval * list (string * JSON)) :=
  try_catch
    (result ← apiGet (seoUrl params) [];
     html ← lift (get_prop "html" (Some (json result)));
     seo_json ← lift (get_prop "json" (Some (json result)));
     mret (html, spread seo_json))
    (fun _ => mret (Some (JStr EmptyString), [])).

(** The [queriedObject] that [fetcher] builds. *)
Definition searchObject (params : EndpointParams) (seo : jsval)
    (seo_json : list (string * JSON)) : QueriedObject :=
  {| search := Some {| searchedValue := nullish_or (params !! "search") (JStr EmptyString);
                       type := "post";
                       subtype := nullish_or (params !! "postType") (JStr "post");
                       yoast_head := seo;
                       yoast_head_json := seo_json |};
     author := None;
     term := None |}.

(** [{ ...response, queriedObject }] *)
Definition with_queriedObject (response : FetchResponse) (queriedObject : QueriedObject)
    : FetchResponse :=
  {| result := result response;
     pageInfo := pageInfo response;
     queriedObject := Some queriedObject |}.

(** [fetcher(url, params)]: the method declares no third parameter. *)
Definition fetcher (this : Strategy) (url : string) (params : EndpointParams)
    : Fetch FetchResponse :=
  '(seo, seo_json) ← fetchSeo params;
  let queriedObject := searchObject params seo seo_json in
  response ← PostsArchiveFetchStrategy.fetcher this url params
               {[ "throwIfNotFound" := JBool false ]};
  mret (with_queriedObject response queriedObject).

(** A call site that passes a third argument, as [fetchHookData] does:
    JavaScript drops the argument the method does not declare. *)
Definition fetcher_called_with (this : Strategy) (url : string) (params : EndpointParams)
    (options : option FetchOptions) : Fetch FetchResponse :=
  fetcher this url params.

End methods.
End SearchFetchStrategy.

(** ** strategies/TaxonomyTermsStrategy.ts *)

Module TaxonomyTermsStrategy.
Section methods.
Context `{Network, Utils, AbstractFetchStrategy, DataFilter}.

Definition defaultTaxonmy : string := "category".

Definition getDefaultEndpoint : string := endpoints_category.

(** [getParamsFromURL(path, params = {})] *)
Definition getParamsFromURL (path : string) (params : option EndpointParams)
    : EndpointParams := ∅.

(** [fetcher(url, params, options?)] *)
Definition fetcher (this : Strategy) (url : string) (params : EndpointParams)
    (options : option FetchOptions) : Fetch FetchResponse :=
  super_fetcher this url params
    (<[ "throwIfNotFound" := JBool false ]> (default ∅ options)).

(** [filterData(data, filterOptions?)] *)
Definition filterData (data : FetchResponse) (filterOptions : option FilterDataOptions)
    : FetchResponse :=
  match filterOptions with
  | Some filterOptions => super_filterData data filterOptions
  | None =>
      {| result := removeFields ["_links"] (result data);
         pageInfo := pageInfo data;
         queriedObject := queriedObject data |}
  end.

End methods.
End TaxonomyTermsStrategy.

(** ** next/src/data/fetchHookData and the tests: how a strategy is called *)

(** [{ _embed: true, ...urlParams, ...params }] *)
Definition finalParams (urlParams params : EndpointParams) : EndpointParams :=
  params ∪ urlParams ∪ {[ "_embed" := JBool true ]}.

(** [fetchStrategy.fetcher(fetchStrategy.buildEndpointURL(params), params, options)]:
    the argument is evaluated first, and a throw there leaves the call of
    [fetcher] unmade. *)
Definition fetch_built
    (buildEndpointURL : Strategy -> EndpointParams -> Strategy * (error + string))
    (fetcher : Strategy -> string -> EndpointParams -> FetchOptions -> Fetch FetchResponse)
    (this : Strategy) (params : EndpointParams) (options : FetchOptions)
    : Fetch FetchResponse :=
  match buildEndpointURL this params with
  | (_, inl e) => throw e
  | (this', inr url) => fetcher this' url params options
  end.

(** ** The base class, from the specification *)

Module Base.

(** A string of decimal digits as a number. *)
Definition digit (c : ascii) : option Z :=
  let n := Z.of_nat (nat_of_ascii c) in
  if (48 <=? n) && (n <=? 57) then Some (n - 48) else None.

Fixpoint parse_digits (acc : Z) (s : string) : option Z :=
  match s with
  | EmptyString => Some acc
  | String c r =>
      match digit c with
      | Some d => parse_digits (10 * acc + d) r
      | None => None
      end
  end.

Definition parse_number (s : string) : option Z :=
  match s with
  | EmptyString => None
  | _ => parse_digits 0 s
  end.

(** A count read from a response header, 1 when the header is absent
    (or is no number). *)
Definition header_count (name : string) (hs : list (string * string)) : Z :=
  default 1 (assoc name hs ≫= parse_number).

Definition page_of (params : EndpointParams) : Z :=
  match params !! "page" with
  | Some (JNum n) => n
  | Some (JStr s) => default 1 (parse_number s)
  | _ => 1
  end.

(** The [Authorization] header of a call, present when [authToken] is. *)
Definition auth_args (params : EndpointParams) : list (string * string) :=
  if truthy (params !! "authToken")
  then [("Authorization", "Bearer " +:+ template (params !! "authToken"))]
  else [].

(** Zero results: the body is the empty array. *)
Definition no_results (j : JSON) : bool :=
  match j with JArr [] => true | _ => false end.

(** [options.throwIfNotFound], true unless the caller says otherwise. *)
Definition throwIfNotFound (options : FetchOptions) : bool :=
  match options !! "throwIfNotFound" with
  | None => true
  | Some v => truthy (Some v)
  end.

Definition envelope (params : EndpointParams) (data : response) : FetchResponse :=
  {| result := json data;
     pageInfo := {| page := page_of params;
                    totalPages := header_count "x-wp-totalpages" (headers data);
                    totalItems := header_count "x-wp-total" (headers data) |};
     queriedObject := None |}.

Section methods.
Context `{Network, Utils}.

(** Modelled from the spec: [AbstractFetchStrategy.buildEndpointURL],
    whose code is not part of the sources at hand (section 4.3: with
    an [id] the url is [<endpoint>/<id>], otherwise the endpoint
    followed by the remaining params as a query string). *)
Definition buildEndpointURL (this : Strategy) (params : EndpointParams) : string :=
  match params !! "id" with
  | Some id => endpoint this +:+ "/" +:+ to_string id
  | None => addQueryArgs (endpoint this) (prod_map id Some <$> map_to_list params)
  end.

(** Modelled from the spec: [AbstractFetchStrategy.fetcher], whose code
    is not part of the sources at hand (sections 4.4, 6 and 7: one
    call of the network capability, bearing the bearer header when a
    token is present; zero results are a not-found error unless the
    strategy disables it, as the search and taxonomy-terms strategies
    do through [throwIfNotFound]; [pageInfo] is read from the response
    headers and defaults to 1). *)
Definition fetcher (this : Strategy) (url : string) (params : EndpointParams)
    (options : FetchOptions) : Fetch FetchResponse :=
  data ← apiGet (baseURL this +:+ url) (auth_args params);
  if throwIfNotFound options && no_results (json data)
  then throw (NotFoundError ("The request to " +:+ url +:+ " returned no data"))
  else mret (envelope params data).

End methods.

(** Section 4.5 of the specification: the fields of a record that a
    filter keeps.  [required] are the shape fields that [ALLOW] always
    keeps.  The field [*], which the default options of [fetchHookData]
    list under [ALLOW], stands for every field. *)
Definition keeps (required : list string) (options : option FilterDataOptions)
    (field : string) : bool :=
  match options with
  | None => negb (String.eqb field "_links")
  | Some {| method := ALLOW; fields := fs |} =>
      bool_decide ("*" ∈ fs) || bool_decide (field ∈ fs) || bool_decide (field ∈ required)
  | Some {| method := DENY; fields := fs |} => negb (bool_decide (field ∈ fs))
  end.

(** The members of one record that satisfy [keep]. *)
Definition project (keep : string -> bool) (record : JSON) : JSON :=
  match record with
  | JObj members => JObj (List.filter (fun m => keep (fst m)) members)
  | _ => record
  end.

(** A projection applied to a single item or to each item of an array. *)
Definition on_result (keep : string -> bool) (data : JSON) : JSON :=
  match data with
  | JArr items => JArr (project keep <$> items)
  | _ => project keep data
  end.

(** Modelled from the spec: [removeFields] of [utils/dataFilter], whose
    code is not part of the sources at hand (section 4.5: the listed
    top-level fields are removed, from a single item or from each item
    of an array). *)
Definition removeFields (fieldsToRemove : list string) (data : JSON) : JSON :=
  on_result (fun field => negb (bool_decide (field ∈ fieldsToRemove))) data.

(** Modelled from the spec: [AbstractFetchStrategy.filterData], whose
    code is not part of the sources at hand (section 4.5: [ALLOW] keeps
    the listed fields and the required shape fields, [DENY] removes the
    listed fields, no options strips [_links] only). *)
Definition filterData (required : list string) (data : FetchResponse)
    (filterOptions : option FilterDataOptions) : FetchResponse :=
  {| result := on_result (keeps required filterOptions) (result data);
     pageInfo := pageInfo data;
     queriedObject := queriedObject data |}.

(** The shape fields the specification names: the id and the link used
    for internal navigation. *)
Definition shape_fields : list string := ["id"; "link"].

End Base.

(** The base class and the data filter of the specification, as what the
    strategies reach through [super] and [removeFields]. *)
Definition spec_base `{Network, Utils} (required : list string) : AbstractFetchStrategy :=
  {| super_buildEndpointURL := Base.buildEndpointURL;
     super_fetcher := Base.fetcher;
     super_filterData := fun data o => Base.filterData required data (Some o) |}.

Definition spec_filter : DataFilter := Base.removeFields.

(** ** The path matcher, from the specification *)

(** [decodeURIComponent], a built-in of the language. *)
Class UrlDecode : Type := decodeURIComponent : string -> string.

Module PathMatcher.

(** The components of a string between slashes, empty ones included. *)
Fixpoint components (s : string) : list string :=
  match s with
  | EmptyString => [EmptyString]
  | String c r =>
      if Ascii.eqb c "/" then EmptyString :: components r
      else match components r with
           | [] => [String c EmptyString]
           | x :: xs => String c x :: xs
           end
  end.

Definition nonempty (s : string) : bool := negb (String.eqb s EmptyString).

(** The segments of a path: [/] and the empty path have none. *)
Definition split_path (path : string) : list string :=
  List.filter nonempty (components path).

(** A proper segment: not empty and without a slash. *)
Fixpoint has_slash (s : string) : bool :=
  match s with
  | EmptyString => false
  | String c r => Ascii.eqb c "/" || has_slash r
  end.

Definition is_segment (s : string) : bool := nonempty s && negb (has_slash s).

(** The path made of the given segments: [/a/b/c]. *)
Fixpoint path_of (segments : list string) : string :=
  match segments with
  | [] => EmptyString
  | seg :: rest => "/" +:+ seg +:+ path_of rest
  end.

Inductive segment : Type :=
| Literal (text : string)
| Capture (name : string).

Definition segment_of (component : string) : segment :=
  match component with
  | String ":" name => Capture name
  | _ => Literal component
  end.

(** A pattern such as [/category/:category/page/:page], decomposed. *)
Definition decompose (pattern : string) : list segment :=
  segment_of <$> split_path pattern.

(** [{ name, pattern, priority }] *)
Record MatcherRule : Type := {
  name : string;
  pattern : string;
  priority : Z;
}.

Section matching.
Context `{UrlDecode}.

(** A path matches a pattern iff the segment counts are equal and
    every literal segment is equal to its component; a capture takes
    the decoded component. *)
Fixpoint match_segments (pat : list segment) (comps : list string)
    : option (list (string * string)) :=
  match pat, comps with
  | [], [] => Some []
  | Literal text :: pat', c :: comps' =>
      if String.eqb text c then match_segments pat' comps' else None
  | Capture name :: pat', c :: comps' =>
      caps ← match_segments pat' comps';
      Some ((name, decodeURIComponent c) :: caps)
  | _, _ => None
  end.

(** The winner so far against the next rule: a later rule wins only
    with a strictly higher priority. *)
Definition choose (comps : list string)
    (best : option (MatcherRule * list (string * string))) (rule : MatcherRule)
    : option (MatcherRule * list (string * string)) :=
  match match_segments (decompose (pattern rule)) comps with
  | None => best
  | Some caps =>
      match best with
      | None => Some (rule, caps)
      | Some (b, _) => if priority b <? priority rule then Some (rule, caps) else best
      end
  end.

(** Modelled from the spec: the path matcher [parsePath] of
    [utils/parsePath], whose code is not part of the sources at hand
    (section 4.1: the captures of the matching rule of highest
    priority, the earliest registered on a tie; no match gives no
    captures). *)
Definition parsePath (rules : list MatcherRule) (path : string)
    : list (string * string) :=
  match foldl (choose (split_path path)) None rules with
  | Some (_, caps) => caps
  | None => []
  end.

End matching.
End PathMatcher.

(** ** The single-item strategy, from the specification *)

Module SinglePostFetchStrategy.
Import PathMatcher.

(** Modelled from the spec: the rules of the single-post strategy, whose
    table [postMatchers] is not part of the sources at hand (section
    4.2: [/slug], the date forms, [/parent/slug] and the date and parent
    combinations).  The specification gives these rules no priorities;
    they are registered in the order it lists them, with one priority. *)
Definition postMatchers : list MatcherRule :=
  [ {| name := "slug"; pattern := "/:slug"; priority := 10 |};
    {| name := "year"; pattern := "/:year/:slug"; priority := 10 |};
    {| name := "month"; pattern := "/:year/:month/:slug"; priority := 10 |};
    {| name := "day"; pattern := "/:year/:month/:day/:slug"; priority := 10 |};
    {| name := "parent"; pattern := "/:parent/:slug"; priority := 10 |};
    {| name := "year-parent"; pattern := "/:year/:parent/:slug"; priority := 10 |};
    {| name := "month-parent"; pattern := "/:year/:month/:parent/:slug"; priority := 10 |};
    {| name := "day-parent"; pattern := "/:year/:month/:day/:parent/:slug";
       priority := 10 |} ].

Definition not_found_message : string := "The request returned no data".

(** [link] of an item, when it is a string. *)
Definition link_of (item : JSON) : option string :=
  match item with
  | JObj members =>
      match assoc "link" members with
      | Some (JStr l) => Some l
      | _ => None
      end
  | _ => None
  end.

Definition ends_with (suffix s : string) : bool :=
  String.prefix (String.rev suffix) (String.rev s).

Definition link_matches (path : string) (item : JSON) : bool :=
  match link_of item with
  | Some l => ends_with path l
  | None => false
  end.

(** Several items for one slug: the first whose link ends with the
    requested path, the first item otherwise. *)
Definition select (path : string) (items : JSON) : JSON :=
  match items with
  | JArr (first :: rest) => default first (List.find (link_matches path) (first :: rest))
  | _ => items
  end.

Section methods.
Context `{Network, Utils, UrlDecode}.

Definition getDefaultEndpoint : string := endpoints_posts.

(** Modelled from the spec: [SinglePostFetchStrategy.getParamsFromURL],
    whose code is not part of the sources at hand (section 4.2: every
    rule reduces to the slug; the date and parent captures are
    dropped). *)
Definition getParamsFromURL (path : string) : EndpointParams :=
  match assoc "slug" (parsePath postMatchers path) with
  | Some slug => {[ "slug" := JStr slug ]}
  | None => ∅
  end.

(** The keys that select a content type and are no query parameters. *)
Definition selector_keys : list string :=
  ["category"; "tag"; "postType"] ++ getCustomTaxonomySlugs.

(** Modelled from the spec: [SinglePostFetchStrategy.buildEndpointURL],
    whose code is not part of the sources at hand (section 4.3: the
    first entry of an array [postType] determines the endpoint; an
    unregistered post type is a configuration error; the selector
    keys are stripped). *)
Definition buildEndpointURL (this : Strategy) (params : EndpointParams) : error + string :=
  let active :=
    match params !! "postType" with
    | Some (JArr items) => head items
    | other => other
    end in
  let endpointParams := foldr delete params selector_keys in
  match active with
  | None =>
      inr (Base.buildEndpointURL (setEndpoint this getDefaultEndpoint) endpointParams)
  | Some postType =>
      match getCustomPostType postType with
      | None => inl (ConfigError unknown_post_type)
      | Some registration =>
          inr (Base.buildEndpointURL (setEndpoint this (pt_endpoint registration))
                 endpointParams)
      end
  end.

(** One candidate endpoint is asked; [None] stands for zero results. *)
Definition attempt (this : Strategy) (url : string) (params : EndpointParams)
    (options : FetchOptions) : Fetch (option FetchResponse) :=
  r ← Base.fetcher this url params (<[ "throwIfNotFound" := JBool false ]> options);
  mret (if Base.no_results (result r) then None else Some r).

(** The candidates are asked in order until one answers with a result. *)
Fixpoint first_found (this : Strategy) (params : EndpointParams) (options : FetchOptions)
    (urls : list (error + string)) : Fetch FetchResponse :=
  match urls with
  | [] => throw (NotFoundError not_found_message)
  | u :: rest =>
      url ← lift u;
      found ← attempt this url params options;
      match found with
      | Some r => mret r
      | None => first_found this params options rest
      end
  end.

(** The url the caller built comes first; each later entry of an array
    [postType] contributes the url of its own endpoint. *)
Definition candidate_urls (this : Strategy) (url : string) (params : EndpointParams)
    : list (error + string) :=
  inr url ::
  match params !! "postType" with
  | Some (JArr (_ :: rest)) =>
      (fun postType => buildEndpointURL this (<[ "postType" := postType ]> params))
        <$> rest
  | _ => []
  end.

(** Modelled from the spec: [SinglePostFetchStrategy.fetcher], whose
    code is not part of the sources at hand (section 4.4: a revision
    of an id is two calls in sequence, the revisions of the resource
    and then the resource; otherwise the candidates of [postType] are
    asked in order, the first non-empty result wins and is narrowed to
    one item, and exhausting them is a not-found error).  [path] is
    the path that was requested. *)
Definition fetcher (path : string) (this : Strategy) (url : string)
    (params : EndpointParams) (options : FetchOptions) : Fetch FetchResponse :=
  if truthy (params !! "revision") && truthy (params !! "id") then
    _ ← Base.fetcher this (url +:+ "/revisions?per_page=1") params options;
    Base.fetcher this url params options
  else
    r ← first_found this params options (candidate_urls this url params);
    mret {| result := select path (result r);
            pageInfo := pageInfo r;
            queriedObject := queriedObject r |}.

(** The call that asking a url makes. *)
Definition call_of (this : Strategy) (params : EndpointParams) (url : string)
    : request :=
  Request (baseURL this +:+ url) (Base.auth_args params).

(** The url of the endpoint of a registered post type for [params]. *)
Definition url_of (this : Strategy) (params : EndpointParams) (postType : string)
    : string :=
  match getCustomPostType (JStr postType) with
  | Some registration =>
      Base.buildEndpointURL (setEndpoint this (pt_endpoint registration))
        (foldr delete params selector_keys)
  | None => EmptyString
  end.

(** The calls that asking the endpoints of the given post types makes. *)
Definition calls_for (this : Strategy) (params : EndpointParams) (postTypes : list string)
    : trace :=
  call_of this params <$> (url_of this params <$> postTypes).

(** Each of the calls, made in turn after [tr], is answered with the
    empty array. *)
Fixpoint all_empty (tr : trace) (calls : list request) : Prop :=
  match calls with
  | [] => True
  | rq :: rest =>
      (∃ hs, fetch tr (served rq) = inr (Response hs (JArr []))) ∧
      all_empty (tr ++ [rq])%list rest
  end.

End methods.
End SinglePostFetchStrategy.

(** ** A configuration and backends in the manner of the tests *)

Module Sample.

Fixpoint has_query (url : string) : bool :=
  match url with
  | EmptyString => false
  | String c r => Ascii.eqb c "?" || has_query r
  end.

(** A plain [addQueryArgs]: each defined argument is appended after [?]
    or [&]. *)
Fixpoint plain_addQueryArgs (url : string) (args : list (string * jsval)) : string :=
  match args with
  | [] => url
  | (k, Some v) :: rest =>
      plain_addQueryArgs (url +:+ (if has_query url then "&" else "?") +:+ k +:+ "="
                    +:+ to_string v) rest
  | (_, None) :: rest => plain_addQueryArgs url rest
  end.

Definition post : CustomPostType :=
  {| pt_slug := "post"; pt_endpoint := "/wp-json/wp/v2/posts";
     pt_single := None; pt_archive := None |}.
Definition page : CustomPostType :=
  {| pt_slug := "page"; pt_endpoint := "/wp-json/wp/v2/pages";
     pt_single := None; pt_archive := None |}.
Definition book : CustomPostType :=
  {| pt_slug := "book"; pt_endpoint := "/wp-json/wp/v2/book";
     pt_single := None; pt_archive := None |}.

Definition category : CustomTaxonomy :=
  {| tax_slug := "category"; tax_endpoint := "/wp-json/wp/v2/categories";
     tax_rewrite := None; tax_restParam := Some "categories" |}.
Definition post_tag : CustomTaxonomy :=
  {| tax_slug := "post_tag"; tax_endpoint := "/wp-json/wp/v2/tags";
     tax_rewrite := Some "tag"; tax_restParam := Some "tags" |}.

Definition config : HeadlessConfig :=
  {| sourceUrl := None; customPostTypes := Some [book]; customTaxonomies := None;
     redirectStrategy := None; useWordPressPlugin := None |}.

Definition utils : Utils :=
  {| getHeadlessConfig := config;
     getCustomTaxonomies := Some [category; post_tag];
     getCustomTaxonomySlugs := ["category"; "post_tag"];
     getCustomPostType := fun v =>
       match v with
       | JStr s => List.find (fun p => String.eqb (pt_slug p) s) [post; page; book]
       | _ => None
       end;
     getWPUrl := EmptyString;
     addQueryArgs := plain_addQueryArgs;
     endpoints_posts := "/wp-json/wp/v2/posts";
     endpoints_category := "/wp-json/wp/v2/categories";
     endpoints_yoast := "/wp-json/yoast/v1/get_head" |}.

Definition decode : UrlDecode := fun s => s.

Definition this : Strategy :=
  {| baseURL := EmptyString; endpoint := "/wp-json/wp/v2/posts" |}.

(** A backend that answers by url from a table and whose other urls
    cannot be reached. *)
Definition backend (table : list (string * JSON)) : Network :=
  fun _ rq =>
    match assoc (req_url rq) table with
    | Some body => inr (Response [] body)
    | None => inl "unreachable"
    end.

Definition the_post : JSON :=
  JObj [("id", JNum 1); ("link", JStr "/2021/10/post-name")].

(** The book endpoint has no match, the posts endpoint has one. *)
Definition books_empty : Network :=
  backend [("/wp-json/wp/v2/book?slug=post-name", JArr []);
           ("/wp-json/wp/v2/posts?slug=post-name", JArr [the_post])].

(** No category is called news. *)
Definition no_news : Network :=
  backend [("/wp-json/wp/v2/categories?slug=news", JArr [])].

(** The category news has id 7 and two posts. *)
Definition news : Network :=
  backend [("/wp-json/wp/v2/categories?slug=news",
            JArr [JObj [("id", JNum 7); ("slug", JStr "news")]]);
           ("/wp-json/wp/v2/posts?categories=7",
            JArr [JObj [("id", JNum 1)]; JObj [("id", JNum 2)]])].

(** A search that finds nothing, and no SEO endpoint. *)
Definition nothing_found : Network :=
  backend [("/wp-json/wp/v2/posts?search=zzz", JArr [])].

(** Two child pages with one slug under different parents. *)
Definition child (id : Z) (parent : string) : JSON :=
  JObj [("title", JStr "test"); ("id", JNum id);
        ("link", JStr ("http://sourceurl.com/" +:+ parent +:+ "/about"))].

Definition children : Network :=
  fun _ _ => inr (Response [("x-wp-totalpages", "1"); ("x-wp-total", "2")]
                    (JArr [child 1 "parent-page"; child 2 "parent-page-2"])).

(** A revision and its post, both behind one answer as in the tests. *)
Definition revisions : Network :=
  fun _ _ => inr (Response [("x-wp-totalpages", "1"); ("x-wp-total", "1")]
                    (JArr [JObj [("id", JNum 1); ("link", JStr "/post-name")]])).

End Sample.


(** * More of the code *)

(** ** PostsArchiveFetchStrategy.fetcher with the plugin *)

(** What one taxonomy adds to the url when the plugin takes slugs. *)
Definition forward_slug `{Utils} (params : EndpointParams) (finalUrl : string)
    (taxonomy : CustomTaxonomy) : string :=
  let paramSlug := default (tax_slug taxonomy) (tax_rewrite taxonomy) in
  if truthy (params !! paramSlug)
  then addQueryArgs finalUrl
         [(default (tax_slug taxonomy) (tax_restParam taxonomy), params !! paramSlug)]
  else finalUrl.

(** ** strategies/TaxonomyTermsStrategy.ts: the endpoint *)

(** [getCustomTaxonomy(slug, sourceUrl)] of utils, not part of the
    sources at hand. *)
Class TaxonomyUtils : Type := getCustomTaxonomy : JSON -> string -> option CustomTaxonomy.

Definition unknown_taxonomy : string :=
  "Unkown taxonomy, did you forget to add it to headless.config.js?".

Module TaxonomyTermsEndpoint.
Section methods.
Context `{Utils, TaxonomyUtils, AbstractFetchStrategy}.

(** [buildEndpointURL(params)]: [taxonomy] defaults to [defaultTaxonmy]
    when it is undefined, and is not part of the endpoint params. *)
Definition buildEndpointURL (this : Strategy) (params : EndpointParams)
    : Strategy * (error + string) :=
  let taxonomy := default (JStr TaxonomyTermsStrategy.defaultTaxonmy) (params !! "taxonomy") in
  let endpointParams := delete "taxonomy" params in
  match getCustomTaxonomy taxonomy (baseURL this) with
  | None => (this, inl (ConfigError unknown_taxonomy))
  | Some taxonomyObj =>
      let this' := setEndpoint this (tax_endpoint taxonomyObj) in
      (this', inr (super_buildEndpointURL this' endpointParams))
  end.

End methods.
End TaxonomyTermsEndpoint.

(** ** next/src/data: convertToPath, fetchHookData, addHookData, handleError *)

(** [unstable_serialize] of swr on the key [{ url, args }]. *)
Class Swr : Type := unstable_serialize : string -> EndpointParams -> string.

(** [fetchRedirect(pathname)] of the core package: the [location] of the
    redirect the backend knows for a path, if any; the call may reject. *)
Class Redirects : Type := fetchRedirect : string -> error + option string.

Module HookData.

(** [array.join(separator)] *)
Fixpoint join (separator : string) (array : list string) : string :=
  match array with
  | [] => EmptyString
  | [x] => x
  | x :: rest => x +:+ separator +:+ join separator rest
  end.

(** [convertToPath(args)] *)
Definition convertToPath (args : option (list string)) : string :=
  match args with
  | None => "/"
  | Some args => "/" +:+ join "/" args
  end.

(** [s.includes(needle)] *)
Fixpoint includes (needle s : string) : bool :=
  String.prefix needle s ||
  match s with
  | EmptyString => false
  | String _ rest => includes needle rest
  end.

(** [ctx.params.path]: a string or an array of strings. *)
Inductive PathParam : Type :=
| PathString (s : string)
| PathArray (l : list string).

(** [PreviewData]: [{ id, postType, revision, authToken }]. *)
Record PreviewData : Type := {
  pd_id : JSON;
  pd_postType : JSON;
  pd_revision : JSON;
  pd_authToken : JSON;
}.

(** The parts of the Next.js context that are read: [ctx.params] with
    its [path], [ctx.preview], [ctx.previewData] and [ctx.req.url]. *)
Record Context : Type := {
  ctx_params : option (option PathParam);
  ctx_preview : bool;
  ctx_previewData : option PreviewData;
  ctx_req_url : option string;
}.

(** [FetchHookDataOptions] *)
Record FetchHookDataOptions : Type := {
  opt_params : option EndpointParams;
  opt_filterData : option FilterDataOptions;
  opt_fetchStrategyOptions : option FetchOptions;
}.

(** The methods of the strategy that [fetchHookData] calls.  The ones
    that may write the state of the strategy answer the new state. *)
Record FetchStrategy : Type := {
  fs_getParamsFromURL : Strategy -> string -> EndpointParams -> Strategy * EndpointParams;
  fs_getEndpoint : Strategy -> string;
  fs_buildEndpointURL : Strategy -> EndpointParams -> Strategy * (error + string);
  fs_fetcher : Strategy -> string -> EndpointParams -> option FetchOptions -> Fetch FetchResponse;
  fs_getQueriedObject : Strategy -> FetchResponse -> EndpointParams -> option QueriedObject;
  fs_filterData : Strategy -> FetchResponse -> FilterDataOptions -> FetchResponse;
}.

(** The [path] that [fetchHookData] computes from [ctx.params]. *)
Definition path_of_context (ctx : Context) : list string :=
  match ctx_params ctx with
  | None => []
  | Some (Some (PathArray l)) => l
  | Some (Some (PathString s)) => [s]
  | Some None => [EmptyString]
  end.

(** [isPreviewRequest] *)
Definition isPreviewRequest (urlParams : EndpointParams) : bool :=
  match urlParams !! "slug" with
  | Some (JStr slug) => includes "-preview=true" slug
  | _ => false
  end.

(** The assignments to [finalParams] under
    [if (ctx.preview && ctx.previewData && isPreviewRequest)]. *)
Definition withPreview (ctx : Context) (urlParams finalParams : EndpointParams)
    : EndpointParams :=
  match ctx_previewData ctx with
  | Some previewData =>
      if ctx_preview ctx && isPreviewRequest urlParams then
        <[ "authToken" := pd_authToken previewData ]>
          (<[ "postType" := pd_postType previewData ]>
             (<[ "revision" := pd_revision previewData ]>
                (<[ "id" := pd_id previewData ]> finalParams)))
      else finalParams
  | None => finalParams
  end.

Definition defaultFilter : FilterDataOptions := {| method := ALLOW; fields := ["*"] |}.

Section fetchHookData.
Context `{Utils, Swr}.

(** [fetchHookData(fetchStrategy, ctx, options = {})].  The object
    [finalParams] is shared by the key and by the calls: the key is
    serialized at the end, from the object as the assignments of a
    preview left it; its [url] is the endpoint read before
    [buildEndpointURL] runs. *)
Definition fetchHookData (fetchStrategy : FetchStrategy) (this : Strategy) (ctx : Context)
    (options : FetchHookDataOptions) : Fetch (string * FetchResponse) :=
  let wpURL := getWPUrl in
  let params := default ∅ (opt_params options) in
  let filterDataOptions := default defaultFilter (opt_filterData options) in
  let this := {| baseURL := wpURL; endpoint := endpoint this |} in
  let path := path_of_context ctx in
  let '(this, urlParams) :=
    fs_getParamsFromURL fetchStrategy this (convertToPath (Some path)) params in
  let finalParams := finalParams urlParams params in
  let key_url := fs_getEndpoint fetchStrategy this in
  let finalParams := withPreview ctx urlParams finalParams in
  match fs_buildEndpointURL fetchStrategy this finalParams with
  | (_, inl e) => throw e
  | (this, inr url) =>
      data ← fs_fetcher fetchStrategy this url finalParams (opt_fetchStrategyOptions options);
      let data :=
        {| result := result data;
           pageInfo := pageInfo data;
           queriedObject := fs_getQueriedObject fetchStrategy this data finalParams |} in
      mret (unstable_serialize key_url finalParams,
            fs_filterData fetchStrategy this data filterDataOptions)
  end.

End fetchHookData.

(** *** addHookData *)

Record HookState : Type := {
  hs_key : string;
  hs_data : FetchResponse;
}.

(** [x?.k] for a key that arrays and strings do not have. *)
Definition opt_prop (k : string) (x : JSON) : jsval :=
  match x with
  | JObj members => assoc k members
  | _ => None
  end.

(** [x.k = v] on the members of an object. *)
Fixpoint set_member (k : string) (v : JSON) (members : list (string * JSON))
    : list (string * JSON) :=
  match members with
  | [] => [(k, v)]
  | (k', v') :: rest =>
      if String.eqb k k' then (k, v) :: rest else (k', v') :: set_member k v rest
  end.

(** [if (post?.k) { post.k = null; }] *)
Definition clear_field (k : string) (post : JSON) : JSON :=
  if truthy (opt_prop k post) then
    match post with
    | JObj members => JObj (set_member k JNull members)
    | _ => post
    end
  else post.

Definition clear_post (post : JSON) : JSON :=
  clear_field "theme.json" (clear_field "yoast_head" (clear_field "yoast_head_json" post)).

(** What the loop has gathered. *)
Record Gathered : Type := {
  fallback : gmap string FetchResponse;
  seo_json : list (string * JSON);
  themeJSON : JSON;
}.

(** The record of a result that may give the SEO data: the first of a
    non-empty array, or the result that is no array. *)
Definition leading (result : JSON) : option JSON :=
  match result with
  | JArr [] => None
  | JArr (first :: _) => Some first
  | single => Some single
  end.

(** The result after the loop body: every record of an array, or the
    single result, with its SEO fields cleared. *)
Definition cleared (result : JSON) : JSON :=
  match result with
  | JArr posts => JArr (clear_post <$> posts)
  | single => clear_post single
  end.

(** The data of a hook state after the loop body. *)
Definition clean (data : FetchResponse) : FetchResponse :=
  {| result := cleared (result data);
     pageInfo := pageInfo data;
     queriedObject :=
       match queriedObject data with
       | Some _ => Some {| search := None; author := None; term := None |}
       | None => None
       end |}.

(** The body of [hookStates.filter(Boolean).forEach(...)]. *)
Definition gather (acc : Gathered) (hookState : option HookState) : Gathered :=
  match hookState with
  | None => acc
  | Some hookState =>
      let data := hs_data hookState in
      let lead := leading (result data) in
      let field (k : string) : jsval := lead ≫= opt_prop k in
      {| fallback := <[ hs_key hookState := clean data ]> (fallback acc);
         seo_json :=
           if truthy (field "yoast_head_json") then spread (field "yoast_head_json")
           else seo_json acc;
         themeJSON :=
           if truthy (field "theme.json") then
             match result data with
             | JArr _ => JObj (spread (field "theme.json"))
             | _ => default JNull (field "theme.json")
             end
           else themeJSON acc |}
  end.

(** [addHookData(hookStates, nextProps)] returns
    [{ ...rest, props: { ...props, seo, themeJSON, fallback } }]. *)
Record PageProps : Type := {
  pp_rest : gmap string JSON;
  pp_props : gmap string JSON;
  pp_seo : list (string * JSON);
  pp_themeJSON : JSON;
  pp_fallback : gmap string FetchResponse;
}.

Definition addHookData (hookStates : list (option HookState))
    (nextProps_props : option (gmap string JSON)) (rest : gmap string JSON) : PageProps :=
  let gathered :=
    foldl gather {| fallback := ∅; seo_json := []; themeJSON := JObj [] |} hookStates in
  {| pp_rest := rest;
     pp_props := delete "fallback" (delete "themeJSON" (delete "seo"
                   (default ∅ nextProps_props)));
     pp_seo := seo_json gathered;
     pp_themeJSON := themeJSON gathered;
     pp_fallback := fallback gathered |}.

(** The records of a result: the items of an array, or the single
    result. *)
Definition records (result : JSON) : list JSON :=
  match result with
  | JArr posts => posts
  | single => [single]
  end.

(** The fields that the loop clears. *)
Definition seo_fields : list string := ["yoast_head_json"; "yoast_head"; "theme.json"].

(** The [yoast_head_json] that a hook state offers for the page: the one
    of its leading record. *)
Definition seo_offer (hookState : option HookState) : jsval :=
  hookState ≫= fun st => leading (result (hs_data st)) ≫= opt_prop "yoast_head_json".

(** *** handleError *)

Inductive PropsResult : Type :=
| Redirect (destination : string) (permanent : bool)
| NotFound.

(** [pathname]: the url of the request, or else the path built from
    [ctx.params.path]. *)
Definition pathname_of (ctx : Context) (rootRoute : string) : string :=
  match ctx_req_url ctx with
  | Some url => url
  | None =>
      match ctx_params ctx with
      | Some (Some (PathArray l)) => rootRoute +:+ "/" +:+ join "/" l
      | Some (Some (PathString s)) => rootRoute +:+ "/" +:+ s
      | Some None | None => rootRoute +:+ "/" +:+ "undefined"
      end
  end.

Section handleError.
Context `{Utils, Redirects}.

(** [handleError(error, ctx, rootRoute = '')]: the pathnames given to
    [fetchRedirect], and what is thrown or returned. *)
Definition handleError (e : error) (ctx : Context) (rootRoute : string)
    : list string * (error + PropsResult) :=
  match e with
  | NotFoundError _ =>
      let pathname := pathname_of ctx rootRoute in
      match redirectStrategy getHeadlessConfig with
      | Some Redirect404 =>
          if negb (String.eqb pathname EmptyString) then
            match fetchRedirect pathname with
            | inl thrown => ([pathname], inl thrown)
            | inr (Some location) =>
                if negb (String.eqb location EmptyString)
                then ([pathname], inr (Redirect location false))
                else ([pathname], inr NotFound)
            | inr None => ([pathname], inr NotFound)
            end
          else ([], inr NotFound)
      | _ => ([], inr NotFound)
      end
  | _ => ([], inl e)
  end.

End handleError.
End HookData.

(** ** data/hooks/usePostsImpl.ts: the page type *)

Module UsePosts.

Record PageType : Type := {
  isPostArchive : bool;
  isSearch : bool;
  isAuthorArchive : bool;
  isPostTypeArchive : bool;
  postType : JSON;
  isCategoryArchive : bool;
  isTagArchive : bool;
  isTaxonomyArchive : bool;
  taxonomy : string;
}.

Definition initial : PageType :=
  {| isPostArchive := false; isSearch := false; isAuthorArchive := false;
     isPostTypeArchive := false; postType := JStr EmptyString; isCategoryArchive := false;
     isTagArchive := false; isTaxonomyArchive := false; taxonomy := EmptyString |}.

(** The assignments to the fields of [pageType]. *)
Definition set_isPostArchive (b : bool) (p : PageType) : PageType :=
  {| isPostArchive := b; isSearch := isSearch p; isAuthorArchive := isAuthorArchive p;
     isPostTypeArchive := isPostTypeArchive p; postType := postType p;
     isCategoryArchive := isCategoryArchive p; isTagArchive := isTagArchive p;
     isTaxonomyArchive := isTaxonomyArchive p; taxonomy := taxonomy p |}.

Definition set_isAuthorArchive (b : bool) (p : PageType) : PageType :=
  {| isPostArchive := isPostArchive p; isSearch := isSearch p; isAuthorArchive := b;
     isPostTypeArchive := isPostTypeArchive p; postType := postType p;
     isCategoryArchive := isCategoryArchive p; isTagArchive := isTagArchive p;
     isTaxonomyArchive := isTaxonomyArchive p; taxonomy := taxonomy p |}.

Definition set_isCategoryArchive (b : bool) (p : PageType) : PageType :=
  {| isPostArchive := isPostArchive p; isSearch := isSearch p;
     isAuthorArchive := isAuthorArchive p; isPostTypeArchive := isPostTypeArchive p;
     postType := postType p; isCategoryArchive := b; isTagArchive := isTagArchive p;
     isTaxonomyArchive := isTaxonomyArchive p; taxonomy := taxonomy p |}.

Definition set_isTagArchive (b : bool) (p : PageType) : PageType :=
  {| isPostArchive := isPostArchive p; isSearch := isSearch p;
     isAuthorArchive := isAuthorArchive p; isPostTypeArchive := isPostTypeArchive p;
     postType := postType p; isCategoryArchive := isCategoryArchive p; isTagArchive := b;
     isTaxonomyArchive := isTaxonomyArchive p; taxonomy := taxonomy p |}.

Definition set_postType (v : JSON) (p : PageType) : PageType :=
  {| isPostArchive := isPostArchive p; isSearch := isSearch p;
     isAuthorArchive := isAuthorArchive p; isPostTypeArchive := true; postType := v;
     isCategoryArchive := isCategoryArchive p; isTagArchive := isTagArchive p;
     isTaxonomyArchive := isTaxonomyArchive p; taxonomy := taxonomy p |}.

Definition set_taxonomy (t : string) (p : PageType) : PageType :=
  {| isPostArchive := isPostArchive p; isSearch := isSearch p;
     isAuthorArchive := isAuthorArchive p; isPostTypeArchive := isPostTypeArchive p;
     postType := postType p; isCategoryArchive := isCategoryArchive p;
     isTagArchive := isTagArchive p; isTaxonomyArchive := true; taxonomy := t |}.

Section pageType.
Context `{Utils}.

(** The [pageType] that [usePostsImpl] computes from the params of the
    query, one [if] after the other. *)
Definition pageType (queryParams : EndpointParams) : PageType :=
  let p := initial in
  let p := if truthy (queryParams !! "author")
           then set_isAuthorArchive true (set_isPostArchive true p) else p in
  let p := if truthy (queryParams !! "category")
           then set_isCategoryArchive true (set_isPostArchive true p) else p in
  let p := if truthy (queryParams !! "tag")
           then set_isTagArchive true (set_isPostArchive true p) else p in
  let p := if truthy (queryParams !! "postType")
           then set_postType (default JNull (queryParams !! "postType"))
                  (set_isPostArchive false p)
           else set_isPostArchive true p in
  foldl (fun p taxonmy => if truthy (queryParams !! taxonmy) then set_taxonomy taxonmy p else p)
    p getCustomTaxonomySlugs.

End pageType.
End UsePosts.

(** ** wp/headless-wp: Preview/PreviewToken.php *)

(** [==] on the values below, which depends on the version of PHP. *)
Inductive php : Type :=
| PNull
| PBool (b : bool)
| PInt (n : Z)
| PStr (s : string).

Class PhpLoose : Type := loose_eq : php -> php -> bool.

Module PreviewToken.

(** [===] *)
Definition identical (a b : php) : bool :=
  match a, b with
  | PNull, PNull => true
  | PBool x, PBool y => Bool.eqb x y
  | PInt x, PInt y => (x =? y)%Z
  | PStr x, PStr y => String.eqb x y
  | _, _ => false
  end.

(** [$array[$key]] for a key that may be missing: a missing key reads
    null. *)
Definition index (array : gmap string php) (key : string) : php :=
  default PNull (array !! key).

(** The superglobals that [check_capability] reads. *)
Record Server : Type := {
  REQUEST_METHOD : option string;
  GET_method : option php;
  HTTP_X_HTTP_METHOD_OVERRIDE : option string;
}.

(** The WordPress constant. *)
Definition MINUTE_IN_SECONDS : Z := 60.

(** The payload that [generate] encodes, issued at the given time. *)
Definition generate_payload (issued_at : Z) (payload : gmap string php) : gmap string php :=
  <[ "iat" := PInt issued_at ]>
    (<[ "exp" := PInt (issued_at + 5 * MINUTE_IN_SECONDS) ]>
       (<[ "type" := index payload "type" ]>
          (<[ "post_type" := index payload "post_type" ]>
             (<[ "post_id" := index payload "post_id" ]>
                (<[ "generator" := PStr "10up-headless-wp" ]> ∅))))).

(** [$capabilities] *)
Definition capabilities (post_id post_type : php) : list (string * php) :=
  [("read_post", post_id); ("edit_post", post_id); ("delete_post", post_id)] ++
  if identical post_type (PStr "page")
  then [("read_page", post_id); ("edit_page", post_id); ("delete_page", post_id)]
  else [].

(** [isset($x) && $x !== "GET"] for a string that may be unset. *)
Definition overrides_method (x : option string) : bool :=
  match x with
  | Some s => negb (String.eqb s "GET")
  | None => false
  end.

Section check.
Context `{PhpLoose}.

(** [check_capability($args)], [$payload] being the decoded token cast
    to an array. *)
Definition check_capability (server : Server) (payload : gmap string php)
    (args : list php) : bool :=
  if negb (identical (index payload "generator") (PStr "10up-headless-wp")) then false
  else if negb (identical (index payload "type") (PStr "preview")) then false
  else if overrides_method (REQUEST_METHOD server) then false
  else if match GET_method server with
          | Some PNull | None => false
          | Some v => negb (identical v (PStr "GET"))
          end then false
  else if overrides_method (HTTP_X_HTTP_METHOD_OVERRIDE server) then false
  else
    let post_id := index payload "post_id" in
    let post_type := index payload "post_type" in
    let capabilities := capabilities post_id post_type in
    match args with
    | [cap; _; id] =>
        match cap with
        | PStr name =>
            match assoc name capabilities with
            | Some granted => negb (identical granted PNull) && identical granted id
            | None => false
            end
        | _ => false
        end
    | _ =>
        let cap := default PNull (head args) in
        existsb (loose_eq cap) (snd <$> capabilities)
    end.

(** [user_has_cap($allcaps, $caps, $args, $user)] *)
Definition user_has_cap (server : Server) (payload : gmap string php)
    (allcaps : gmap string bool) (caps : list string) (args : list php)
    : gmap string bool :=
  if check_capability server payload args
  then foldl (fun allcaps cap => <[ cap := true ]> allcaps) allcaps caps
  else allcaps.

End check.

(** What the five guards at the head of [check_capability] ask of the
    token and of the request. *)
Definition gates (server : Server) (payload : gmap string php) : Prop :=
  index payload "generator" = PStr "10up-headless-wp" ∧
  index payload "type" = PStr "preview" ∧
  (∀ m, REQUEST_METHOD server = Some m → m = "GET") ∧
  (∀ v, GET_method server = Some v → v = PNull ∨ v = PStr "GET") ∧
  (∀ m, HTTP_X_HTTP_METHOD_OVERRIDE server = Some m → m = "GET").

(** The names of the capabilities that a token grants on its post. *)
Definition granted_names (post_type : php) : list string :=
  ["read_post"; "edit_post"; "delete_post"] ++
  if identical post_type (PStr "page") then ["read_page"; "edit_page"; "delete_page"] else [].

End PreviewToken.

(** ** react/components/BlocksRenderer.tsx *)

Module BlocksRenderer.
Section blocks.
(** The nodes of the parsed document and the settings are left open. *)
Context {Node Settings : Type}.

(** The props of a child that are read: [test] when it is a function,
    [tagName] and [classList] as any value. *)
Record BlockProps : Type := {
  test : option (Node -> Settings -> bool);
  tagName : jsval;
  classList : jsval;
}.

(** A child of the renderer: a valid element with its props, or
    anything else. *)
Inductive ReactNode : Type :=
| Element (props : BlockProps)
| Other.

(** [isBlock(domNode, { tagName, className })] of the dom helpers, not
    part of the sources at hand. *)
Variable isBlock : Node -> string -> JSON -> bool.

(** [shouldReplaceWithBlock(block, domNode, site)] *)
Definition shouldReplaceWithBlock (block : ReactNode) (domNode : Node) (site : Settings)
    : bool :=
  match block with
  | Other => false
  | Element props =>
      match test props with
      | Some testFn => testFn domNode site
      | None =>
          match tagName props, classList props with
          | Some (JStr tag), Some className => isBlock domNode tag className
          | _, _ => false
          end
      end
  end.

(** The callback of [findIndex] in [BlocksRenderer]: whether a child is
    an invalid component. *)
Definition invalid (block : ReactNode) : bool :=
  match block with
  | Other => true
  | Element props =>
      match test props with
      | Some _ => false
      | None =>
          match tagName props, classList props with
          | Some _, Some _ => false
          | _, _ => true
          end
      end
  end.

(** [hasInvalidComponent] *)
Definition hasInvalidComponent (blocks : list ReactNode) : bool :=
  existsb invalid blocks.

(** The block whose element [replace] answers for a node: each matching
    block overwrites [component], so the last one stays. *)
Definition replacing (blocks : list ReactNode) (domNode : Node) (site : Settings)
    : option ReactNode :=
  foldl (fun component block =>
           if shouldReplaceWithBlock block domNode site then Some block else component)
    None blocks.

End blocks.
End BlocksRenderer.

(** ** More doubles in the manner of the tests *)

Module Doubles.

Definition taxonomies : TaxonomyUtils :=
  fun taxonomy _ =>
    match taxonomy with
    | JStr slug =>
        List.find (fun t => String.eqb (tax_slug t) slug) [Sample.category; Sample.post_tag]
    | _ => None
    end.

(** A serializer that shows the url and the token of the args. *)
Definition swr : Swr :=
  fun url args => url +:+ "#" +:+ template (args !! "authToken").

(** The archive strategy behind the interface of [fetchHookData], with a
    parser that takes the whole path for the slug. *)
Definition archive (net : Network) : HookData.FetchStrategy :=
  let base := @spec_base net Sample.utils Base.shape_fields in
  {| HookData.fs_getParamsFromURL := fun this path _ => (this, {[ "slug" := JStr path ]});
     HookData.fs_getEndpoint := endpoint;
     HookData.fs_buildEndpointURL := @PostsArchiveFetchStrategy.buildEndpointURL Sample.utils base;
     HookData.fs_fetcher := fun this url params options =>
       @PostsArchiveFetchStrategy.fetcher net Sample.utils base this url params
         (default ∅ options);
     HookData.fs_getQueriedObject := fun _ _ _ => None;
     HookData.fs_filterData := fun _ data options => @super_filterData base data options |}.

Definition preview : HookData.Context :=
  {| HookData.ctx_params := Some (Some (HookData.PathArray ["hello-preview=true"]));
     HookData.ctx_preview := true;
     HookData.ctx_previewData :=
       Some {| HookData.pd_id := JNum 10; HookData.pd_postType := JStr "book";
               HookData.pd_revision := JBool true; HookData.pd_authToken := JStr "t" |};
     HookData.ctx_req_url := None |}.

Definition no_options : HookData.FetchHookDataOptions :=
  {| HookData.opt_params := None; HookData.opt_filterData := None;
     HookData.opt_fetchStrategyOptions := None |}.

(** A hook state whose result is two posts that carry SEO data. *)
Definition seo_post (id : Z) (title : string) : JSON :=
  JObj [("id", JNum id); ("yoast_head", JStr "<title/>");
        ("yoast_head_json", JObj [("title", JStr title)])].

Definition posts_state : HookData.HookState :=
  {| HookData.hs_key := "posts";
     HookData.hs_data :=
       Base.envelope ∅ (Response [] (JArr [seo_post 1 "one"; seo_post 2 "two"])) |}.

(** A request whose method is GET and is not overridden. *)
Definition get_request : PreviewToken.Server :=
  {| PreviewToken.REQUEST_METHOD := Some "GET"; PreviewToken.GET_method := None;
     PreviewToken.HTTP_X_HTTP_METHOD_OVERRIDE := None |}.

(** [==] as PHP 8 has it on the values that occur here: equal values of
    one type, or a number and its numeral. *)
Definition php8 : PhpLoose :=
  fun a b =>
    match a, b with
    | PInt n, PStr s | PStr s, PInt n => String.eqb (pretty n) s
    | _, _ => PreviewToken.identical a b
    end.

End Doubles.

(** * Properties *)

(** ** The monad *)

Ltac fetch_unfold :=
  unfold mbind, mret, Fetch_bind, Fetch_ret, bind, ret, throw, lift, try_catch in *.

Lemma bind_run {A B : Type} (m : Fetch A) (k : A -> Fetch B) (tr : trace) :
  (x ← m; k x) tr =
  match m tr with
  | (tr', inl e) => (tr', inl e)
  | (tr', inr a) => k a tr'
  end.
Proof. reflexivity. Qed.

Lemma bind_assoc_run {A B C : Type} (m : Fetch A) (f : A -> Fetch B) (g : B -> Fetch C)
    (tr : trace) :
  (y ← (x ← m; f x); g y) tr = (x ← m; y ← f x; g y) tr.
Proof. fetch_unfold. destruct (m tr) as [tr' [e | a]]; reflexivity. Qed.

Lemma apiGet_run `{Network, Utils} (url : string) (args : list (string * string))
    (tr : trace) :
  apiGet url args tr =
  ((tr ++ [Request url args])%list,
   match fetch tr (served (Request url args)) with
   | inl reason => inl (FetchError reason)
   | inr data => inr data
   end).
Proof. reflexivity. Qed.

(** The callbacks of [asyncForEach] run in the order of the array: a
    prefix of the array is run first, and a rejection stops the rest. *)
Lemma asyncForEach_app {A S : Type} (l1 l2 : list A) (cb : S -> A -> Fetch S) (s : S)
    (tr : trace) :
  asyncForEach (l1 ++ l2) cb s tr =
  match asyncForEach l1 cb s tr with
  | (tr1, inl e) => (tr1, inl e)
  | (tr1, inr s1) => asyncForEach l2 cb s1 tr1
  end.
Proof.
  revert s tr. induction l1 as [| x l1 IH]; intros s tr; [reflexivity |].
  cbn [asyncForEach app]. rewrite !bind_run.
  destruct (cb s x tr) as [tr' [e | s']]; [reflexivity | apply IH].
Qed.

(** ** TaxonomyTermsStrategy.getParamsFromURL *)

(** C7.  The taxonomy-terms strategy derives no parameter from the url:
    [getParamsFromURL] answers the empty parameter set for every path and
    every params argument, so the parameters of a request are the ones
    the caller supplied (with the default [_embed]), whatever the path. *)
Theorem taxonomy_terms_params_from_url_empty
    (path : string) (params : option EndpointParams) (supplied : EndpointParams) :
  TaxonomyTermsStrategy.getParamsFromURL path params = ∅ ∧
  finalParams (TaxonomyTermsStrategy.getParamsFromURL path params) supplied
  = supplied ∪ {[ "_embed" := JBool true ]}.
Proof.
  split; [reflexivity |].
  unfold finalParams, TaxonomyTermsStrategy.getParamsFromURL.
  by rewrite (right_id_L ∅ (∪)).
Qed.

(** ** throwIfNotFound in the search and taxonomy-terms strategies *)

(** C9.  Both strategies call the base fetch with [throwIfNotFound] set to
    false.  The taxonomy-terms fetcher passes the options of the caller
    with [throwIfNotFound] overwritten, whatever the caller gave for it;
    the search fetcher ignores the options of the caller altogether: a
    third argument changes nothing, and the base fetch receives exactly
    [{ throwIfNotFound: false }]. *)
Theorem fetchers_disable_throwIfNotFound `{Network, Utils, AbstractFetchStrategy}
    (this : Strategy) (url : string) (params : EndpointParams) :
  (∀ options : option FetchOptions,
      ∃ passed : FetchOptions,
        passed !! "throwIfNotFound" = Some (JBool false) ∧
        (∀ k, k ≠ "throwIfNotFound" → passed !! k = default ∅ options !! k) ∧
        TaxonomyTermsStrategy.fetcher this url params options
        = super_fetcher this url params passed) ∧
  (∀ (options : option FetchOptions) (tr : trace),
      SearchFetchStrategy.fetcher_called_with this url params options tr
      = ('(seo, seo_json) ← SearchFetchStrategy.fetchSeo params;
         finalUrl ← PostsArchiveFetchStrategy.resolve this url params;
         response ← super_fetcher this finalUrl params {[ "throwIfNotFound" := JBool false ]};
         mret (SearchFetchStrategy.with_queriedObject response
                 (SearchFetchStrategy.searchObject params seo seo_json))) tr).
Proof.
  split.
  - intros options.
    exists (<[ "throwIfNotFound" := JBool false ]> (default ∅ options)).
    split; [apply lookup_insert_eq |].
    split; [| reflexivity].
    intros k Hk. by rewrite lookup_insert_ne.
  - intros options tr.
    unfold SearchFetchStrategy.fetcher_called_with, SearchFetchStrategy.fetcher,
      PostsArchiveFetchStrategy.fetcher.
    rewrite !bind_run.
    destruct (SearchFetchStrategy.fetchSeo params tr) as [tr1 [e | [seo seo_json]]];
      [reflexivity |].
    apply bind_assoc_run.
Qed.

(** ** SearchFetchStrategy.fetcher: the SEO side-fetch and the descriptor *)

(** The side-fetch makes one call and never rejects. *)
Lemma fetchSeo_total `{Network, Utils} (params : EndpointParams) (tr : trace) :
  ∃ v, SearchFetchStrategy.fetchSeo params tr
       = ((tr ++ [Request (SearchFetchStrategy.seoUrl params) []])%list, inr v).
Proof.
  unfold SearchFetchStrategy.fetchSeo. fetch_unfold. rewrite apiGet_run.
  destruct (fetch tr _) as [reason | data]; [by eexists |].
  destruct (get_prop "html" (Some (json data))) as [e | html]; [by eexists |].
  destruct (get_prop "json" (Some (json data))) as [e | seo_json]; by eexists.
Qed.

(** A failed side-fetch leaves [seo] and [seo_json] at their initial
    values. *)
Lemma fetchSeo_failure `{Network, Utils} (params : EndpointParams) (tr : trace)
    (reason : string) :
  fetch tr (served (Request (SearchFetchStrategy.seoUrl params) [])) = inl reason →
  SearchFetchStrategy.fetchSeo params tr
  = ((tr ++ [Request (SearchFetchStrategy.seoUrl params) []])%list,
     inr (Some (JStr EmptyString), [])).
Proof.
  intros Hfail. unfold SearchFetchStrategy.fetchSeo. fetch_unfold.
  rewrite apiGet_run, Hfail. reflexivity.
Qed.

(** The search fetcher is the side-fetch followed by the archive fetcher,
    whose response gets the descriptor. *)
Lemma search_fetcher_run `{Network, Utils, AbstractFetchStrategy}
    (this : Strategy) (url : string) (params : EndpointParams) (tr : trace) :
  ∃ seo seo_json,
    SearchFetchStrategy.fetchSeo params tr
    = ((tr ++ [Request (SearchFetchStrategy.seoUrl params) []])%list, inr (seo, seo_json)) ∧
    SearchFetchStrategy.fetcher this url params tr
    = match PostsArchiveFetchStrategy.fetcher this url params
              {[ "throwIfNotFound" := JBool false ]}
              (tr ++ [Request (SearchFetchStrategy.seoUrl params) []])%list with
      | (tr', inl e) => (tr', inl e)
      | (tr', inr response) =>
          (tr', inr (SearchFetchStrategy.with_queriedObject response
                       (SearchFetchStrategy.searchObject params seo seo_json)))
      end.
Proof.
  destruct (fetchSeo_total params tr) as [[seo seo_json] Hseo].
  exists seo, seo_json. split; [exact Hseo |].
  unfold SearchFetchStrategy.fetcher. rewrite bind_run, Hseo, bind_run.
  destruct (PostsArchiveFetchStrategy.fetcher _ _ _ _ _) as [tr' [e | response]];
    reflexivity.
Qed.

(** C10.  Every response of the search fetcher carries the search
    descriptor: its type is post; the searched value is the empty string
    when [params.search] is absent; the subtype is post when
    [params.postType] is absent; and when the SEO side-fetch fails,
    [yoast_head] is the empty string and [yoast_head_json] the empty
    object.  Nothing is assumed of the result, so an empty result set
    carries the descriptor too. *)
Theorem search_response_carries_descriptor `{Network, Utils, AbstractFetchStrategy}
    (this : Strategy) (url : string) (params : EndpointParams)
    (tr tr' : trace) (r : FetchResponse) :
  SearchFetchStrategy.fetcher this url params tr = (tr', inr r) →
  ∃ s : SearchEntity,
    queriedObject r = Some {| search := Some s; author := None; term := None |} ∧
    type s = "post" ∧
    (params !! "search" = None → searchedValue s = JStr EmptyString) ∧
    (params !! "postType" = None → subtype s = JStr "post") ∧
    (∀ reason,
        fetch tr (served (Request (SearchFetchStrategy.seoUrl params) [])) = inl reason →
        yoast_head s = Some (JStr EmptyString) ∧ yoast_head_json s = []).
Proof.
  intros Hrun.
  destruct (search_fetcher_run this url params tr) as (seo & seo_json & Hseo & Hfetch).
  rewrite Hfetch in Hrun.
  destruct (PostsArchiveFetchStrategy.fetcher _ _ _ _ _) as [tr1 [e | response]];
    [discriminate |].
  injection Hrun as _ <-.
  eexists. split; [reflexivity |]. cbn.
  split; [reflexivity |].
  split; [intros ->; reflexivity |].
  split; [intros ->; reflexivity |].
  intros reason Hfail.
  rewrite (fetchSeo_failure params tr reason Hfail) in Hseo.
  injection Hseo as <- <-. by split.
Qed.

Lemma search_response_carries_descriptor_witness :
  let base := @spec_base Sample.nothing_found Sample.utils Base.shape_fields in
  let params : EndpointParams := {[ "search" := JStr "zzz" ]} in
  ∃ tr' r,
    @SearchFetchStrategy.fetcher Sample.nothing_found Sample.utils base
      Sample.this "/wp-json/wp/v2/posts?search=zzz" params [] = (tr', inr r) ∧
    result r = JArr [] ∧
    ∃ s : SearchEntity,
      queriedObject r = Some {| search := Some s; author := None; term := None |} ∧
      type s = "post" ∧
      (params !! "search" = None → searchedValue s = JStr EmptyString) ∧
      (params !! "postType" = None → subtype s = JStr "post") ∧
      (∀ reason,
          @fetch Sample.nothing_found []
            (@served Sample.utils
               (Request (@SearchFetchStrategy.seoUrl Sample.utils params) [])) = inl reason →
          yoast_head s = Some (JStr EmptyString) ∧ yoast_head_json s = []).
Proof.
  intros base params.
  eexists _, _. split; [vm_compute; reflexivity |]. split; [reflexivity |].
  eapply (@search_response_carries_descriptor Sample.nothing_found Sample.utils base
            Sample.this "/wp-json/wp/v2/posts?search=zzz" params []).
  vm_compute; reflexivity.
Defined.

(** ** PostsArchiveFetchStrategy.buildEndpointURL: unregistered post types *)

(** C3.  A parameter set whose [postType] is set and names no registered
    post type makes [buildEndpointURL] throw the configuration error that
    names the missing registration in headless.config.js; the strategy is
    left as it was, and the request ends there: the fetcher is not
    called, so the log of network calls is unchanged.  The search
    strategy inherits the method and behaves alike. *)
Theorem unregistered_post_type_config_error `{Network, Utils, AbstractFetchStrategy}
    (this : Strategy) (params : EndpointParams) (postType : JSON)
    (options : FetchOptions) (tr : trace) :
  params !! "postType" = Some postType →
  truthy (Some postType) = true →
  getCustomPostType postType = None →
  PostsArchiveFetchStrategy.buildEndpointURL this params
  = (this, inl (ConfigError unknown_post_type)) ∧
  fetch_built PostsArchiveFetchStrategy.buildEndpointURL
    PostsArchiveFetchStrategy.fetcher this params options tr
  = (tr, inl (ConfigError unknown_post_type)) ∧
  fetch_built PostsArchiveFetchStrategy.buildEndpointURL
    (fun this url params options =>
       SearchFetchStrategy.fetcher_called_with this url params (Some options))
    this params options tr
  = (tr, inl (ConfigError unknown_post_type)).
Proof.
  intros Hpt Htruthy Hunregistered.
  assert (Hbuild : PostsArchiveFetchStrategy.buildEndpointURL this params
                   = (this, inl (ConfigError unknown_post_type))).
  { unfold PostsArchiveFetchStrategy.buildEndpointURL.
    rewrite Hpt, Htruthy. cbn [from_option]. unfold id.
    rewrite Hunregistered. reflexivity. }
  split; [exact Hbuild |].
  unfold fetch_built. rewrite Hbuild. by split.
Qed.

Lemma unregistered_post_type_config_error_witness :
  let base := @spec_base Sample.books_empty Sample.utils Base.shape_fields in
  let params : EndpointParams := {[ "postType" := JStr "unknown" ]} in
  @PostsArchiveFetchStrategy.buildEndpointURL Sample.utils base Sample.this params
  = (Sample.this, inl (ConfigError unknown_post_type)) ∧
  fetch_built (@PostsArchiveFetchStrategy.buildEndpointURL Sample.utils base)
    (@PostsArchiveFetchStrategy.fetcher Sample.books_empty Sample.utils base)
    Sample.this params ∅ []
  = ([], inl (ConfigError unknown_post_type)) ∧
  fetch_built (@PostsArchiveFetchStrategy.buildEndpointURL Sample.utils base)
    (fun this url params options =>
       @SearchFetchStrategy.fetcher_called_with Sample.books_empty Sample.utils base
         this url params (Some options))
    Sample.this params ∅ []
  = ([], inl (ConfigError unknown_post_type)).
Proof.
  intros base params.
  apply (@unregistered_post_type_config_error Sample.books_empty Sample.utils base
           Sample.this params (JStr "unknown") ∅ []); reflexivity.
Defined.

(** The same holds of the single-item strategy as the specification
    describes it, for a single [postType] and for the first entry of an
    array. *)
Lemma single_post_unregistered_post_type `{Network, Utils}
    (path : string) (this : Strategy) (params : EndpointParams) (postType : JSON)
    (options : FetchOptions) (tr : trace) :
  (params !! "postType" = Some postType ∧ (∀ items, postType ≠ JArr items) ∨
   ∃ rest, params !! "postType" = Some (JArr (postType :: rest))) →
  getCustomPostType postType = None →
  fetch_built (fun this params => (this, SinglePostFetchStrategy.buildEndpointURL this params))
    (SinglePostFetchStrategy.fetcher path) this params options tr
  = (tr, inl (ConfigError unknown_post_type)).
Proof.
  intros Hpt Hunregistered. unfold fetch_built, SinglePostFetchStrategy.buildEndpointURL.
  destruct Hpt as [[-> Hno] | [rest ->]].
  - destruct postType; try (rewrite Hunregistered; reflexivity).
    by destruct (Hno items).
  - cbn [head]. rewrite Hunregistered. reflexivity.
Qed.

(** ** PostsArchiveFetchStrategy.fetcher: the lookup of a taxonomy term *)

(** One taxonomy whose param is set, without the plugin: the lookup call
    and what follows from its answer. *)
Lemma resolveTaxonomy_lookup `{Network, Utils}
    (this : Strategy) (params : EndpointParams) (finalUrl : string)
    (taxonomy : CustomTaxonomy) (value : JSON) (tr : trace) :
  truthy (JBool <$> useWordPressPlugin getHeadlessConfig) = false →
  params !! default (tax_slug taxonomy) (tax_rewrite taxonomy) = Some value →
  truthy (Some value) = true →
  PostsArchiveFetchStrategy.resolveTaxonomy this params finalUrl taxonomy tr
  = (terms ← apiGet (baseURL this +:+ tax_endpoint taxonomy +:+ "?slug="
                     +:+ to_string value) [];
     len ← lift (get_prop "length" (Some (json terms)));
     if gt_zero len then
       id ← lift (get_prop "id" (index0 (json terms)));
       mret (addQueryArgs finalUrl [(default (tax_slug taxonomy) (tax_restParam taxonomy), id)])
     else
       throw (NotFoundError ("Term " +:+ dquote +:+ to_string value +:+ dquote
                +:+ " from " +:+ dquote +:+ tax_slug taxonomy +:+ dquote
                +:+ " has not been found"))) tr.
Proof.
  intros Hplugin Hparam Htruthy. unfold PostsArchiveFetchStrategy.resolveTaxonomy.
  rewrite Hparam, Htruthy, Hplugin. reflexivity.
Qed.

(** C2.  Let a registered taxonomy have its param set in [params], and
    let the plugin flag be unset.  Once the taxonomies registered before
    it are resolved, the fetcher calls the term endpoint of the taxonomy
    with [?slug=] and the value of the param, before anything else:
    - if the answer has no match, the fetcher rejects with the
      NotFoundError whose message quotes the term slug and the slug of
      the taxonomy, and no further call is made;
    - if the first match has a numeric id, the id is added to the url
      under the REST param of the taxonomy, and the remaining steps, the
      primary fetch among them, run after the lookup with that url. *)
Theorem taxonomy_term_lookup `{Network, Utils, AbstractFetchStrategy}
    (this : Strategy) (url : string) (params : EndpointParams) (options : FetchOptions)
    (before after : list CustomTaxonomy) (taxonomy : CustomTaxonomy) (value : JSON)
    (tr tr1 : trace) (url1 : string) :
  getCustomTaxonomies = Some (before ++ taxonomy :: after)%list →
  truthy (JBool <$> useWordPressPlugin getHeadlessConfig) = false →
  params !! default (tax_slug taxonomy) (tax_rewrite taxonomy) = Some value →
  truthy (Some value) = true →
  asyncForEach before (PostsArchiveFetchStrategy.resolveTaxonomy this params) url tr
  = (tr1, inr url1) →
  let lookup :=
    Request (baseURL this +:+ tax_endpoint taxonomy +:+ "?slug=" +:+ to_string value) [] in
  let restParam := default (tax_slug taxonomy) (tax_restParam taxonomy) in
  (∀ hs,
      fetch tr1 (served lookup) = inr (Response hs (JArr [])) →
      PostsArchiveFetchStrategy.fetcher this url params options tr
      = ((tr1 ++ [lookup])%list,
         inl (NotFoundError ("Term " +:+ dquote +:+ to_string value +:+ dquote
                +:+ " from " +:+ dquote +:+ tax_slug taxonomy +:+ dquote
                +:+ " has not been found")))) ∧
  (∀ hs first rest id,
      fetch tr1 (served lookup) = inr (Response hs (JArr (JObj first :: rest))) →
      assoc "id" first = Some (JNum id) →
      PostsArchiveFetchStrategy.fetcher this url params options tr
      = (finalUrl ← asyncForEach after
                      (PostsArchiveFetchStrategy.resolveTaxonomy this params)
                      (addQueryArgs url1 [(restParam, Some (JNum id))]);
         finalUrl ← PostsArchiveFetchStrategy.resolveAuthor this params finalUrl;
         super_fetcher this finalUrl params options) (tr1 ++ [lookup])%list).
Proof.
  intros Htaxonomies Hplugin Hparam Htruthy Hbefore lookup restParam.
  assert (Hrun : ∀ k : string -> Fetch FetchResponse,
            (finalUrl ← PostsArchiveFetchStrategy.resolve this url params; k finalUrl) tr
            = (u ← PostsArchiveFetchStrategy.resolveTaxonomy this params url1 taxonomy;
               finalUrl ← asyncForEach after
                            (PostsArchiveFetchStrategy.resolveTaxonomy this params) u;
               finalUrl ← PostsArchiveFetchStrategy.resolveAuthor this params finalUrl;
               k finalUrl) tr1).
  { intros k. unfold PostsArchiveFetchStrategy.resolve. rewrite Htaxonomies.
    rewrite !bind_run, asyncForEach_app, Hbefore. cbn [asyncForEach].
    rewrite !bind_run.
    destruct (PostsArchiveFetchStrategy.resolveTaxonomy this params url1 taxonomy tr1)
      as [tr2 [e | u]]; [reflexivity |].
    rewrite !bind_run.
    destruct (asyncForEach after _ u tr2) as [tr3 [e | u']]; reflexivity. }
  unfold PostsArchiveFetchStrategy.fetcher. rewrite Hrun. clear Hrun.
  rewrite bind_run, (resolveTaxonomy_lookup _ _ _ _ value) by assumption.
  rewrite bind_run, apiGet_run. fold lookup.
  split.
  - intros hs ->. reflexivity.
  - intros hs first rest id -> Hid. fetch_unfold. cbn. rewrite Hid. reflexivity.
Qed.

Lemma taxonomy_term_lookup_witness :
  let params : EndpointParams := {[ "category" := JStr "news" ]} in
  let url := "/wp-json/wp/v2/posts" in
  let lookup := Request "/wp-json/wp/v2/categories?slug=news" [] in
  @PostsArchiveFetchStrategy.fetcher Sample.no_news Sample.utils
    (@spec_base Sample.no_news Sample.utils Base.shape_fields) Sample.this url params ∅ []
  = ([lookup],
     inl (NotFoundError ("Term " +:+ dquote +:+ "news" +:+ dquote +:+ " from " +:+ dquote
                         +:+ "category" +:+ dquote +:+ " has not been found"))) ∧
  @PostsArchiveFetchStrategy.fetcher Sample.news Sample.utils
    (@spec_base Sample.news Sample.utils Base.shape_fields) Sample.this url params ∅ []
  = ([lookup; Request "/wp-json/wp/v2/posts?categories=7" []],
     inr (Base.envelope params
            (Response [] (JArr [JObj [("id", JNum 1)]; JObj [("id", JNum 2)]])))).
Proof.
  intros params url lookup. split.
  - destruct (@taxonomy_term_lookup Sample.no_news Sample.utils
                (@spec_base Sample.no_news Sample.utils Base.shape_fields)
                Sample.this url params ∅ [] [Sample.post_tag] Sample.category
                (JStr "news") [] [] url eq_refl eq_refl eq_refl eq_refl eq_refl)
      as [Hzero _].
    exact (Hzero [] eq_refl).
  - destruct (@taxonomy_term_lookup Sample.news Sample.utils
                (@spec_base Sample.news Sample.utils Base.shape_fields)
                Sample.this url params ∅ [] [Sample.post_tag] Sample.category
                (JStr "news") [] [] url eq_refl eq_refl eq_refl eq_refl eq_refl)
      as [_ Hsome].
    rewrite (Hsome [] [("id", JNum 7); ("slug", JStr "news")] [] 7 eq_refl eq_refl).
    vm_compute. reflexivity.
Defined.

(** ** SearchFetchStrategy.fetcher: zero results and the SEO side-fetch *)

(** With [throwIfNotFound] false the base fetch of the specification is
    one call that rejects only when the network does. *)
Lemma base_fetcher_without_throw `{Network, Utils}
    (this : Strategy) (url : string) (params : EndpointParams) (tr : trace) :
  Base.fetcher this url params {[ "throwIfNotFound" := JBool false ]} tr
  = ((tr ++ [Request (baseURL this +:+ url) (Base.auth_args params)])%list,
     match fetch tr (served (Request (baseURL this +:+ url) (Base.auth_args params))) with
     | inl reason => inl (FetchError reason)
     | inr data => inr (Base.envelope params data)
     end).
Proof.
  unfold Base.fetcher. rewrite bind_run, apiGet_run.
  destruct (fetch tr _) as [reason | data]; [reflexivity |].
  unfold Base.throwIfNotFound. rewrite lookup_singleton_eq. reflexivity.
Qed.

(** C4.  The search fetcher over the base fetch of the specification.
    Write [tr0] for the log after the SEO side-fetch.
    - When the lookups of the archive strategy have resolved the url and
      the backend answers the search with an empty array, the fetcher
      resolves to an envelope whose result is the empty array and that
      carries the search descriptor.
    - A NotFoundError of the search fetcher never comes from the search
      itself: it is the one the lookup of a term or of an author threw.
    - When the SEO side-fetch fails, the failure is not surfaced: the
      fetcher goes on as the archive fetcher does, and its response
      carries the empty string and the empty object as SEO fields. *)
Theorem search_zero_results_succeed `{Network, Utils}
    (required : list string) (this : Strategy) (url : string) (params : EndpointParams)
    (tr : trace) :
  let base := spec_base required in
  let tr0 := (tr ++ [Request (SearchFetchStrategy.seoUrl params) []])%list in
  (∀ tr1 finalUrl hs,
      PostsArchiveFetchStrategy.resolve this url params tr0 = (tr1, inr finalUrl) →
      fetch tr1 (served (Request (baseURL this +:+ finalUrl) (Base.auth_args params)))
      = inr (Response hs (JArr [])) →
      ∃ r, SearchFetchStrategy.fetcher this url params tr
           = ((tr1 ++ [Request (baseURL this +:+ finalUrl) (Base.auth_args params)])%list,
              inr r) ∧
           result r = JArr [] ∧
           ∃ s, queriedObject r = Some {| search := Some s; author := None; term := None |}) ∧
  (∀ tr' message,
      SearchFetchStrategy.fetcher this url params tr = (tr', inl (NotFoundError message)) →
      PostsArchiveFetchStrategy.resolve this url params tr0
      = (tr', inl (NotFoundError message))) ∧
  (∀ reason,
      fetch tr (served (Request (SearchFetchStrategy.seoUrl params) [])) = inl reason →
      SearchFetchStrategy.fetcher this url params tr
      = (response ← PostsArchiveFetchStrategy.fetcher this url params
                      {[ "throwIfNotFound" := JBool false ]};
         mret (SearchFetchStrategy.with_queriedObject response
                 (SearchFetchStrategy.searchObject params (Some (JStr EmptyString)) [])))
          tr0).
Proof.
  intros base tr0.
  destruct (search_fetcher_run this url params tr) as (seo & seo_json & Hseo & Hfetch).
  fold tr0 in Hseo, Hfetch.
  assert (Harchive : PostsArchiveFetchStrategy.fetcher this url params
                       {[ "throwIfNotFound" := JBool false ]} tr0
                     = match PostsArchiveFetchStrategy.resolve this url params tr0 with
                       | (tr1, inl e) => (tr1, inl e)
                       | (tr1, inr finalUrl) =>
                           Base.fetcher this finalUrl params
                             {[ "throwIfNotFound" := JBool false ]} tr1
                       end) by reflexivity.
  split; [| split].
  - intros tr1 finalUrl hs Hresolve Hempty.
    rewrite Hfetch, Harchive, Hresolve, base_fetcher_without_throw, Hempty.
    eexists. split; [reflexivity |]. split; [reflexivity |]. by eexists.
  - intros tr' message. rewrite Hfetch, Harchive.
    destruct (PostsArchiveFetchStrategy.resolve this url params tr0)
      as [tr1 [e | finalUrl]]; [by intros [= -> ->] |].
    rewrite base_fetcher_without_throw.
    destruct (fetch tr1 _) as [reason | data]; discriminate.
  - intros reason Hfail. rewrite bind_run.
    rewrite (fetchSeo_failure params tr reason Hfail) in Hseo.
    injection Hseo as <- <-. exact Hfetch.
Qed.

Lemma search_zero_results_succeed_witness :
  let params : EndpointParams := {[ "search" := JStr "zzz" ]} in
  let seo := Request "/wp-json/yoast/v1/get_head?url=/?s=zzz" [] in
  let primary := Request "/wp-json/wp/v2/posts?search=zzz" [] in
  ∃ r, @SearchFetchStrategy.fetcher Sample.nothing_found Sample.utils
         (@spec_base Sample.nothing_found Sample.utils Base.shape_fields)
         Sample.this "/wp-json/wp/v2/posts?search=zzz" params []
       = ([seo; primary], inr r) ∧
       result r = JArr [] ∧
       ∃ s, queriedObject r = Some {| search := Some s; author := None; term := None |}.
Proof.
  intros params seo primary.
  destruct (@search_zero_results_succeed Sample.nothing_found Sample.utils
              Base.shape_fields Sample.this "/wp-json/wp/v2/posts?search=zzz" params [])
    as [Hzero _].
  exact (Hzero [seo] "/wp-json/wp/v2/posts?search=zzz" [] eq_refl eq_refl).
Defined.

(** ** The response filter *)

Lemma filter_idempotent {A : Type} (f : A -> bool) (l : list A) :
  List.filter f (List.filter f l) = List.filter f l.
Proof.
  induction l as [| x l IH]; [reflexivity |].
  cbn [List.filter]. destruct (f x) eqn:Hfx; [| exact IH].
  cbn [List.filter]. rewrite Hfx. by f_equal.
Qed.

Lemma project_idempotent (keep : string -> bool) (record : JSON) :
  Base.project keep (Base.project keep record) = Base.project keep record.
Proof.
  destruct record; try reflexivity.
  cbn [Base.project]. f_equal. apply filter_idempotent.
Qed.

Lemma on_result_idempotent (keep : string -> bool) (data : JSON) :
  Base.on_result keep (Base.on_result keep data) = Base.on_result keep data.
Proof.
  destruct data; try reflexivity.
  - cbn [Base.on_result]. f_equal.
    induction items as [| x items IH]; [reflexivity |].
    cbn [fmap list_fmap]. f_equal; [apply project_idempotent | exact IH].
  - cbn [Base.on_result Base.project]. f_equal. apply filter_idempotent.
Qed.

(** C8.  The response filter is idempotent.  For every envelope, single
    item or array, and every options value, the absent one included
    (which strips [_links]), filtering twice is filtering once: the base
    filter of the specification, whatever the required shape fields are,
    and the filter of the taxonomy-terms strategy over it. *)
Theorem filterData_idempotent `{Network, Utils}
    (required : list string) (data : FetchResponse)
    (filterOptions : option FilterDataOptions) :
  Base.filterData required (Base.filterData required data filterOptions) filterOptions
  = Base.filterData required data filterOptions ∧
  @TaxonomyTermsStrategy.filterData (spec_base required) spec_filter
    (@TaxonomyTermsStrategy.filterData (spec_base required) spec_filter data filterOptions)
    filterOptions
  = @TaxonomyTermsStrategy.filterData (spec_base required) spec_filter data filterOptions.
Proof.
  split.
  - unfold Base.filterData. cbn. f_equal. apply on_result_idempotent.
  - destruct filterOptions as [o |]; cbn.
    + unfold Base.filterData. cbn. f_equal. apply on_result_idempotent.
    + f_equal. apply on_result_idempotent.
Qed.

(** The filters at work on an array of two terms. *)
Example filterData_sample :
  let term (id : Z) :=
    JObj [("id", JNum id); ("name", JStr "news"); ("_links", JObj [])] in
  let data := Base.envelope ∅ (Response [] (JArr [term 1; term 2])) in
  result (@TaxonomyTermsStrategy.filterData
            (@spec_base Sample.news Sample.utils Base.shape_fields) spec_filter data None)
  = JArr [JObj [("id", JNum 1); ("name", JStr "news")];
          JObj [("id", JNum 2); ("name", JStr "news")]] ∧
  result (Base.filterData Base.shape_fields data
            (Some {| method := ALLOW; fields := ["name"] |}))
  = JArr [JObj [("id", JNum 1); ("name", JStr "news")];
          JObj [("id", JNum 2); ("name", JStr "news")]] ∧
  result (Base.filterData Base.shape_fields data
            (Some {| method := DENY; fields := ["name"; "id"] |}))
  = JArr [JObj [("_links", JObj [])]; JObj [("_links", JObj [])]].
Proof. repeat split; vm_compute; reflexivity. Qed.

(** ** The single-post strategy: parameters from the url *)

Lemma append_cons (c : ascii) (s t : string) : String c s +:+ t = String c (s +:+ t).
Proof. reflexivity. Qed.

Lemma append_empty_l (t : string) : EmptyString +:+ t = t.
Proof. reflexivity. Qed.

Lemma append_empty_r (s : string) : s +:+ EmptyString = s.
Proof. induction s as [| c s IH]; [reflexivity |]. by rewrite append_cons, IH. Qed.

Lemma components_not_nil (s : string) : PathMatcher.components s ≠ [].
Proof.
  induction s as [| c s IH]; [discriminate |].
  cbn. destruct (Ascii.eqb c "/"); [discriminate |].
  destruct (PathMatcher.components s); [done | discriminate].
Qed.

(** A segment in front of a string extends its first component. *)
Lemma components_segment (s t : string) :
  PathMatcher.has_slash s = false →
  PathMatcher.components (s +:+ t)
  = match PathMatcher.components t with
    | x :: xs => (s +:+ x) :: xs
    | [] => [s]
    end.
Proof.
  induction s as [| c s IH]; intros Hs.
  - rewrite append_empty_l. destruct (PathMatcher.components t) eqn:Ht; [| reflexivity].
    by destruct (components_not_nil t).
  - cbn in Hs. apply orb_false_iff in Hs as [Hc Hs].
    rewrite append_cons. cbn [PathMatcher.components]. rewrite Hc, (IH Hs).
    destruct (PathMatcher.components t); reflexivity.
Qed.

Lemma components_path_of (segments : list string) :
  Forall (fun s => PathMatcher.is_segment s = true) segments →
  PathMatcher.components (PathMatcher.path_of segments) = EmptyString :: segments.
Proof.
  induction 1 as [| seg rest Hseg _ IH]; [reflexivity |].
  apply andb_true_iff in Hseg as [_ Hslash]. apply negb_true_iff in Hslash.
  cbn [PathMatcher.path_of]. rewrite append_cons, append_empty_l.
  cbn [PathMatcher.components]. change (Ascii.eqb "/" "/") with true. cbn iota.
  rewrite (components_segment _ _ Hslash), IH.
  by rewrite append_empty_r.
Qed.

(** The segments of a path are the ones it was made of. *)
Lemma split_path_path_of (segments : list string) :
  Forall (fun s => PathMatcher.is_segment s = true) segments →
  PathMatcher.split_path (PathMatcher.path_of segments) = segments.
Proof.
  intros Hsegs. unfold PathMatcher.split_path. rewrite (components_path_of _ Hsegs).
  cbn. induction Hsegs as [| seg rest Hseg _ IH]; [reflexivity |].
  apply andb_true_iff in Hseg as [Hne _].
  cbn [List.filter]. rewrite Hne. by f_equal.
Qed.

(** C6.  A path made of an optional date prefix (a year, a year and a
    month, or a year, a month and a day), an optional parent and a slug
    reduces to exactly the slug: [getParamsFromURL] answers the parameter
    set whose only key is [slug], bound to the last segment as the
    matcher captures it (decoded); the date and the parent leave no
    parameter. *)
Theorem single_post_params_from_url `{UrlDecode}
    (date parent : list string) (slug : string) :
  (length date ≤ 3)%nat →
  (length parent ≤ 1)%nat →
  Forall (fun s => PathMatcher.is_segment s = true) (date ++ parent ++ [slug])%list →
  SinglePostFetchStrategy.getParamsFromURL
    (PathMatcher.path_of (date ++ parent ++ [slug])%list)
  = {[ "slug" := JStr (decodeURIComponent slug) ]}.
Proof.
  intros Hdate Hparent Hsegs.
  unfold SinglePostFetchStrategy.getParamsFromURL, PathMatcher.parsePath.
  rewrite (split_path_path_of _ Hsegs). clear Hsegs.
  destruct date as [| y [| m [| d [| ? ?]]]]; cbn in Hdate; try lia;
    destruct parent as [| p [| ? ?]]; cbn in Hparent; try lia;
    reflexivity.
Qed.

Lemma single_post_params_from_url_witness :
  @SinglePostFetchStrategy.getParamsFromURL Sample.decode "/2021/10/30/parent/post-name"
  = {[ "slug" := JStr "post-name" ]}.
Proof.
  apply (@single_post_params_from_url Sample.decode ["2021"; "10"; "30"] ["parent"]
           "post-name"); [cbn; lia | cbn; lia |].
  repeat constructor.
Defined.

(** The paths of the test of the strategy. *)
Example single_post_params_from_url_tests :
  let parse := @SinglePostFetchStrategy.getParamsFromURL Sample.decode in
  let slug : EndpointParams := {[ "slug" := JStr "post-name" ]} in
  parse "/post-name" = slug ∧ parse "/2021/post-name" = slug ∧
  parse "/2021/10/post-name" = slug ∧ parse "/2021/10/30/post-name" = slug ∧
  parse "/parent/post-name" = slug ∧ parse "/2021/10/30/parent/post-name" = slug.
Proof. repeat split; vm_compute; reflexivity. Qed.

(** ** The single-post strategy: the candidates of an array postType *)

Section single_post_candidates.
Context `{Network, Utils}.
Variables (this : Strategy) (params : EndpointParams) (options : FetchOptions).

#[local] Abbreviation call := (SinglePostFetchStrategy.call_of this params).
#[local] Abbreviation first_found :=
  (SinglePostFetchStrategy.first_found this params options).
#[local] Abbreviation all_empty := SinglePostFetchStrategy.all_empty.

(** One attempt is one call; zero results are [None]. *)
Lemma attempt_run (url : string) (tr : trace) :
  SinglePostFetchStrategy.attempt this url params options tr
  = ((tr ++ [call url])%list,
     match fetch tr (served (call url)) with
     | inl reason => inl (FetchError reason)
     | inr data =>
         inr (if Base.no_results (json data) then None
              else Some (Base.envelope params data))
     end).
Proof.
  unfold SinglePostFetchStrategy.attempt, Base.fetcher.
  rewrite !bind_run, apiGet_run. fold (call url).
  destruct (fetch tr _) as [reason | data]; [reflexivity |].
  unfold Base.throwIfNotFound. rewrite lookup_insert_eq. reflexivity.
Qed.

Lemma first_found_cons (url : string) (urls : list (error + string)) (tr : trace) :
  first_found (inr url :: urls) tr
  = match fetch tr (served (call url)) with
    | inl reason => ((tr ++ [call url])%list, inl (FetchError reason))
    | inr data =>
        if Base.no_results (json data)
        then first_found urls (tr ++ [call url])%list
        else ((tr ++ [call url])%list, inr (Base.envelope params data))
    end.
Proof.
  cbn [SinglePostFetchStrategy.first_found]. fetch_unfold.
  rewrite attempt_run.
  destruct (fetch tr _) as [reason | data]; [reflexivity |].
  destruct (Base.no_results (json data)); reflexivity.
Qed.

Lemma no_results_empty (j : JSON) : Base.no_results j = true → j = JArr [].
Proof. destruct j as [| | | | [| ? ?] |]; by intros. Qed.

(** The calls are made in the order of the urls. *)
Lemma first_found_in_order (urls : list string) (tr : trace) :
  ∃ k, (first_found (inr <$> urls) tr).1 = (tr ++ take k (call <$> urls))%list.
Proof.
  revert tr. induction urls as [| url urls IH]; intros tr.
  - exists 0%nat. cbn. by rewrite app_nil_r.
  - rewrite fmap_cons, first_found_cons.
    destruct (fetch tr _) as [reason | data]; [by exists 1%nat |].
    destruct (Base.no_results (json data)); [| by exists 1%nat].
    destruct (IH (tr ++ [call url])%list) as [k Hk].
    exists (S k). rewrite Hk. cbn. by rewrite <- app_assoc.
Qed.

(** The first url with a result wins, and no later url is asked. *)
Lemma first_found_wins (pre : list string) (url : string) (post : list string)
    (data : response) (tr : trace) :
  all_empty tr (call <$> pre) →
  fetch (tr ++ (call <$> pre))%list (served (call url)) = inr data →
  Base.no_results (json data) = false →
  first_found (inr <$> (pre ++ url :: post)%list) tr
  = ((tr ++ (call <$> pre) ++ [call url])%list, inr (Base.envelope params data)).
Proof.
  revert tr. induction pre as [| u pre IH]; intros tr Hempty Hdata Hresults.
  - cbn in Hdata. rewrite app_nil_r in Hdata. cbn [app fmap list_fmap].
    rewrite first_found_cons, Hdata, Hresults. reflexivity.
  - destruct Hempty as [[hs Hu] Hempty].
    cbn [app fmap list_fmap]. rewrite first_found_cons, Hu. cbn [json Base.no_results].
    rewrite (IH (tr ++ [call u])%list).
    + by rewrite <- app_assoc.
    + exact Hempty.
    + rewrite <- Hdata. by rewrite fmap_cons, <- app_assoc.
    + exact Hresults.
Qed.

(** Exhausting the urls is the not-found error. *)
Lemma first_found_exhausted (urls : list string) (tr : trace) :
  all_empty tr (call <$> urls) →
  first_found (inr <$> urls) tr
  = ((tr ++ (call <$> urls))%list,
     inl (NotFoundError SinglePostFetchStrategy.not_found_message)).
Proof.
  revert tr. induction urls as [| url urls IH]; intros tr Hempty.
  - cbn. by rewrite app_nil_r.
  - destruct Hempty as [[hs Hu] Hempty].
    rewrite fmap_cons, first_found_cons, Hu. cbn [json Base.no_results].
    rewrite (IH _ Hempty). by rewrite fmap_cons, <- app_assoc.
Qed.

(** A not-found error is raised only after every url was asked and was
    answered with the empty array. *)
Lemma first_found_not_found (urls : list string) (tr tr' : trace) (message : string) :
  first_found (inr <$> urls) tr = (tr', inl (NotFoundError message)) →
  tr' = (tr ++ (call <$> urls))%list ∧ all_empty tr (call <$> urls).
Proof.
  revert tr. induction urls as [| url urls IH]; intros tr.
  - cbn. intros [= <- _]. by rewrite app_nil_r.
  - rewrite fmap_cons, first_found_cons.
    destruct (fetch tr (served (call url))) as [reason | [hs body]] eqn:Hu;
      [discriminate |].
    cbn [json]. destruct (Base.no_results body) eqn:Hbody; [| discriminate].
    apply no_results_empty in Hbody as ->.
    intros Hrest. destruct (IH _ Hrest) as [-> Hempty].
    split; [by rewrite fmap_cons, <- app_assoc |].
    cbn. split; [by exists hs | exact Hempty].
Qed.

(** The candidates of an array of registered post types are the urls of
    their endpoints, the url the caller built being the first. *)
Lemma candidate_urls_registered (names : list string) (name : string) :
  params !! "postType" = Some (JArr (JStr <$> (name :: names))) →
  Forall (fun n => is_Some (getCustomPostType (JStr n))) (name :: names) →
  SinglePostFetchStrategy.buildEndpointURL this params
  = inr (SinglePostFetchStrategy.url_of this params name) ∧
  SinglePostFetchStrategy.candidate_urls this
    (SinglePostFetchStrategy.url_of this params name) params
  = inr <$> (SinglePostFetchStrategy.url_of this params <$> (name :: names)).
Proof.
  intros Hpt Hregistered.
  assert (Hurl : ∀ n p, is_Some (getCustomPostType (JStr n)) →
            p !! "postType" = Some (JStr n) ∨
            (∃ rest, p !! "postType" = Some (JArr (JStr n :: rest))) →
            foldr delete p SinglePostFetchStrategy.selector_keys
            = foldr delete params SinglePostFetchStrategy.selector_keys →
            SinglePostFetchStrategy.buildEndpointURL this p
            = inr (SinglePostFetchStrategy.url_of this params n)).
  { intros n p [registration Hn] Hp Hstrip.
    unfold SinglePostFetchStrategy.buildEndpointURL, SinglePostFetchStrategy.url_of.
    destruct Hp as [-> | [rest ->]]; cbn [head]; by rewrite Hn, Hstrip. }
  apply Forall_cons in Hregistered as [Hname Hnames].
  split.
  - apply Hurl; [exact Hname | right; by eexists | reflexivity].
  - unfold SinglePostFetchStrategy.candidate_urls. rewrite Hpt.
    rewrite !fmap_cons. f_equal.
    rewrite <- !list_fmap_compose. apply Forall_fmap_ext_1.
    eapply Forall_impl; [exact Hnames |].
    intros n Hn. cbn. apply Hurl; [exact Hn | left; apply lookup_insert_eq |].
    apply foldr_delete_insert_in.
    unfold SinglePostFetchStrategy.selector_keys. set_solver.
Qed.

End single_post_candidates.

(** C1.  The single-item strategy of the specification, called as the
    tests call it, with an array of registered post types and no id (the
    item is looked up by its slug).  Write [calls] for the calls to the
    endpoints of the entries, in the order of the array.
    - The calls made are the first [k] of [calls], for some [k]: the
      candidates are asked strictly in order.
    - If every entry before some entry is answered with the empty array
      and that entry is answered with a result, the calls stop there (no
      later candidate is asked) and the fetcher resolves to that result,
      narrowed to one item.
    - A NotFoundError means that every candidate was asked and every
      answer was the empty array; and when every answer is the empty
      array the fetcher rejects with the NotFoundError after the last
      call. *)
Theorem post_type_candidates_in_order `{Network, Utils}
    (path : string) (this : Strategy) (params : EndpointParams) (options : FetchOptions)
    (name : string) (names : list string) (tr : trace) :
  params !! "postType" = Some (JArr (JStr <$> (name :: names))) →
  Forall (fun n => is_Some (getCustomPostType (JStr n))) (name :: names) →
  params !! "id" = None →
  let calls := SinglePostFetchStrategy.calls_for this params (name :: names) in
  let run :=
    fetch_built
      (fun this params => (this, SinglePostFetchStrategy.buildEndpointURL this params))
      (SinglePostFetchStrategy.fetcher path) this params options tr in
  (∃ k, run.1 = (tr ++ take k calls)%list) ∧
  (∀ pre winner post data,
      name :: names = (pre ++ winner :: post)%list →
      let asked := SinglePostFetchStrategy.calls_for this params pre in
      let call := SinglePostFetchStrategy.call_of this params
                    (SinglePostFetchStrategy.url_of this params winner) in
      SinglePostFetchStrategy.all_empty tr asked →
      fetch (tr ++ asked)%list (served call) = inr data →
      Base.no_results (json data) = false →
      run = ((tr ++ asked ++ [call])%list,
             inr {| result := SinglePostFetchStrategy.select path (json data);
                    pageInfo := pageInfo (Base.envelope params data);
                    queriedObject := None |})) ∧
  (∀ tr' message,
      run = (tr', inl (NotFoundError message)) →
      tr' = (tr ++ calls)%list ∧ SinglePostFetchStrategy.all_empty tr calls) ∧
  (SinglePostFetchStrategy.all_empty tr calls →
   run = ((tr ++ calls)%list,
          inl (NotFoundError SinglePostFetchStrategy.not_found_message))).
Proof.
  intros Hpt Hregistered Hid calls run.
  destruct (candidate_urls_registered this params names name Hpt Hregistered)
    as [Hbuild Hcandidates].
  assert (Hrun : run = match SinglePostFetchStrategy.first_found this params options
                               (inr <$> (SinglePostFetchStrategy.url_of this params
                                           <$> (name :: names))) tr with
                       | (tr', inl e) => (tr', inl e)
                       | (tr', inr r) =>
                           (tr', inr {| result := SinglePostFetchStrategy.select path (result r);
                                        pageInfo := pageInfo r;
                                        queriedObject := queriedObject r |})
                       end).
  { unfold run, fetch_built. rewrite Hbuild.
    unfold SinglePostFetchStrategy.fetcher. rewrite Hid, andb_false_r.
    rewrite bind_run, Hcandidates. reflexivity. }
  clearbody run. subst run. unfold calls, SinglePostFetchStrategy.calls_for.
  split; [| split; [| split]].
  - destruct (first_found_in_order this params options
                (SinglePostFetchStrategy.url_of this params <$> (name :: names)) tr)
      as [k Hk].
    exists k. rewrite <- Hk.
    by destruct (SinglePostFetchStrategy.first_found _ _ _ _ _) as [tr' [e | r]].
  - intros pre winner post data Hsplit Hempty Hdata Hresults.
    rewrite Hsplit, fmap_app, fmap_cons.
    by rewrite (first_found_wins this params options _ _ _ data tr Hempty Hdata Hresults).
  - intros tr' message.
    destruct (SinglePostFetchStrategy.first_found _ _ _ _ _) as [tr1 [e | r]] eqn:Hfound;
      [| discriminate].
    intros [= -> ->]. exact (first_found_not_found this params options _ _ _ _ Hfound).
  - intros Hempty. by rewrite (first_found_exhausted this params options _ _ Hempty).
Qed.

Lemma post_type_candidates_in_order_witness :
  let params : EndpointParams :=
    {[ "postType" := JArr [JStr "book"; JStr "post"]; "slug" := JStr "post-name" ]} in
  fetch_built
    (fun this params =>
       (this, @SinglePostFetchStrategy.buildEndpointURL Sample.utils this params))
    (@SinglePostFetchStrategy.fetcher Sample.books_empty Sample.utils "/2021/10/post-name")
    Sample.this params ∅ []
  = ([Request "/wp-json/wp/v2/book?slug=post-name" [];
      Request "/wp-json/wp/v2/posts?slug=post-name" []],
     inr {| result := Sample.the_post;
            pageInfo := {| page := 1; totalPages := 1; totalItems := 1 |};
            queriedObject := None |}).
Proof.
  intros params.
  destruct (@post_type_candidates_in_order Sample.books_empty Sample.utils
              "/2021/10/post-name" Sample.this params ∅ "book" ["post"] [])
    as (_ & Hwins & _).
  - reflexivity.
  - repeat constructor; by eexists.
  - reflexivity.
  - exact (Hwins ["book"] "post" [] (Response [] (JArr [Sample.the_post])) eq_refl
             (conj (ex_intro _ [] eq_refl) I) eq_refl eq_refl).
Defined.

(** ** The single-post strategy: the revision of an id *)

(** C5.  The single-item strategy of the specification, called as the
    tests call it with an id, [revision] set and a token (and no
    [postType], so the endpoint is the one of posts).  The first call asks
    [<endpoint>/<id>/revisions?per_page=1]; the only other call that can
    follow asks [<endpoint>/<id>]; both bear [Authorization: Bearer] and
    the token.  When the first call is answered (with a result, or with
    the not-found check disabled), exactly these two calls are made, in
    this order, and the outcome is the one of the second. *)
Theorem revision_fetch_two_calls `{Network, Utils}
    (path : string) (this : Strategy) (params : EndpointParams) (options : FetchOptions)
    (id token : JSON) (tr : trace) :
  params !! "id" = Some id →
  truthy (Some id) = true →
  truthy (params !! "revision") = true →
  params !! "authToken" = Some token →
  truthy (Some token) = true →
  params !! "postType" = None →
  "id" ∉ getCustomTaxonomySlugs →
  let bearer := [("Authorization", "Bearer " +:+ to_string token)] in
  let url := endpoints_posts +:+ "/" +:+ to_string id in
  let first := Request (baseURL this +:+ url +:+ "/revisions?per_page=1") bearer in
  let second := Request (baseURL this +:+ url) bearer in
  let run :=
    fetch_built
      (fun this params => (this, SinglePostFetchStrategy.buildEndpointURL this params))
      (SinglePostFetchStrategy.fetcher path) this params options tr in
  (run.1 = (tr ++ [first])%list ∨ run.1 = (tr ++ [first; second])%list) ∧
  (∀ data,
      fetch tr (served first) = inr data →
      Base.throwIfNotFound options && Base.no_results (json data) = false →
      run.1 = (tr ++ [first; second])%list ∧
      run.2 = (Base.fetcher this url params options (tr ++ [first])%list).2).
Proof.
  intros Hid Hid_truthy Hrevision Htoken Htoken_truthy Hpt Hslugs bearer url first second run.
  assert (Hbuild : SinglePostFetchStrategy.buildEndpointURL this params = inr url).
  { unfold SinglePostFetchStrategy.buildEndpointURL, Base.buildEndpointURL. rewrite Hpt.
    rewrite lookup_foldr_delete_not_elem_of, Hid; [reflexivity |].
    unfold SinglePostFetchStrategy.selector_keys.
    apply not_elem_of_app. split; [| exact Hslugs].
    apply (bool_decide_unpack _). exact I. }
  assert (Hauth : Base.auth_args params = bearer).
  { unfold Base.auth_args. by rewrite Htoken, Htoken_truthy. }
  assert (Hcall : ∀ u tr0,
            Base.fetcher this u params options tr0
            = ((tr0 ++ [Request (baseURL this +:+ u) bearer])%list,
               match fetch tr0 (served (Request (baseURL this +:+ u) bearer)) with
               | inl reason => inl (FetchError reason)
               | inr data =>
                   if Base.throwIfNotFound options && Base.no_results (json data)
                   then inl (NotFoundError ("The request to " +:+ u +:+ " returned no data"))
                   else inr (Base.envelope params data)
               end)).
  { intros u tr0. unfold Base.fetcher. rewrite bind_run, apiGet_run, Hauth.
    destruct (fetch tr0 _) as [reason | data]; [reflexivity |].
    by destruct (Base.throwIfNotFound options && Base.no_results (json data)). }
  assert (Hrun : run = (_ ← Base.fetcher this (url +:+ "/revisions?per_page=1") params options;
                        Base.fetcher this url params options) tr).
  { unfold run, fetch_built. rewrite Hbuild. unfold SinglePostFetchStrategy.fetcher.
    by rewrite Hrevision, Hid, Hid_truthy. }
  rewrite Hrun, bind_run, Hcall. fold first. clear Hrun.
  split.
  - destruct (fetch tr (served first)) as [reason | data]; [by left |].
    destruct (Base.throwIfNotFound options && Base.no_results (json data)); [by left |].
    right. rewrite Hcall. fold second. by rewrite <- app_assoc.
  - intros data -> ->. rewrite Hcall. fold second. by rewrite <- app_assoc.
Qed.

Lemma revision_fetch_two_calls_witness :
  let params : EndpointParams :=
    {[ "id" := JNum 10; "revision" := JBool true; "authToken" := JStr "t" ]} in
  let bearer := [("Authorization", "Bearer t")] in
  (fetch_built
     (fun this params =>
        (this, @SinglePostFetchStrategy.buildEndpointURL Sample.utils this params))
     (@SinglePostFetchStrategy.fetcher Sample.revisions Sample.utils "/post-name")
     Sample.this params ∅ []).1
  = [Request "/wp-json/wp/v2/posts/10/revisions?per_page=1" bearer;
     Request "/wp-json/wp/v2/posts/10" bearer].
Proof.
  intros params bearer.
  assert (Hslugs : "id" ∉ @getCustomTaxonomySlugs Sample.utils)
    by (apply (bool_decide_unpack _); exact I).
  destruct (@revision_fetch_two_calls Sample.revisions Sample.utils "/post-name"
              Sample.this params ∅ (JNum 10) (JStr "t") []
              eq_refl eq_refl eq_refl eq_refl eq_refl eq_refl Hslugs)
    as [_ Htwo].
  exact (proj1 (Htwo _ eq_refl eq_refl)).
Defined.

(** ** The tests of the single-post strategy *)

(** [bulds the endpoint url properly] *)
Example single_post_build_tests :
  let build := @SinglePostFetchStrategy.buildEndpointURL Sample.utils Sample.this in
  build {[ "slug" := JStr "post-name" ]} = inr "/wp-json/wp/v2/posts?slug=post-name" ∧
  build {[ "slug" := JStr "book-name"; "postType" := JStr "book" ]}
  = inr "/wp-json/wp/v2/book?slug=book-name" ∧
  build {[ "slug" := JStr "book-name"; "postType" := JArr [JStr "page"; JStr "book"] ]}
  = inr "/wp-json/wp/v2/pages?slug=book-name" ∧
  build {[ "postType" := JStr "book"; "id" := JNum 10 ]} = inr "/wp-json/wp/v2/book/10" ∧
  build {[ "postType" := JStr "book"; "id" := JNum 10; "revision" := JBool true ]}
  = inr "/wp-json/wp/v2/book/10" ∧
  build {[ "postType" := JArr [JStr "book"; JStr "page"]; "id" := JNum 10;
           "revision" := JBool true ]}
  = inr "/wp-json/wp/v2/book/10" ∧
  build {[ "postType" := JStr "custom-post-type" ]} = inl (ConfigError unknown_post_type).
Proof. repeat split; vm_compute; reflexivity. Qed.

(** [throws errors with bad arguments]: an unregistered candidate after a
    registered one that has no match. *)
Example single_post_bad_arguments_test :
  let params : EndpointParams :=
    {[ "slug" := JStr "post-name";
       "postType" := JArr [JStr "book"; JStr "unkown-post-type"] ]} in
  fetch_built
    (fun this params =>
       (this, @SinglePostFetchStrategy.buildEndpointURL Sample.utils this params))
    (@SinglePostFetchStrategy.fetcher Sample.books_empty Sample.utils "/2021/10/post-name")
    Sample.this params ∅ []
  = ([Request "/wp-json/wp/v2/book?slug=post-name" []],
     inl (ConfigError unknown_post_type)).
Proof. vm_compute; reflexivity. Qed.

(** [handles child pages with same slugs and different parents] *)
Example single_post_child_pages_test :
  let fetched (path : string) :=
    (fetch_built
       (fun this params =>
          (this, @SinglePostFetchStrategy.buildEndpointURL Sample.utils this params))
       (@SinglePostFetchStrategy.fetcher Sample.children Sample.utils path)
       {| baseURL := "http://sourceurl.com"; endpoint := "/wp-json/wp/v2/posts" |}
       (@SinglePostFetchStrategy.getParamsFromURL Sample.decode path) ∅ []).2 in
  let found (item : JSON) : error + FetchResponse :=
    inr {| result := item;
           pageInfo := {| page := 1; totalPages := 1; totalItems := 2 |};
           queriedObject := None |} in
  fetched "/parent-page-2/about" = found (Sample.child 2 "parent-page-2") ∧
  fetched "/parent-page/about" = found (Sample.child 1 "parent-page").
Proof. split; vm_compute; reflexivity. Qed.


(** * Further properties of the code *)

(** ** PostsArchiveFetchStrategy.buildEndpointURL *)

(** The loop over the taxonomy slugs removes exactly the keys among them
    whose value is truthy. *)
Lemma strip_taxonomies_lookup (slugs : list string) (m : EndpointParams) (k : string) :
  foldl (fun ep taxonomy => if truthy (ep !! taxonomy) then delete taxonomy ep else ep)
    m slugs !! k
  = if bool_decide (k ∈ slugs) && truthy (m !! k) then None else m !! k.
Proof.
  revert m. induction slugs as [| t slugs IH]; intros m; [reflexivity |].
  cbn [foldl]. rewrite IH. destruct (decide (k = t)) as [-> | Hne].
  - rewrite (bool_decide_eq_true_2 (t ∈ t :: slugs)) by apply list_elem_of_here.
    destruct (truthy (m !! t)) eqn:Ht.
    + rewrite lookup_delete_eq. cbn. by rewrite andb_false_r.
    + rewrite Ht, andb_false_r. reflexivity.
  - assert (Hk : (if truthy (m !! t) then delete t m else m) !! k = m !! k).
    { destruct (truthy (m !! t)); [by rewrite lookup_delete_ne | reflexivity]. }
    assert (Hd : bool_decide (k ∈ t :: slugs) = bool_decide (k ∈ slugs)).
    { apply bool_decide_ext. rewrite elem_of_cons.
      split; [intros [? | ?]; [congruence | done] | by right]. }
    by rewrite Hk, Hd.
Qed.

(** What [buildEndpointURL] hands to [super.buildEndpointURL], spelled
    out. *)
Lemma archive_build_run `{Utils, AbstractFetchStrategy}
    (this this' : Strategy) (params : EndpointParams) (url : string) :
  PostsArchiveFetchStrategy.buildEndpointURL this params = (this', inr url) →
  let stripped :=
    foldl (fun ep taxonomy => if truthy (ep !! taxonomy) then delete taxonomy ep else ep)
      (delete "postType" (delete "tag" (delete "category" params)))
      getCustomTaxonomySlugs in
  url = super_buildEndpointURL this'
          (if truthy (params !! "author") && is_string (params !! "author")
              && negb (truthy (JBool <$> useWordPressPlugin getHeadlessConfig))
           then delete "author" stripped else stripped).
Proof.
  unfold PostsArchiveFetchStrategy.buildEndpointURL.
  destruct (truthy (params !! "postType")).
  - destruct (getCustomPostType _); [| discriminate]. by intros [= <- <-].
  - by intros [= <- <-].
Qed.

(** X1.  The parameters that reach the query string never hold
    [category], [tag] or [postType], nor a truthy value under a
    registered taxonomy slug; no parameter is added or changed; and
    every other key, [author] aside, is passed on as it was (a taxonomy
    slug with a falsy value included). *)
Theorem archive_url_params_stripped `{Utils, AbstractFetchStrategy}
    (this this' : Strategy) (params : EndpointParams) (url : string) :
  PostsArchiveFetchStrategy.buildEndpointURL this params = (this', inr url) →
  ∃ endpointParams : EndpointParams,
    url = super_buildEndpointURL this' endpointParams ∧
    (∀ k, k ∈ ["category"; "tag"; "postType"] → endpointParams !! k = None) ∧
    (∀ k, k ∈ getCustomTaxonomySlugs → truthy (endpointParams !! k) = false) ∧
    (∀ k, endpointParams !! k = None ∨ endpointParams !! k = params !! k) ∧
    (∀ k, k ∉ ["category"; "tag"; "postType"; "author"] →
          k ∉ getCustomTaxonomySlugs ∨ truthy (params !! k) = false →
          endpointParams !! k = params !! k).
Proof.
  intros Hbuild. apply archive_build_run in Hbuild.
  pose (base := delete "postType" (delete "tag" (delete "category" params))).
  pose (stripped :=
          foldl (fun (ep : EndpointParams) taxonomy =>
                   if truthy (ep !! taxonomy) then delete taxonomy ep else ep)
            base getCustomTaxonomySlugs).
  pose (ep := if truthy (params !! "author") && is_string (params !! "author")
                 && negb (truthy (JBool <$> useWordPressPlugin getHeadlessConfig))
              then delete "author" stripped else stripped).
  change (url = super_buildEndpointURL this' ep) in Hbuild.
  assert (Hbase : ∀ k, base !! k = if bool_decide (k ∈ ["category"; "tag"; "postType"])
                                   then None else params !! k).
  { intros k. unfold base. case_bool_decide as Hk.
    - rewrite !elem_of_cons, elem_of_nil in Hk.
      destruct Hk as [-> | [-> | [-> | []]]];
        rewrite ?lookup_delete_eq, ?(lookup_delete_ne _ "postType"),
          ?lookup_delete_eq, ?(lookup_delete_ne _ "tag"), ?lookup_delete_eq; done.
    - rewrite !elem_of_cons, elem_of_nil in Hk.
      rewrite !lookup_delete_ne; [done | | |]; intros <-; apply Hk; auto. }
  assert (Hstripped : ∀ k, stripped !! k
                           = if bool_decide (k ∈ getCustomTaxonomySlugs) && truthy (base !! k)
                             then None else base !! k)
    by (intros k; apply strip_taxonomies_lookup).
  assert (Hep : ∀ k, ep !! k = None ∨ ep !! k = stripped !! k).
  { intros k. unfold ep. destruct (andb _ _); [| by right].
    rewrite lookup_delete. case_decide; [by left | by right]. }
  assert (Hauthor : ∀ k, k ≠ "author" → ep !! k = stripped !! k).
  { intros k Hk. unfold ep. destruct (andb _ _); [| done]. by rewrite lookup_delete_ne. }
  clearbody ep stripped base.
  exists ep. split; [exact Hbuild |]. split; [| split; [| split]].
  - intros k Hk. destruct (Hep k) as [-> | ->]; [done |].
    rewrite Hstripped, Hbase, (bool_decide_eq_true_2 _ Hk). cbn.
    by rewrite andb_false_r.
  - intros k Hk. destruct (Hep k) as [-> | ->]; [done |].
    rewrite Hstripped, (bool_decide_eq_true_2 _ Hk). cbn.
    by destruct (truthy (base !! k)) eqn:Hb.
  - intros k. destruct (Hep k) as [-> | ->]; [by left |].
    rewrite Hstripped, Hbase. destruct (andb _ _); [by left |].
    case_bool_decide; [by left | by right].
  - intros k Hk Hfalsy.
    assert (Hepk : ep !! k = stripped !! k).
    { apply Hauthor. intros ->. apply Hk. rewrite !elem_of_cons. auto. }
    rewrite Hepk, Hstripped, Hbase.
    rewrite (bool_decide_eq_false_2 (k ∈ ["category"; "tag"; "postType"])).
    + destruct Hfalsy as [Hnot | Hfalsy].
      * by rewrite (bool_decide_eq_false_2 _ Hnot).
      * by rewrite Hfalsy, andb_false_r.
    + intros Hin. apply Hk. rewrite !elem_of_cons, elem_of_nil in *. tauto.
Qed.

Lemma archive_url_params_stripped_witness :
  let base := @spec_base Sample.news Sample.utils Base.shape_fields in
  let params : EndpointParams :=
    {[ "category" := JStr "news"; "postType" := JStr "book"; "per_page" := JNum 10 ]} in
  ∃ endpointParams : EndpointParams,
    "/wp-json/wp/v2/book?per_page=10"
    = @super_buildEndpointURL base (setEndpoint Sample.this "/wp-json/wp/v2/book")
        endpointParams ∧
    (∀ k, k ∈ ["category"; "tag"; "postType"] → endpointParams !! k = None) ∧
    (∀ k, k ∈ @getCustomTaxonomySlugs Sample.utils → truthy (endpointParams !! k) = false) ∧
    (∀ k, endpointParams !! k = None ∨ endpointParams !! k = params !! k) ∧
    (∀ k, k ∉ ["category"; "tag"; "postType"; "author"] →
          k ∉ @getCustomTaxonomySlugs Sample.utils ∨ truthy (params !! k) = false →
          endpointParams !! k = params !! k).
Proof.
  intros base params.
  apply (@archive_url_params_stripped Sample.utils base Sample.this).
  vm_compute. reflexivity.
Defined.

(** X2.  An author given as a non-empty string is kept out of the query
    string when the plugin is not in use (its id is looked up by the
    fetcher instead); a numeric author, or any author with the plugin,
    is passed on as given. *)
Theorem archive_url_author `{Utils, AbstractFetchStrategy}
    (this this' : Strategy) (params : EndpointParams) (url : string) :
  PostsArchiveFetchStrategy.buildEndpointURL this params = (this', inr url) →
  "author" ∉ getCustomTaxonomySlugs →
  ∃ endpointParams : EndpointParams,
    url = super_buildEndpointURL this' endpointParams ∧
    endpointParams !! "author"
    = if truthy (params !! "author") && is_string (params !! "author")
         && negb (truthy (JBool <$> useWordPressPlugin getHeadlessConfig))
      then None else params !! "author".
Proof.
  intros Hbuild Hslug. apply archive_build_run in Hbuild. cbn zeta in Hbuild.
  eexists. split; [exact Hbuild |].
  destruct (andb _ _).
  - apply lookup_delete_eq.
  - rewrite strip_taxonomies_lookup, (bool_decide_eq_false_2 _ Hslug). cbn.
    rewrite !lookup_delete_ne by done. reflexivity.
Qed.

Lemma archive_url_author_witness :
  let base := @spec_base Sample.news Sample.utils Base.shape_fields in
  let params : EndpointParams := {[ "author" := JStr "jane" ]} in
  ∃ endpointParams : EndpointParams,
    "/wp-json/wp/v2/posts" = @super_buildEndpointURL base Sample.this endpointParams ∧
    endpointParams !! "author" = None.
Proof.
  intros base params.
  assert (Hslug : "author" ∉ @getCustomTaxonomySlugs Sample.utils)
    by (apply (bool_decide_unpack _); exact I).
  exact (@archive_url_author Sample.utils base Sample.this Sample.this params
           "/wp-json/wp/v2/posts" eq_refl Hslug).
Defined.

(** X3.  The endpoint that a registered [postType] selects stays with
    the strategy: a later call whose params name no post type leaves the
    strategy as it is and builds its url on that endpoint still. *)
Theorem archive_endpoint_persists `{Utils, AbstractFetchStrategy}
    (this : Strategy) (first later : EndpointParams) (postType : JSON)
    (registration : CustomPostType) :
  first !! "postType" = Some postType →
  truthy (Some postType) = true →
  getCustomPostType postType = Some registration →
  truthy (later !! "postType") = false →
  let this1 := (PostsArchiveFetchStrategy.buildEndpointURL this first).1 in
  this1 = setEndpoint this (pt_endpoint registration) ∧
  (PostsArchiveFetchStrategy.buildEndpointURL this1 later).1 = this1 ∧
  ∃ endpointParams,
    (PostsArchiveFetchStrategy.buildEndpointURL this1 later).2
    = inr (super_buildEndpointURL (setEndpoint this (pt_endpoint registration))
             endpointParams).
Proof.
  intros Hfirst Htruthy Hregistered Hlater this1.
  assert (H1 : this1 = setEndpoint this (pt_endpoint registration)).
  { unfold this1, PostsArchiveFetchStrategy.buildEndpointURL.
    rewrite Hfirst, Htruthy. cbn [from_option]. unfold id. by rewrite Hregistered. }
  split; [exact H1 |]. rewrite H1.
  unfold PostsArchiveFetchStrategy.buildEndpointURL. rewrite Hlater.
  split; [reflexivity |]. by eexists.
Qed.

Lemma archive_endpoint_persists_witness :
  let base := @spec_base Sample.news Sample.utils Base.shape_fields in
  let build := @PostsArchiveFetchStrategy.buildEndpointURL Sample.utils base in
  let this1 := (build Sample.this {[ "postType" := JStr "book" ]}).1 in
  this1 = setEndpoint Sample.this "/wp-json/wp/v2/book" ∧
  (build this1 {[ "per_page" := JNum 5 ]}).1 = this1 ∧
  ∃ endpointParams,
    (build this1 {[ "per_page" := JNum 5 ]}).2
    = inr (@super_buildEndpointURL base (setEndpoint Sample.this "/wp-json/wp/v2/book")
             endpointParams).
Proof.
  intros base build this1.
  exact (@archive_endpoint_persists Sample.utils base Sample.this
           {[ "postType" := JStr "book" ]} {[ "per_page" := JNum 5 ]} (JStr "book")
           Sample.book eq_refl eq_refl eq_refl eq_refl).
Defined.

(** ** PostsArchiveFetchStrategy.fetcher *)
(** With the plugin, one taxonomy is resolved without a call. *)
Lemma resolveTaxonomy_plugin `{Network, Utils}
    (this : Strategy) (params : EndpointParams) (finalUrl : string)
    (taxonomy : CustomTaxonomy) (tr : trace) :
  truthy (JBool <$> useWordPressPlugin getHeadlessConfig) = true →
  PostsArchiveFetchStrategy.resolveTaxonomy this params finalUrl taxonomy tr
  = (tr, inr (forward_slug params finalUrl taxonomy)).
Proof.
  intros Hplugin. unfold PostsArchiveFetchStrategy.resolveTaxonomy, forward_slug.
  cbn zeta. destruct (truthy (params !! _)); cbn [negb]; [| reflexivity].
  by rewrite Hplugin.
Qed.

(** X4.  With the plugin in use the fetcher looks nothing up: the steps
    before the primary fetch make no call and cannot fail; each taxonomy
    whose param is truthy adds the value of the param, as given, to the
    url under its REST param, in the order of registration, and the
    author is left to the url the caller built. *)
Theorem archive_plugin_makes_no_lookup `{Network, Utils}
    (this : Strategy) (url : string) (params : EndpointParams) (tr : trace) :
  truthy (JBool <$> useWordPressPlugin getHeadlessConfig) = true →
  PostsArchiveFetchStrategy.resolve this url params tr
  = (tr, inr (foldl (forward_slug params) url (default [] getCustomTaxonomies))).
Proof.
  intros Hplugin. unfold PostsArchiveFetchStrategy.resolve. rewrite bind_run.
  assert (Hloop : ∀ l u, asyncForEach l (PostsArchiveFetchStrategy.resolveTaxonomy this params)
                           u tr
                         = (tr, inr (foldl (forward_slug params) u l))).
  { induction l as [| t l IH]; intros u; [reflexivity |].
    cbn [asyncForEach foldl]. by rewrite bind_run, resolveTaxonomy_plugin, IH. }
  assert (Hauthor : ∀ u, PostsArchiveFetchStrategy.resolveAuthor this params u tr
                         = (tr, inr u)).
  { intros u. unfold PostsArchiveFetchStrategy.resolveAuthor.
    by rewrite Hplugin, andb_false_r. }
  destruct getCustomTaxonomies as [l |]; cbn [from_option]; [rewrite Hloop |];
    apply Hauthor.
Qed.

Lemma archive_plugin_makes_no_lookup_witness :
  let utils : Utils :=
    {| getHeadlessConfig :=
         {| sourceUrl := None; customPostTypes := None; customTaxonomies := None;
            redirectStrategy := None; useWordPressPlugin := Some true |};
       getCustomTaxonomies := Some [Sample.category; Sample.post_tag];
       getCustomTaxonomySlugs := ["category"; "post_tag"];
       getCustomPostType := fun _ => None;
       getWPUrl := EmptyString;
       addQueryArgs := Sample.plain_addQueryArgs;
       endpoints_posts := "/wp-json/wp/v2/posts";
       endpoints_category := "/wp-json/wp/v2/categories";
       endpoints_yoast := "/wp-json/yoast/v1/get_head" |} in
  @PostsArchiveFetchStrategy.resolve Sample.news utils Sample.this "/wp-json/wp/v2/posts"
    {[ "category" := JStr "news"; "tag" := JStr "sport"; "author" := JStr "jane" ]} []
  = ([], inr "/wp-json/wp/v2/posts?categories=news&tags=sport").
Proof.
  intros utils.
  exact (@archive_plugin_makes_no_lookup Sample.news utils Sample.this
           "/wp-json/wp/v2/posts"
           {[ "category" := JStr "news"; "tag" := JStr "sport"; "author" := JStr "jane" ]}
           [] eq_refl).
Defined.

(** X5.  An author given as a non-empty string, without the plugin:
    once the taxonomies are resolved the fetcher asks the users endpoint
    for that slug.  No match rejects with the NotFoundError that quotes
    the author, and the primary fetch is not made; otherwise the primary
    fetch follows at once, with the id member of the first match (be it
    absent) added to the url as [author]. *)
Theorem archive_author_lookup `{Network, Utils, AbstractFetchStrategy}
    (this : Strategy) (url : string) (params : EndpointParams) (options : FetchOptions)
    (name : string) (tr tr1 : trace) (url1 : string) :
  truthy (JBool <$> useWordPressPlugin getHeadlessConfig) = false →
  params !! "author" = Some (JStr name) →
  name ≠ EmptyString →
  match getCustomTaxonomies with
  | Some customTaxonomies =>
      asyncForEach customTaxonomies (PostsArchiveFetchStrategy.resolveTaxonomy this params) url
  | None => ret url
  end tr = (tr1, inr url1) →
  let lookup := Request (baseURL this +:+ authorsEndpoint +:+ "?slug=" +:+ name) [] in
  (∀ hs,
      fetch tr1 (served lookup) = inr (Response hs (JArr [])) →
      PostsArchiveFetchStrategy.fetcher this url params options tr
      = ((tr1 ++ [lookup])%list,
         inl (NotFoundError ("Author " +:+ dquote +:+ name +:+ dquote +:+ " not found")))) ∧
  (∀ hs first rest,
      fetch tr1 (served lookup) = inr (Response hs (JArr (JObj first :: rest))) →
      PostsArchiveFetchStrategy.fetcher this url params options tr
      = super_fetcher this (addQueryArgs url1 [("author", assoc "id" first)]) params options
          (tr1 ++ [lookup])%list).
Proof.
  intros Hplugin Hauthor Hname Htaxonomies lookup.
  assert (Htruthy : truthy (Some (JStr name)) = true).
  { cbn. destruct name; [done | reflexivity]. }
  unfold PostsArchiveFetchStrategy.fetcher, PostsArchiveFetchStrategy.resolve.
  rewrite !bind_run, Htaxonomies.
  unfold PostsArchiveFetchStrategy.resolveAuthor.
  rewrite Hauthor, Htruthy, Hplugin. cbn [is_string negb andb template to_string].
  rewrite bind_run, apiGet_run. fold lookup.
  split.
  - intros hs ->. reflexivity.
  - intros hs first rest ->. reflexivity.
Qed.

Lemma archive_author_lookup_witness :
  let params : EndpointParams := {[ "author" := JStr "jane" ]} in
  let lookup := Request "/wp-json/wp/v2/users?slug=jane" [] in
  let nobody := Sample.backend [("/wp-json/wp/v2/users?slug=jane", JArr [])] in
  @PostsArchiveFetchStrategy.fetcher nobody Sample.utils
    (@spec_base nobody Sample.utils Base.shape_fields) Sample.this "/wp-json/wp/v2/posts"
    params ∅ []
  = ([lookup],
     inl (NotFoundError ("Author " +:+ dquote +:+ "jane" +:+ dquote +:+ " not found"))).
Proof.
  intros params lookup nobody.
  destruct (@archive_author_lookup nobody Sample.utils
              (@spec_base nobody Sample.utils Base.shape_fields) Sample.this
              "/wp-json/wp/v2/posts" params ∅ "jane" [] [] "/wp-json/wp/v2/posts"
              eq_refl eq_refl ltac:(discriminate) eq_refl) as [Hnone _].
  exact (Hnone [] eq_refl).
Defined.

(** A log extended by at most [n] calls, none of which bears a header. *)
Lemma bare_calls_refl (tr : trace) (n : nat) :
  ∃ calls, tr = (tr ++ calls)%list ∧ (length calls ≤ n)%nat ∧
           Forall (fun rq => req_headers rq = []) calls.
Proof. exists []. rewrite app_nil_r. repeat split; [cbn; lia | constructor]. Qed.

Lemma resolveTaxonomy_bare `{Network, Utils}
    (this : Strategy) (params : EndpointParams) (finalUrl : string)
    (taxonomy : CustomTaxonomy) (tr : trace) :
  ∃ calls,
    (PostsArchiveFetchStrategy.resolveTaxonomy this params finalUrl taxonomy tr).1
    = (tr ++ calls)%list ∧
    (length calls ≤ 1)%nat ∧ Forall (fun rq => req_headers rq = []) calls.
Proof.
  unfold PostsArchiveFetchStrategy.resolveTaxonomy. cbn zeta.
  destruct (negb _); [apply bare_calls_refl |].
  destruct (truthy (JBool <$> _)); [apply bare_calls_refl |].
  rewrite bind_run, apiGet_run.
  eexists [Request _ []]. split; [| split; [reflexivity | by constructor]].
  destruct (fetch tr _) as [reason | terms]; [reflexivity |].
  fetch_unfold. destruct (get_prop "length" _) as [e | len]; [reflexivity |].
  destruct (gt_zero len); [| reflexivity].
  by destruct (get_prop "id" _).
Qed.

Lemma resolveAuthor_bare `{Network, Utils}
    (this : Strategy) (params : EndpointParams) (finalUrl : string) (tr : trace) :
  ∃ calls,
    (PostsArchiveFetchStrategy.resolveAuthor this params finalUrl tr).1 = (tr ++ calls)%list ∧
    (length calls ≤ 1)%nat ∧ Forall (fun rq => req_headers rq = []) calls.
Proof.
  unfold PostsArchiveFetchStrategy.resolveAuthor. cbn zeta.
  destruct (andb _ _); [| apply bare_calls_refl].
  rewrite bind_run, apiGet_run.
  eexists [Request _ []]. split; [| split; [reflexivity | by constructor]].
  destruct (fetch tr _) as [reason | authors]; [reflexivity |].
  fetch_unfold. destruct (get_prop "length" _) as [e | len]; [reflexivity |].
  destruct (gt_zero len); [| reflexivity].
  by destruct (get_prop "id" _).
Qed.

Lemma resolve_bare `{Network, Utils}
    (this : Strategy) (url : string) (params : EndpointParams) (tr : trace) :
  ∃ calls,
    (PostsArchiveFetchStrategy.resolve this url params tr).1 = (tr ++ calls)%list ∧
    (length calls ≤ length (default [] getCustomTaxonomies) + 1)%nat ∧
    Forall (fun rq => req_headers rq = []) calls.
Proof.
  assert (Hloop : ∀ l u tr0, ∃ calls,
            (asyncForEach l (PostsArchiveFetchStrategy.resolveTaxonomy this params) u tr0).1
            = (tr0 ++ calls)%list ∧
            (length calls ≤ length l)%nat ∧ Forall (fun rq => req_headers rq = []) calls).
  { induction l as [| t l IH]; intros u tr0; [apply bare_calls_refl |].
    cbn [asyncForEach]. rewrite bind_run.
    destruct (resolveTaxonomy_bare this params u t tr0) as (c1 & H1 & Hn1 & Hb1).
    destruct (PostsArchiveFetchStrategy.resolveTaxonomy this params u t tr0)
      as [tr1 [e | u1]]; cbn in H1; subst tr1.
    - exists c1. split; [done |]. split; [cbn; lia | done].
    - destruct (IH u1 (tr0 ++ c1)%list) as (c2 & H2 & Hn2 & Hb2).
      exists (c1 ++ c2)%list. rewrite H2, app_assoc. split; [done |].
      split; [rewrite length_app; cbn; lia | by apply Forall_app]. }
  assert (Hthen : ∀ (m : Fetch string) (n : nat),
            (∃ calls, (m tr).1 = (tr ++ calls)%list ∧ (length calls ≤ n)%nat ∧
                      Forall (fun rq => req_headers rq = []) calls) →
            ∃ calls,
              ((finalUrl ← m; PostsArchiveFetchStrategy.resolveAuthor this params finalUrl)
                 tr).1 = (tr ++ calls)%list ∧
              (length calls ≤ n + 1)%nat ∧ Forall (fun rq => req_headers rq = []) calls).
  { intros m n (c1 & H1 & Hn1 & Hb1). rewrite bind_run.
    destruct (m tr) as [tr1 [e | u1]]; cbn in H1; subst tr1.
    - exists c1. split; [done |]. split; [lia | done].
    - destruct (resolveAuthor_bare this params u1 (tr ++ c1)%list) as (c2 & H2 & Hn2 & Hb2).
      exists (c1 ++ c2)%list. rewrite H2, app_assoc. split; [done |].
      split; [rewrite length_app; lia | by apply Forall_app]. }
  unfold PostsArchiveFetchStrategy.resolve. apply Hthen.
  destruct getCustomTaxonomies as [l |]; [apply Hloop | apply bare_calls_refl].
Qed.

(** X6.  Whatever the backend answers, the steps before the primary
    fetch make at most one call per registered taxonomy and one for the
    author, and none of these calls bears a header: the token of the
    params is never sent with a lookup. *)
Theorem archive_lookups_bounded_and_bare `{Network, Utils}
    (this : Strategy) (url : string) (params : EndpointParams) (tr : trace) :
  ∃ calls,
    (PostsArchiveFetchStrategy.resolve this url params tr).1 = (tr ++ calls)%list ∧
    (length calls ≤ length (default [] getCustomTaxonomies) + 1)%nat ∧
    Forall (fun rq => req_headers rq = []) calls.
Proof. apply resolve_bare. Qed.

(** X7.  A request that names no term and no author by slug goes
    straight to the primary fetch: when the param of every registered
    taxonomy is falsy and the author is not a non-empty string, the
    fetcher is the base fetcher on the url it was given, with or without
    the plugin. *)
Theorem archive_plain_request_goes_straight `{Network, Utils, AbstractFetchStrategy}
    (this : Strategy) (url : string) (params : EndpointParams) (options : FetchOptions)
    (tr : trace) :
  Forall (fun taxonomy =>
            truthy (params !! default (tax_slug taxonomy) (tax_rewrite taxonomy)) = false)
    (default [] getCustomTaxonomies) →
  truthy (params !! "author") && is_string (params !! "author") = false →
  PostsArchiveFetchStrategy.fetcher this url params options tr
  = super_fetcher this url params options tr.
Proof.
  intros Hfalsy Hauthor.
  assert (Hloop : ∀ l, Forall (fun taxonomy =>
                                 truthy (params !! default (tax_slug taxonomy)
                                                     (tax_rewrite taxonomy)) = false) l →
            asyncForEach l (PostsArchiveFetchStrategy.resolveTaxonomy this params) url tr
            = (tr, inr url)).
  { induction 1 as [| t l Ht _ IH]; [reflexivity |].
    cbn [asyncForEach]. rewrite bind_run.
    unfold PostsArchiveFetchStrategy.resolveTaxonomy at 1. cbn zeta. rewrite Ht. exact IH. }
  unfold PostsArchiveFetchStrategy.fetcher, PostsArchiveFetchStrategy.resolve.
  rewrite !bind_run.
  assert (Hfirst : match getCustomTaxonomies with
                   | Some l => asyncForEach l
                                 (PostsArchiveFetchStrategy.resolveTaxonomy this params) url
                   | None => ret url
                   end tr = (tr, inr url)).
  { destruct getCustomTaxonomies as [l |]; [by apply Hloop | reflexivity]. }
  rewrite Hfirst. unfold PostsArchiveFetchStrategy.resolveAuthor. by rewrite Hauthor.
Qed.

Lemma archive_plain_request_goes_straight_witness :
  let base := @spec_base Sample.news Sample.utils Base.shape_fields in
  let params : EndpointParams := {[ "author" := JNum 3; "category" := JStr EmptyString ]} in
  @PostsArchiveFetchStrategy.fetcher Sample.news Sample.utils base Sample.this
    "/wp-json/wp/v2/posts?author=3" params ∅ []
  = @super_fetcher base Sample.this "/wp-json/wp/v2/posts?author=3" params ∅ [].
Proof.
  intros base params.
  apply (@archive_plain_request_goes_straight Sample.news Sample.utils base);
    [repeat constructor | reflexivity].
Defined.

(** ** SearchFetchStrategy.fetcher *)

(** X8.  When the SEO endpoint answers with an object, every response
    of the search fetcher carries its [html] member as [yoast_head] and
    the members of its [json] member as [yoast_head_json]. *)
Theorem search_seo_fields `{Network, Utils, AbstractFetchStrategy}
    (this : Strategy) (url : string) (params : EndpointParams)
    (hs : list (string * string)) (body : list (string * JSON))
    (tr tr' : trace) (r : FetchResponse) :
  fetch tr (served (Request (SearchFetchStrategy.seoUrl params) [])) = inr (Response hs (JObj body)) →
  SearchFetchStrategy.fetcher this url params tr = (tr', inr r) →
  ∃ s, queriedObject r = Some {| search := Some s; author := None; term := None |} ∧
       yoast_head s = assoc "html" body ∧
       yoast_head_json s = spread (assoc "json" body).
Proof.
  intros Hseo Hrun.
  destruct (search_fetcher_run this url params tr) as (seo & seo_json & Hfetched & Hfetch).
  assert (Hvalues : SearchFetchStrategy.fetchSeo params tr
                    = ((tr ++ [Request (SearchFetchStrategy.seoUrl params) []])%list,
                       inr (assoc "html" body, spread (assoc "json" body)))).
  { unfold SearchFetchStrategy.fetchSeo. fetch_unfold. by rewrite apiGet_run, Hseo. }
  rewrite Hvalues in Hfetched. injection Hfetched as <- <-.
  rewrite Hfetch in Hrun.
  destruct (PostsArchiveFetchStrategy.fetcher _ _ _ _ _) as [tr1 [e | response]];
    [discriminate |].
  injection Hrun as _ <-. by eexists.
Qed.

Lemma search_seo_fields_witness :
  let net :=
    Sample.backend
      [("/wp-json/yoast/v1/get_head?url=/?s=zzz",
        JObj [("html", JStr "<title>zzz</title>"); ("json", JObj [("title", JStr "zzz")])]);
       ("/wp-json/wp/v2/posts?search=zzz", JArr [])] in
  let params : EndpointParams := {[ "search" := JStr "zzz" ]} in
  ∃ tr' r,
    @SearchFetchStrategy.fetcher net Sample.utils (@spec_base net Sample.utils Base.shape_fields)
      Sample.this "/wp-json/wp/v2/posts?search=zzz" params [] = (tr', inr r) ∧
    ∃ s, queriedObject r = Some {| search := Some s; author := None; term := None |} ∧
         yoast_head s = Some (JStr "<title>zzz</title>") ∧
         yoast_head_json s = [("title", JStr "zzz")].
Proof.
  intros net params. eexists _, _. split; [vm_compute; reflexivity |].
  eapply (@search_seo_fields net Sample.utils (@spec_base net Sample.utils Base.shape_fields)
            Sample.this "/wp-json/wp/v2/posts?search=zzz" params []
            [("html", JStr "<title>zzz</title>"); ("json", JObj [("title", JStr "zzz")])] []);
    [reflexivity | vm_compute; reflexivity].
Defined.

(** X9.  The search fetcher adds nothing to the failures of the archive
    fetcher: after the SEO call its log is the log of the archive
    fetcher, and it rejects exactly when the archive fetcher does, with
    the same error. *)
Theorem search_errors_are_archive_errors `{Network, Utils, AbstractFetchStrategy}
    (this : Strategy) (url : string) (params : EndpointParams) (tr : trace) :
  let archive :=
    PostsArchiveFetchStrategy.fetcher this url params {[ "throwIfNotFound" := JBool false ]}
      (tr ++ [Request (SearchFetchStrategy.seoUrl params) []])%list in
  (SearchFetchStrategy.fetcher this url params tr).1 = archive.1 ∧
  ∀ e, (SearchFetchStrategy.fetcher this url params tr).2 = inl e ↔ archive.2 = inl e.
Proof.
  intros archive.
  destruct (search_fetcher_run this url params tr) as (seo & seo_json & _ & Hfetch).
  rewrite Hfetch. fold archive. destruct archive as [tr1 [e0 | response]]; cbn.
  - split; [reflexivity |]. by intros e.
  - split; [reflexivity |]. intros e. split; discriminate.
Qed.

(** X10.  A search without a search term still makes the SEO call
    first, and asks it about the search page of the term [undefined];
    the archive fetcher then runs on the log that holds this call. *)
Theorem search_without_term_asks_seo_for_undefined `{Network, Utils, AbstractFetchStrategy}
    (this : Strategy) (url : string) (params : EndpointParams) (tr : trace) :
  params !! "search" = None →
  let seo :=
    Request (addQueryArgs (getWPUrl +:+ endpoints_yoast)
               [("url", Some (JStr (getWPUrl +:+ "/?s=undefined")))]) [] in
  (SearchFetchStrategy.fetchSeo params tr).1 = (tr ++ [seo])%list ∧
  (SearchFetchStrategy.fetcher this url params tr).1
  = (PostsArchiveFetchStrategy.fetcher this url params
       {[ "throwIfNotFound" := JBool false ]} (tr ++ [seo])%list).1.
Proof.
  intros Hsearch seo.
  assert (Hurl : Request (SearchFetchStrategy.seoUrl params) [] = seo).
  { unfold seo, SearchFetchStrategy.seoUrl. by rewrite Hsearch. }
  destruct (search_fetcher_run this url params tr) as (v & seo_json & Hseo & Hfetch).
  rewrite Hurl in Hseo, Hfetch. rewrite Hseo, Hfetch. split; [reflexivity |].
  by destruct (PostsArchiveFetchStrategy.fetcher _ _ _ _ _) as [tr1 [e | response]].
Qed.

Lemma search_without_term_asks_seo_for_undefined_witness :
  let base := @spec_base Sample.nothing_found Sample.utils Base.shape_fields in
  (@SearchFetchStrategy.fetcher Sample.nothing_found Sample.utils base Sample.this
     "/wp-json/wp/v2/posts" ∅ []).1
  = (@PostsArchiveFetchStrategy.fetcher Sample.nothing_found Sample.utils base Sample.this
       "/wp-json/wp/v2/posts" ∅ {[ "throwIfNotFound" := JBool false ]}
       [Request "/wp-json/yoast/v1/get_head?url=/?s=undefined" []]).1.
Proof.
  intros base.
  exact (proj2 (@search_without_term_asks_seo_for_undefined Sample.nothing_found
                  Sample.utils base Sample.this "/wp-json/wp/v2/posts" ∅ [] eq_refl)).
Defined.

(** ** TaxonomyTermsStrategy.buildEndpointURL *)

(** X11.  Leaving [taxonomy] out is asking for the category taxonomy:
    params without the key build the same url, and leave the strategy in
    the same state, as the same params with [taxonomy] set to
    [category]. *)
Theorem terms_taxonomy_defaults_to_category `{Utils, TaxonomyUtils, AbstractFetchStrategy}
    (this : Strategy) (params : EndpointParams) :
  params !! "taxonomy" = None →
  TaxonomyTermsEndpoint.buildEndpointURL this params
  = TaxonomyTermsEndpoint.buildEndpointURL this (<[ "taxonomy" := JStr "category" ]> params).
Proof.
  intros Habsent. unfold TaxonomyTermsEndpoint.buildEndpointURL.
  by rewrite Habsent, lookup_insert_eq, delete_insert_eq.
Qed.

(** X12.  A taxonomy that is not registered makes [buildEndpointURL]
    throw the configuration error and leave the strategy as it was; the
    fetcher is then not called, so no network call is made.  Otherwise
    the endpoint of the taxonomy becomes the endpoint of the strategy,
    and [taxonomy] itself is not among the params of the query. *)
Theorem terms_unknown_taxonomy `{Network, Utils, TaxonomyUtils, AbstractFetchStrategy}
    (this : Strategy) (params : EndpointParams) (options : FetchOptions) (tr : trace) :
  let taxonomy := default (JStr "category") (params !! "taxonomy") in
  match getCustomTaxonomy taxonomy (baseURL this) with
  | None =>
      TaxonomyTermsEndpoint.buildEndpointURL this params
      = (this, inl (ConfigError unknown_taxonomy)) ∧
      fetch_built TaxonomyTermsEndpoint.buildEndpointURL
        (fun this url params options =>
           TaxonomyTermsStrategy.fetcher this url params (Some options))
        this params options tr
      = (tr, inl (ConfigError unknown_taxonomy))
  | Some registered =>
      ∃ endpointParams : EndpointParams,
        TaxonomyTermsEndpoint.buildEndpointURL this params
        = (setEndpoint this (tax_endpoint registered),
           inr (super_buildEndpointURL (setEndpoint this (tax_endpoint registered))
                  endpointParams)) ∧
        endpointParams !! "taxonomy" = None ∧
        ∀ k, k ≠ "taxonomy" → endpointParams !! k = params !! k
  end.
Proof.
  intros taxonomy. unfold fetch_built, TaxonomyTermsEndpoint.buildEndpointURL.
  change TaxonomyTermsStrategy.defaultTaxonmy with "category".
  fold taxonomy. destruct (getCustomTaxonomy taxonomy (baseURL this)) as [registered |].
  - eexists. split; [reflexivity |]. split; [apply lookup_delete_eq |].
    intros k Hk. by rewrite lookup_delete_ne.
  - by split.
Qed.

(** ** convertToPath *)

Lemma append_empty (s t : string) :
  s +:+ t = EmptyString → s = EmptyString ∧ t = EmptyString.
Proof. destruct s; [by split | discriminate]. Qed.

Lemma join_empty (l : list string) :
  HookData.join "/" l = EmptyString ↔ l = [] ∨ l = [EmptyString].
Proof.
  split.
  - destruct l as [| x [| y l]]; cbn [HookData.join].
    + by left.
    + intros ->. by right.
    + intros Hjoin. apply append_empty in Hjoin as [_ Hjoin]. discriminate.
  - intros [-> | ->]; reflexivity.
Qed.

(** X13.  [convertToPath] always answers a path that begins with a
    slash, and answers the root path exactly for the absent argument,
    the empty array and the array that holds one empty string. *)
Theorem convertToPath_root (args : option (list string)) :
  (∃ rest, HookData.convertToPath args = String "/" rest) ∧
  (HookData.convertToPath args = "/" ↔
   args = None ∨ args = Some [] ∨ args = Some [EmptyString]).
Proof.
  destruct args as [l |]; cbn [HookData.convertToPath].
  - split; [by eexists |].
    change ("/" +:+ HookData.join "/" l) with (String "/" (HookData.join "/" l)).
    split.
    + intros [= Hjoin]. apply join_empty in Hjoin as [-> | ->]; auto.
    + intros [? | [[= ->] | [= ->]]]; [done | reflexivity | reflexivity].
  - split; [by eexists |]. split; [by left | reflexivity].
Qed.

(** ** fetchHookData *)

(** X14.  The params of a request, key by key: the params the caller
    gave come first, then the params read from the url, and [_embed] is
    true when neither sets it. *)
Theorem finalParams_precedence (urlParams params : EndpointParams) (k : string) :
  finalParams urlParams params !! k
  = match params !! k, urlParams !! k with
    | Some v, _ => Some v
    | None, Some v => Some v
    | None, None => if String.eqb k "_embed" then Some (JBool true) else None
    end.
Proof.
  unfold finalParams. rewrite !lookup_union.
  destruct (params !! k) as [v |]; [by rewrite !union_Some_l |].
  rewrite (left_id_L None (∪)).
  destruct (urlParams !! k) as [v |]; [by rewrite union_Some_l |].
  rewrite (left_id_L None (∪)).
  destruct (String.eqb_spec k "_embed") as [-> | Hne].
  - apply lookup_singleton_eq.
  - by rewrite lookup_singleton_ne.
Qed.

(** The params after the assignments of a preview. *)
Lemma preview_data_enters_params_aux
    (ctx : HookData.Context) (urlParams finalParams : EndpointParams)
    (previewData : HookData.PreviewData) :
  HookData.ctx_preview ctx = true →
  HookData.ctx_previewData ctx = Some previewData →
  HookData.isPreviewRequest urlParams = true →
  let merged := HookData.withPreview ctx urlParams finalParams in
  merged !! "id" = Some (HookData.pd_id previewData) ∧
  merged !! "revision" = Some (HookData.pd_revision previewData) ∧
  merged !! "postType" = Some (HookData.pd_postType previewData) ∧
  merged !! "authToken" = Some (HookData.pd_authToken previewData).
Proof.
  intros Hpreview Hdata Hrequest. unfold HookData.withPreview.
  rewrite Hdata, Hpreview, Hrequest. cbn. repeat split; by simplify_map_eq.
Qed.

(** X15.  The preview data enters the params only when the context is
    in preview mode, carries preview data, and the slug read from the
    url is a string that contains [-preview=true]; the params are
    untouched otherwise.  When it enters, [id], [revision], [postType]
    and [authToken] are those of the preview data, whatever the caller
    gave for them, and every other key is as it was. *)
Theorem preview_data_enters_params
    (ctx : HookData.Context) (urlParams finalParams : EndpointParams) :
  let merged := HookData.withPreview ctx urlParams finalParams in
  match HookData.ctx_previewData ctx with
  | Some previewData =>
      if HookData.ctx_preview ctx && HookData.isPreviewRequest urlParams then
        merged !! "id" = Some (HookData.pd_id previewData) ∧
        merged !! "revision" = Some (HookData.pd_revision previewData) ∧
        merged !! "postType" = Some (HookData.pd_postType previewData) ∧
        merged !! "authToken" = Some (HookData.pd_authToken previewData) ∧
        ∀ k, k ∉ ["id"; "revision"; "postType"; "authToken"] →
             merged !! k = finalParams !! k
      else merged = finalParams
  | None => merged = finalParams
  end.
Proof.
  intros merged. unfold merged, HookData.withPreview.
  destruct (HookData.ctx_previewData ctx) as [previewData |]; [| reflexivity].
  destruct (andb _ _); [| reflexivity].
  repeat split; try (by simplify_map_eq).
  intros k Hk. rewrite !elem_of_cons, elem_of_nil in Hk.
  rewrite !lookup_insert_ne; [done | | | |]; intros <-; apply Hk; auto.
Qed.

(** What [fetchHookData] does once the params are final. *)
Lemma fetchHookData_run `{Utils, Swr}
    (fetchStrategy : HookData.FetchStrategy) (this : Strategy) (ctx : HookData.Context)
    (options : HookData.FetchHookDataOptions) (tr : trace) :
  let params := default ∅ (HookData.opt_params options) in
  let parsed :=
    HookData.fs_getParamsFromURL fetchStrategy
      {| baseURL := getWPUrl; endpoint := endpoint this |}
      (HookData.convertToPath (Some (HookData.path_of_context ctx))) params in
  let args := HookData.withPreview ctx parsed.2 (finalParams parsed.2 params) in
  HookData.fetchHookData fetchStrategy this ctx options tr
  = match HookData.fs_buildEndpointURL fetchStrategy parsed.1 args with
    | (_, inl e) => (tr, inl e)
    | (this', inr url) =>
        match HookData.fs_fetcher fetchStrategy this' url args
                (HookData.opt_fetchStrategyOptions options) tr with
        | (tr', inl e) => (tr', inl e)
        | (tr', inr data) =>
            (tr',
             inr (unstable_serialize (HookData.fs_getEndpoint fetchStrategy parsed.1) args,
                  HookData.fs_filterData fetchStrategy this'
                    {| result := result data;
                       pageInfo := pageInfo data;
                       queriedObject :=
                         HookData.fs_getQueriedObject fetchStrategy this' data args |}
                    (default HookData.defaultFilter (HookData.opt_filterData options))))
        end
    end.
Proof.
  intros params parsed args. unfold HookData.fetchHookData. cbn zeta.
  fold params. fold parsed. destruct parsed as [this0 urlParams] eqn:Hparsed.
  cbn [fst snd] in *. fold args.
  destruct (HookData.fs_buildEndpointURL fetchStrategy this0 args) as [this' [e | url]];
    [reflexivity |].
  rewrite bind_run. by destruct (HookData.fs_fetcher _ _ _ _ _ _) as [tr' [e | data]].
Qed.

(** X16.  The key of a preview request is serialized from the params
    with the preview data in them: [args] of the key is the very object
    that the preview assignments write to, so the key carries the id and
    the token of the preview.  Its url is the endpoint of the strategy as
    it was before [buildEndpointURL] ran. *)
Theorem preview_key_carries_preview_data `{Utils, Swr}
    (fetchStrategy : HookData.FetchStrategy) (this : Strategy) (ctx : HookData.Context)
    (options : HookData.FetchHookDataOptions) (previewData : HookData.PreviewData)
    (tr tr' : trace) (key : string) (data : FetchResponse) :
  let params := default ∅ (HookData.opt_params options) in
  let parsed :=
    HookData.fs_getParamsFromURL fetchStrategy
      {| baseURL := getWPUrl; endpoint := endpoint this |}
      (HookData.convertToPath (Some (HookData.path_of_context ctx))) params in
  HookData.ctx_preview ctx = true →
  HookData.ctx_previewData ctx = Some previewData →
  HookData.isPreviewRequest parsed.2 = true →
  HookData.fetchHookData fetchStrategy this ctx options tr = (tr', inr (key, data)) →
  ∃ args : EndpointParams,
    key = unstable_serialize (HookData.fs_getEndpoint fetchStrategy parsed.1) args ∧
    args !! "id" = Some (HookData.pd_id previewData) ∧
    args !! "revision" = Some (HookData.pd_revision previewData) ∧
    args !! "postType" = Some (HookData.pd_postType previewData) ∧
    args !! "authToken" = Some (HookData.pd_authToken previewData).
Proof.
  intros params parsed Hpreview Hdata Hrequest Hrun.
  rewrite fetchHookData_run in Hrun. cbn zeta in Hrun. fold params parsed in Hrun.
  pose proof (preview_data_enters_params_aux ctx parsed.2 (finalParams parsed.2 params)
                previewData Hpreview Hdata Hrequest) as Hmerged.
  set (args := HookData.withPreview ctx parsed.2 (finalParams parsed.2 params)) in *.
  exists args.
  destruct (HookData.fs_buildEndpointURL fetchStrategy parsed.1 args) as [this' [e | url]];
    [discriminate |].
  destruct (HookData.fs_fetcher _ _ _ _ _ _) as [tr1 [e | fetched]]; [discriminate |].
  injection Hrun as _ <- _. split; [reflexivity | exact Hmerged].
Qed.

(** ** addHookData *)

Lemma assoc_set_member (k k' : string) (v : JSON) (members : list (string * JSON)) :
  assoc k' (HookData.set_member k v members)
  = if String.eqb k' k then Some v else assoc k' members.
Proof.
  induction members as [| [k0 v0] members IH]; cbn [HookData.set_member assoc].
  - by destruct (String.eqb k' k).
  - destruct (String.eqb_spec k k0) as [<- | Hne]; cbn [assoc].
    + by destruct (String.eqb k' k).
    + rewrite IH. destruct (String.eqb_spec k' k0) as [-> | Hne'];
        destruct (String.eqb_spec k0 k); congruence.
Qed.

(** One cleared field, read back. *)
Lemma opt_prop_clear_field (k k' : string) (post : JSON) :
  HookData.opt_prop k' (HookData.clear_field k post)
  = if String.eqb k' k && truthy (HookData.opt_prop k post) then Some JNull
    else HookData.opt_prop k' post.
Proof.
  unfold HookData.clear_field.
  destruct (truthy (HookData.opt_prop k post)) eqn:Htruthy;
    [| by rewrite andb_false_r].
  destruct post; try discriminate. cbn [HookData.opt_prop].
  rewrite assoc_set_member, andb_true_r. reflexivity.
Qed.

(** A record after the loop body, field by field: a truthy SEO field
    reads null, every other field reads as before. *)
Lemma opt_prop_clear_post (k : string) (post : JSON) :
  HookData.opt_prop k (HookData.clear_post post)
  = if bool_decide (k ∈ HookData.seo_fields) && truthy (HookData.opt_prop k post)
    then Some JNull else HookData.opt_prop k post.
Proof.
  unfold HookData.clear_post. rewrite !opt_prop_clear_field.
  destruct (String.eqb_spec k "theme.json") as [-> | H1].
  { cbn. by destruct (truthy _). }
  destruct (String.eqb_spec k "yoast_head") as [-> | H2].
  { cbn. by destruct (truthy _). }
  destruct (String.eqb_spec k "yoast_head_json") as [-> | H3].
  { cbn. by destruct (truthy _). }
  cbn [andb]. rewrite bool_decide_eq_false_2; [reflexivity |].
  unfold HookData.seo_fields. rewrite !elem_of_cons, elem_of_nil. tauto.
Qed.

Lemma records_cleared (result : JSON) :
  HookData.records (HookData.cleared result)
  = HookData.clear_post <$> HookData.records result.
Proof.
  destruct result; try reflexivity.
  cbn [HookData.cleared HookData.records fmap list_fmap].
  unfold HookData.clear_post, HookData.clear_field. cbn [HookData.opt_prop].
  repeat (destruct (truthy _); cbn [HookData.opt_prop]); reflexivity.
Qed.

(** Where an entry of the fallback comes from. *)
Lemma fallback_gathered (hookStates : list (option HookData.HookState))
    (acc : HookData.Gathered) (key : string) (data : FetchResponse) :
  HookData.fallback (foldl HookData.gather acc hookStates) !! key = Some data →
  HookData.fallback acc !! key = Some data ∨
  ∃ st, Some st ∈ hookStates ∧ HookData.hs_key st = key ∧
        data = HookData.clean (HookData.hs_data st).
Proof.
  revert acc. induction hookStates as [| [st |] l IH]; intros acc; cbn [foldl].
  - by left.
  - intros Hdata. destruct (IH _ Hdata) as [Hacc | (st' & Hin & Hkey & ->)].
    + cbn in Hacc. destruct (decide (HookData.hs_key st = key)) as [<- | Hne].
      * rewrite lookup_insert_eq in Hacc. injection Hacc as <-.
        right. exists st. split; [apply list_elem_of_here | done].
      * rewrite lookup_insert_ne in Hacc by done. by left.
    + right. exists st'. split; [by apply list_elem_of_further | done].
  - intros Hdata. destruct (IH _ Hdata) as [Hacc | (st' & Hin & Hkey & ->)];
      [by left |].
    right. exists st'. split; [by apply list_elem_of_further | done].
Qed.

Lemma fallback_of_page (hookStates : list (option HookData.HookState))
    (props : option (gmap string JSON)) (rest : gmap string JSON)
    (key : string) (data : FetchResponse) :
  HookData.pp_fallback (HookData.addHookData hookStates props rest) !! key = Some data →
  ∃ st, Some st ∈ hookStates ∧ HookData.hs_key st = key ∧
        data = HookData.clean (HookData.hs_data st).
Proof.
  intros Hdata. apply fallback_gathered in Hdata.
  destruct Hdata as [Hempty | Hst]; [| exact Hst].
  cbn in Hempty. by rewrite lookup_empty in Hempty.
Qed.

(** X17.  After [addHookData] no record of any entry of the fallback,
    be it the single result or an item of an array, keeps a truthy
    [yoast_head_json], [yoast_head] or [theme.json]. *)
Theorem fallback_keeps_no_seo_field
    (hookStates : list (option HookData.HookState)) (props : option (gmap string JSON))
    (rest : gmap string JSON) (key : string) (data : FetchResponse) (record : JSON)
    (k : string) :
  HookData.pp_fallback (HookData.addHookData hookStates props rest) !! key = Some data →
  record ∈ HookData.records (result data) →
  k ∈ HookData.seo_fields →
  truthy (HookData.opt_prop k record) = false.
Proof.
  intros Hdata Hrecord Hk. apply fallback_of_page in Hdata as (st & _ & _ & ->).
  cbn [HookData.clean result] in Hrecord. rewrite records_cleared in Hrecord.
  apply list_elem_of_fmap in Hrecord as (before & -> & _).
  rewrite opt_prop_clear_post, (bool_decide_eq_true_2 _ Hk). cbn.
  by destruct (truthy (HookData.opt_prop k before)) eqn:Hbefore.
Qed.

(** X18.  Nothing else is lost: an entry of the fallback comes from a
    hook state of that key, has its page info and as many records, in
    the same order, and each record reads as before in every field,
    except that a truthy SEO field reads null. *)
Theorem fallback_keeps_the_rest
    (hookStates : list (option HookData.HookState)) (props : option (gmap string JSON))
    (rest : gmap string JSON) (key : string) (data : FetchResponse) :
  HookData.pp_fallback (HookData.addHookData hookStates props rest) !! key = Some data →
  ∃ st,
    Some st ∈ hookStates ∧ HookData.hs_key st = key ∧
    pageInfo data = pageInfo (HookData.hs_data st) ∧
    length (HookData.records (result data))
    = length (HookData.records (result (HookData.hs_data st))) ∧
    ∀ i before k,
      HookData.records (result (HookData.hs_data st)) !! i = Some before →
      ∃ after,
        HookData.records (result data) !! i = Some after ∧
        HookData.opt_prop k after
        = if bool_decide (k ∈ HookData.seo_fields) && truthy (HookData.opt_prop k before)
          then Some JNull else HookData.opt_prop k before.
Proof.
  intros Hdata. apply fallback_of_page in Hdata as (st & Hin & Hkey & ->).
  exists st. split; [exact Hin |]. split; [exact Hkey |]. split; [reflexivity |].
  cbn [HookData.clean result]. rewrite records_cleared. split; [apply length_fmap |].
  intros i before k Hbefore. exists (HookData.clear_post before).
  split; [by rewrite list_lookup_fmap, Hbefore | apply opt_prop_clear_post].
Qed.

Lemma gather_seo (acc : HookData.Gathered) (hookState : option HookData.HookState) :
  HookData.seo_json (HookData.gather acc hookState)
  = if truthy (HookData.seo_offer hookState) then spread (HookData.seo_offer hookState)
    else HookData.seo_json acc.
Proof. destruct hookState as [st |]; reflexivity. Qed.

(** X19.  The SEO data of the page is the [yoast_head_json] of the
    leading record of the last hook state that offers a truthy one, and
    the empty object when no hook state does.  Only the leading record
    can offer it: an array whose first item has none offers nothing. *)
Theorem page_seo_is_last_offer
    (hookStates : list (option HookData.HookState)) (props : option (gmap string JSON))
    (rest : gmap string JSON) :
  (Forall (fun hs => truthy (HookData.seo_offer hs) = false) hookStates →
   HookData.pp_seo (HookData.addHookData hookStates props rest) = []) ∧
  (∀ before last after,
      hookStates = (before ++ last :: after)%list →
      truthy (HookData.seo_offer last) = true →
      Forall (fun hs => truthy (HookData.seo_offer hs) = false) after →
      HookData.pp_seo (HookData.addHookData hookStates props rest)
      = spread (HookData.seo_offer last)).
Proof.
  assert (Hnone : ∀ l acc,
            Forall (fun hs => truthy (HookData.seo_offer hs) = false) l →
            HookData.seo_json (foldl HookData.gather acc l) = HookData.seo_json acc).
  { induction l as [| hs l IH]; intros acc Hl; [reflexivity |].
    apply Forall_cons in Hl as [Hhs Hl]. cbn [foldl].
    by rewrite (IH _ Hl), gather_seo, Hhs. }
  split.
  - intros Hall. unfold HookData.addHookData. cbn. by rewrite Hnone.
  - intros before last after -> Hlast Hafter. unfold HookData.addHookData. cbn.
    rewrite foldl_app. cbn [foldl]. by rewrite (Hnone _ _ Hafter), gather_seo, Hlast.
Qed.

(** The first item of an array has no SEO data, the second has: the
    page gets none, and the second item loses its own. *)
Example page_seo_ignores_later_records :
  let post (fields : list (string * JSON)) := JObj (("id", JNum 1) :: fields) in
  let data :=
    Base.envelope ∅
      (Response [] (JArr [post []; post [("yoast_head_json", JObj [("title", JStr "b")])]])) in
  let page := HookData.addHookData [Some {| HookData.hs_key := "k"; HookData.hs_data := data |}]
                None ∅ in
  HookData.pp_seo page = [] ∧
  result <$> HookData.pp_fallback page !! "k"
  = Some (JArr [post []; post [("yoast_head_json", JNull)]]).
Proof. split; vm_compute; reflexivity. Qed.

(** X20.  The fallback holds one entry per key of a hook state and none
    for another key; when several hook states share a key the last one
    stays; and the [queriedObject] of an entry is empty when the hook
    state had one, and absent when it had none. *)
Theorem fallback_keys_and_queried_object
    (hookStates : list (option HookData.HookState)) (props : option (gmap string JSON))
    (rest : gmap string JSON) (key : string) :
  let entry := HookData.pp_fallback (HookData.addHookData hookStates props rest) !! key in
  (is_Some entry ↔ ∃ st, Some st ∈ hookStates ∧ HookData.hs_key st = key) ∧
  (∀ before st after,
      hookStates = (before ++ Some st :: after)%list →
      HookData.hs_key st = key →
      (∀ st', Some st' ∈ after → HookData.hs_key st' ≠ key) →
      ∃ data,
        entry = Some data ∧
        pageInfo data = pageInfo (HookData.hs_data st) ∧
        queriedObject data
        = (fun _ => {| search := None; author := None; term := None |})
            <$> queriedObject (HookData.hs_data st)).
Proof.
  assert (Hkeep : ∀ l acc,
            (∀ st', Some st' ∈ l → HookData.hs_key st' ≠ key) →
            HookData.fallback (foldl HookData.gather acc l) !! key
            = HookData.fallback acc !! key).
  { induction l as [| [st |] l IH]; intros acc Hl; cbn [foldl]; [reflexivity | |].
    - rewrite IH by (intros st' Hin; apply Hl; by apply list_elem_of_further).
      cbn. rewrite lookup_insert_ne; [reflexivity |]. apply Hl, list_elem_of_here.
    - apply IH. intros st' Hin. apply Hl. by apply list_elem_of_further. }
  assert (Hlast : ∀ before st after,
            hookStates = (before ++ Some st :: after)%list →
            HookData.hs_key st = key →
            (∀ st', Some st' ∈ after → HookData.hs_key st' ≠ key) →
            HookData.pp_fallback (HookData.addHookData hookStates props rest) !! key
            = Some (HookData.clean (HookData.hs_data st))).
  { intros before st after -> Hkey Hafter. unfold HookData.addHookData. cbn.
    rewrite foldl_app. cbn [foldl]. rewrite (Hkeep _ _ Hafter). cbn.
    rewrite <- Hkey. apply lookup_insert_eq. }
  intros entry. split; [split |].
  - intros [data Hdata]. apply fallback_of_page in Hdata as (st & Hin & Hkey & _).
    by exists st.
  - intros (st & Hin & Hkey). unfold entry, HookData.addHookData. cbn.
    generalize ({| HookData.fallback := ∅; HookData.seo_json := [];
                   HookData.themeJSON := JObj [] |}).
    clear Hlast entry. induction hookStates as [| hs l IH]; intros acc;
      [by apply elem_of_nil in Hin |].
    cbn [foldl]. apply elem_of_cons in Hin as [<- | Hin]; [| by apply IH].
    assert (Hmono : ∀ l' acc', is_Some (HookData.fallback acc' !! key) →
              is_Some (HookData.fallback (foldl HookData.gather acc' l') !! key)).
    { induction l' as [| [st' |] l' IH']; intros acc' Hacc; cbn [foldl];
        [done | | by apply IH'].
      apply IH'. cbn. destruct (decide (HookData.hs_key st' = key)) as [<- | Hne].
      - rewrite lookup_insert_eq. by eexists.
      - by rewrite lookup_insert_ne. }
    apply Hmono. cbn. rewrite <- Hkey, lookup_insert_eq. by eexists.
  - intros before st after Hsplit Hkey Hafter. unfold entry.
    rewrite (Hlast _ _ _ Hsplit Hkey Hafter). eexists. split; [reflexivity |].
    split; [reflexivity |]. cbn. by destruct (queriedObject (HookData.hs_data st)).
Qed.

(** ** handleError *)

(** X21.  An error that is no NotFoundError is thrown again as it is,
    and no redirect is looked up for it. *)
Theorem handleError_rethrows `{Utils, Redirects}
    (e : error) (ctx : HookData.Context) (rootRoute : string) :
  (∀ message, e ≠ NotFoundError message) →
  HookData.handleError e ctx rootRoute = ([], inl e).
Proof. intros Hother. destruct e; try reflexivity. by destruct (Hother message). Qed.

(** X22.  For a NotFoundError the answer is a redirect exactly when the
    redirect strategy is 404, the pathname is not empty and the lookup of
    the pathname gives a non-empty location; the redirect goes there and
    is never permanent.  The lookup is made only under the strategy 404,
    only for the pathname, and the error itself is never thrown again:
    all that can be thrown is what the lookup throws. *)
Theorem handleError_not_found `{Utils, Redirects}
    (message : string) (ctx : HookData.Context) (rootRoute : string) :
  let pathname := HookData.pathname_of ctx rootRoute in
  let '(lookups, outcome) := HookData.handleError (NotFoundError message) ctx rootRoute in
  (∀ destination permanent,
      outcome = inr (HookData.Redirect destination permanent) ↔
      redirectStrategy getHeadlessConfig = Some Redirect404 ∧
      pathname ≠ EmptyString ∧
      fetchRedirect pathname = inr (Some destination) ∧
      destination ≠ EmptyString ∧ permanent = false) ∧
  (lookups = [] ∨ lookups = [pathname] ∧
                  redirectStrategy getHeadlessConfig = Some Redirect404) ∧
  (∀ thrown, outcome = inl thrown → fetchRedirect pathname = inl thrown) ∧
  (redirectStrategy getHeadlessConfig ≠ Some Redirect404 →
   lookups = [] ∧ outcome = inr HookData.NotFound).
Proof.
  intros pathname. unfold HookData.handleError. fold pathname.
  destruct (redirectStrategy getHeadlessConfig) as [[| |] |] eqn:Hstrategy;
    try (repeat split; try (by left); intros; try done;
         match goal with H : _ ∧ _ |- _ => by destruct H end).
  destruct (String.eqb_spec pathname EmptyString) as [Hpath | Hpath]; cbn [negb].
  - repeat split; try (by left); intros; try done.
    match goal with H : _ ∧ _ |- _ => destruct H as (_ & ? & _); done end.
  - destruct (fetchRedirect pathname) as [thrown | [location |]] eqn:Hlookup.
    + repeat split; try (by right); intros; try done.
      * match goal with H : _ ∧ _ |- _ => destruct H as (_ & _ & ? & _); done end.
      * congruence.
    + destruct (String.eqb_spec location EmptyString) as [-> | Hlocation]; cbn [negb].
      * repeat split; try (by right); intros; try done.
        match goal with H : _ ∧ _ |- _ => destruct H as (_ & _ & [= <-] & ? & _); done end.
      * repeat split; try (by right); intros; try done; try congruence.
        match goal with H : _ ∧ _ |- _ => destruct H as (_ & _ & [= <-] & _ & ->); done end.
    + repeat split; try (by right); intros; try done.
      match goal with H : _ ∧ _ |- _ => destruct H as (_ & _ & ? & _); done end.
Qed.

Lemma terms_taxonomy_defaults_to_category_witness :
  let base := @spec_base Sample.news Sample.utils Base.shape_fields in
  let build := @TaxonomyTermsEndpoint.buildEndpointURL Doubles.taxonomies base in
  build Sample.this {[ "per_page" := JNum 5 ]}
  = build Sample.this {[ "taxonomy" := JStr "category"; "per_page" := JNum 5 ]}.
Proof.
  intros base build.
  exact (@terms_taxonomy_defaults_to_category Sample.utils Doubles.taxonomies base
           Sample.this {[ "per_page" := JNum 5 ]} eq_refl).
Defined.

Lemma preview_key_carries_preview_data_witness :
  ∃ tr' data args,
    @HookData.fetchHookData Sample.utils Doubles.swr (Doubles.archive Sample.revisions)
      Sample.this Doubles.preview Doubles.no_options []
    = (tr', inr ("/wp-json/wp/v2/posts#t", data)) ∧
    tr' = [Request "/wp-json/wp/v2/book/10" [("Authorization", "Bearer t")]] ∧
    "/wp-json/wp/v2/posts#t" = @unstable_serialize Doubles.swr "/wp-json/wp/v2/posts" args ∧
    args !! "id" = Some (JNum 10) ∧
    args !! "revision" = Some (JBool true) ∧
    args !! "postType" = Some (JStr "book") ∧
    args !! "authToken" = Some (JStr "t").
Proof.
  eexists _, _.
  assert (Hrun : @HookData.fetchHookData Sample.utils Doubles.swr
                   (Doubles.archive Sample.revisions) Sample.this Doubles.preview
                   Doubles.no_options []
                 = ([Request "/wp-json/wp/v2/book/10" [("Authorization", "Bearer t")]],
                    inr ("/wp-json/wp/v2/posts#t",
                         ltac:(let v := eval vm_compute in
                                 (match (@HookData.fetchHookData Sample.utils Doubles.swr
                                           (Doubles.archive Sample.revisions) Sample.this
                                           Doubles.preview Doubles.no_options []).2 with
                                  | inr (_, d) => d
                                  | inl _ => Base.envelope ∅ (Response [] JNull)
                                  end) in exact v))))
    by (vm_compute; reflexivity).
  destruct (@preview_key_carries_preview_data Sample.utils Doubles.swr
              (Doubles.archive Sample.revisions) Sample.this Doubles.preview
              Doubles.no_options _ [] _ _ _ eq_refl eq_refl eq_refl Hrun)
    as (args & Hkey & Hargs).
  exists args. split; [exact Hrun |]. split; [reflexivity |]. split; [exact Hkey | exact Hargs].
Defined.

Lemma fallback_keeps_no_seo_field_witness :
  let page := HookData.addHookData [Some Doubles.posts_state] None ∅ in
  ∃ data record,
    HookData.pp_fallback page !! "posts" = Some data ∧
    record ∈ HookData.records (result data) ∧
    truthy (HookData.opt_prop "yoast_head_json" record) = false.
Proof.
  intros page.
  exists (HookData.clean (HookData.hs_data Doubles.posts_state)),
         (HookData.clear_post (Doubles.seo_post 1 "one")).
  assert (Hdata : HookData.pp_fallback page !! "posts"
                  = Some (HookData.clean (HookData.hs_data Doubles.posts_state)))
    by reflexivity.
  assert (Hrecord : HookData.clear_post (Doubles.seo_post 1 "one")
                    ∈ HookData.records
                        (result (HookData.clean (HookData.hs_data Doubles.posts_state))))
    by apply list_elem_of_here.
  assert (Hfield : "yoast_head_json" ∈ HookData.seo_fields) by apply list_elem_of_here.
  split; [exact Hdata |]. split; [exact Hrecord |].
  exact (fallback_keeps_no_seo_field [Some Doubles.posts_state] None ∅ "posts" _ _ _
           Hdata Hrecord Hfield).
Defined.

Lemma fallback_keeps_the_rest_witness :
  let page := HookData.addHookData [Some Doubles.posts_state] None ∅ in
  ∃ data st,
    HookData.pp_fallback page !! "posts" = Some data ∧
    Some st ∈ [Some Doubles.posts_state] ∧ HookData.hs_key st = "posts" ∧
    pageInfo data = pageInfo (HookData.hs_data st) ∧
    length (HookData.records (result data))
    = length (HookData.records (result (HookData.hs_data st))) ∧
    ∀ i before k,
      HookData.records (result (HookData.hs_data st)) !! i = Some before →
      ∃ after,
        HookData.records (result data) !! i = Some after ∧
        HookData.opt_prop k after
        = if bool_decide (k ∈ HookData.seo_fields) && truthy (HookData.opt_prop k before)
          then Some JNull else HookData.opt_prop k before.
Proof.
  intros page. exists (HookData.clean (HookData.hs_data Doubles.posts_state)).
  assert (Hdata : HookData.pp_fallback page !! "posts"
                  = Some (HookData.clean (HookData.hs_data Doubles.posts_state)))
    by reflexivity.
  destruct (fallback_keeps_the_rest [Some Doubles.posts_state] None ∅ "posts" _ Hdata)
    as (st & Hst).
  exists st. split; [exact Hdata | exact Hst].
Defined.

Lemma handleError_rethrows_witness :
  @HookData.handleError Sample.utils (fun _ => inr None) (ConfigError unknown_post_type)
    Doubles.preview EmptyString
  = ([], inl (ConfigError unknown_post_type)).
Proof.
  apply (@handleError_rethrows Sample.utils (fun _ => inr None)). discriminate.
Defined.

(** ** usePostsImpl: the page type *)

Lemma pageType_taxonomies (slugs : list string) (queryParams : EndpointParams)
    (p : UsePosts.PageType) :
  let q := foldl (fun p taxonmy =>
                    if truthy (queryParams !! taxonmy) then UsePosts.set_taxonomy taxonmy p
                    else p) p slugs in
  UsePosts.isPostArchive q = UsePosts.isPostArchive p ∧
  UsePosts.isPostTypeArchive q = UsePosts.isPostTypeArchive p ∧
  UsePosts.isSearch q = UsePosts.isSearch p ∧
  (Forall (fun t => truthy (queryParams !! t) = false) slugs →
   UsePosts.isTaxonomyArchive q = UsePosts.isTaxonomyArchive p ∧
   UsePosts.taxonomy q = UsePosts.taxonomy p) ∧
  (∀ before t after,
      slugs = (before ++ t :: after)%list →
      truthy (queryParams !! t) = true →
      Forall (fun t' => truthy (queryParams !! t') = false) after →
      UsePosts.isTaxonomyArchive q = true ∧ UsePosts.taxonomy q = t).
Proof.
  cbn zeta. revert p. induction slugs as [| s slugs IH]; intros p.
  - cbn [foldl]. split; [done |]. split; [done |]. split; [done |]. split; [done |].
    intros [| ? ?] ? ? Habs; discriminate Habs.
  - cbn [foldl].
    destruct (IH (if truthy (queryParams !! s) then UsePosts.set_taxonomy s p else p))
      as (H1 & H2 & H3 & H4 & H5).
    rewrite H1, H2, H3.
    split; [by destruct (truthy _) |]. split; [by destruct (truthy _) |].
    split; [by destruct (truthy _) |]. split.
    + intros Hall. apply Forall_cons in Hall as [Hs Hslugs]. cbn beta in Hs. rewrite Hs in H4 |- *. by apply H4.
    + intros before t after Heq Ht Hafter.
      destruct before as [| b before]; cbn in Heq; injection Heq as -> ->.
      * rewrite Ht in H4 |- *. by apply H4.
      * by eapply H5.
Qed.

(** X23.  The page type of [usePostsImpl]: a page is a post archive
    exactly when no post type is asked for, and a post type archive
    exactly when one is, whatever the author, category or tag; it is
    never reported as a search; and it is a taxonomy archive exactly
    when a registered taxonomy has a truthy param, the taxonomy reported
    being the last such in the order of registration. *)
Theorem pageType_flags `{Utils} (queryParams : EndpointParams) :
  let p := UsePosts.pageType queryParams in
  UsePosts.isPostArchive p = negb (truthy (queryParams !! "postType")) ∧
  UsePosts.isPostTypeArchive p = truthy (queryParams !! "postType") ∧
  UsePosts.isSearch p = false ∧
  (Forall (fun t => truthy (queryParams !! t) = false) getCustomTaxonomySlugs →
   UsePosts.isTaxonomyArchive p = false ∧ UsePosts.taxonomy p = EmptyString) ∧
  (∀ before t after,
      getCustomTaxonomySlugs = (before ++ t :: after)%list →
      truthy (queryParams !! t) = true →
      Forall (fun t' => truthy (queryParams !! t') = false) after →
      UsePosts.isTaxonomyArchive p = true ∧ UsePosts.taxonomy p = t).
Proof.
  intros p. unfold p, UsePosts.pageType. cbn zeta.
  match goal with
  | |- context [foldl ?f ?p0 getCustomTaxonomySlugs] =>
      destruct (pageType_taxonomies getCustomTaxonomySlugs queryParams p0)
        as (H1 & H2 & H3 & H4 & H5)
  end.
  rewrite H1, H2, H3. clear H1 H2 H3.
  split; [| split; [| split; [| split]]].
  - by repeat destruct (truthy _).
  - by repeat destruct (truthy _).
  - by repeat destruct (truthy _).
  - intros Hnone. destruct (H4 Hnone) as [-> ->]. by repeat destruct (truthy _).
  - exact H5.
Qed.

(** ** PreviewToken.php *)

Lemma identical_eq (a b : php) : PreviewToken.identical a b = true ↔ a = b.
Proof.
  destruct a, b; cbn; split; try discriminate; try done.
  - intros Hb. apply Bool.eqb_prop in Hb. by subst.
  - intros [= ->]. apply Bool.eqb_reflx.
  - intros Hn. apply Z.eqb_eq in Hn. by subst.
  - intros [= ->]. apply Z.eqb_refl.
  - intros Hs. apply String.eqb_eq in Hs. by subst.
  - intros [= ->]. apply String.eqb_refl.
Qed.

Lemma overrides_method_false (x : option string) :
  PreviewToken.overrides_method x = false ↔ ∀ m, x = Some m → m = "GET".
Proof.
  destruct x as [s |]; cbn.
  - rewrite Bool.negb_false_iff, String.eqb_eq. split.
    + by intros -> m [= <-].
    + intros Hm. by apply Hm.
  - split; [by intros _ m | done].
Qed.

Lemma gates_run `{PhpLoose} (server : PreviewToken.Server) (payload : gmap string php)
    (args : list php) :
  PreviewToken.check_capability server payload args = true →
  PreviewToken.gates server payload.
Proof.
  unfold PreviewToken.check_capability, PreviewToken.gates.
  destruct (PreviewToken.identical (PreviewToken.index payload "generator") _) eqn:Hg;
    [| discriminate].
  destruct (PreviewToken.identical (PreviewToken.index payload "type") _) eqn:Ht;
    [| discriminate].
  destruct (PreviewToken.overrides_method (PreviewToken.REQUEST_METHOD server)) eqn:Hm;
    [discriminate |].
  cbn [negb].
  destruct (PreviewToken.overrides_method (PreviewToken.HTTP_X_HTTP_METHOD_OVERRIDE server))
    eqn:Ho.
  { destruct (PreviewToken.GET_method server) as [[] |]; cbn;
      try destruct (String.eqb _ _); discriminate. }
  intros Hrest.
  apply identical_eq in Hg, Ht.
  pose proof (proj1 (overrides_method_false _) Hm) as Hm'.
  pose proof (proj1 (overrides_method_false _) Ho) as Ho'.
  repeat split; try done.
  intros v Hv. rewrite Hv in Hrest.
  destruct v as [| b | n | s]; [by left | | |]; cbn in Hrest.
  - discriminate.
  - discriminate.
  - right. destruct (String.eqb s "GET") eqn:Hs; [| discriminate].
    apply String.eqb_eq in Hs. by subst.
Qed.

Lemma gates_pass `{PhpLoose} (server : PreviewToken.Server) (payload : gmap string php)
    (args : list php) :
  PreviewToken.gates server payload →
  PreviewToken.check_capability server payload args =
    let post_id := PreviewToken.index payload "post_id" in
    let capabilities :=
      PreviewToken.capabilities post_id (PreviewToken.index payload "post_type") in
    match args with
    | [cap; _; id] =>
        match cap with
        | PStr name =>
            match assoc name capabilities with
            | Some granted =>
                negb (PreviewToken.identical granted PNull) && PreviewToken.identical granted id
            | None => false
            end
        | _ => false
        end
    | _ => existsb (loose_eq (default PNull (head args))) (snd <$> capabilities)
    end.
Proof.
  intros (Hg & Ht & Hm & Hv & Ho). unfold PreviewToken.check_capability.
  rewrite Hg, Ht. cbn [PreviewToken.identical]. rewrite !String.eqb_refl. cbn [negb].
  rewrite (proj2 (overrides_method_false _) Hm), (proj2 (overrides_method_false _) Ho).
  destruct (PreviewToken.GET_method server) as [v |]; [| done].
  destruct (Hv v eq_refl) as [-> | ->]; done.
Qed.

Lemma assoc_capabilities (name : string) (post_id post_type : php) :
  assoc name (PreviewToken.capabilities post_id post_type) =
    if bool_decide (name ∈ PreviewToken.granted_names post_type) then Some post_id else None.
Proof.
  unfold PreviewToken.capabilities, PreviewToken.granted_names.
  destruct (PreviewToken.identical post_type (PStr "page")); cbn [app assoc].
  all: repeat match goal with
         | |- context [String.eqb ?n ?k] =>
             let Hk := fresh "Hk" in
             destruct (String.eqb n k) eqn:Hk;
             [ apply String.eqb_eq in Hk; subst n;
               rewrite bool_decide_eq_true_2; [done | repeat first [by left | right]] | ]
         end.
  all: rewrite bool_decide_eq_false_2; [done |].
  all: rewrite !elem_of_cons, elem_of_nil.
  all: intros Hin.
  all: repeat (destruct Hin as [-> | Hin]; [by rewrite String.eqb_refl in * |]); done.
Qed.

Lemma check_capability_on_post_aux `{PhpLoose} (server : PreviewToken.Server)
    (payload : gmap string php) (cap other id : php) :
  PreviewToken.check_capability server payload [cap; other; id] = true ↔
    PreviewToken.gates server payload ∧
    (∃ name, cap = PStr name ∧
             name ∈ PreviewToken.granted_names (PreviewToken.index payload "post_type")) ∧
    id = PreviewToken.index payload "post_id" ∧
    id ≠ PNull.
Proof.
  split.
  - intros Hcheck. pose proof (gates_run _ _ _ Hcheck) as Hgates.
    split; [done |]. rewrite (gates_pass _ _ _ Hgates) in Hcheck. cbn zeta in Hcheck.
    destruct cap as [| b | n | name]; try discriminate.
    rewrite assoc_capabilities in Hcheck.
    destruct (bool_decide _) eqn:Hin; [| discriminate].
    apply bool_decide_eq_true in Hin.
    apply andb_true_iff in Hcheck as [Hnull Hid].
    apply identical_eq in Hid. apply Bool.negb_true_iff in Hnull.
    split; [by exists name |]. split; [done |].
    intros Hn. rewrite Hid, Hn in Hnull. discriminate.
  - intros (Hgates & (name & -> & Hin) & -> & Hnull).
    rewrite (gates_pass _ _ _ Hgates). cbn zeta.
    rewrite assoc_capabilities, bool_decide_eq_true_2 by done.
    apply andb_true_iff. split.
    + apply Bool.negb_true_iff. destruct (PreviewToken.identical _ PNull) eqn:Hid; [| done].
      apply identical_eq in Hid. done.
    + by apply identical_eq.
Qed.

(** X24.  A capability on a post (the call with three arguments) is
    granted by the token exactly when the token and the request pass the
    five guards, the capability is one of read, edit and delete of a post
    (of a page too when the token is for a page), and the id asked for is
    the post id of the token, which is not null. *)
Theorem check_capability_on_post `{PhpLoose} (server : PreviewToken.Server)
    (payload : gmap string php) (cap other id : php) :
  PreviewToken.check_capability server payload [cap; other; id] = true ↔
    PreviewToken.gates server payload ∧
    (∃ name, cap = PStr name ∧
             name ∈ PreviewToken.granted_names (PreviewToken.index payload "post_type")) ∧
    id = PreviewToken.index payload "post_id" ∧
    id ≠ PNull.
Proof. apply check_capability_on_post_aux. Qed.

Lemma foldl_grant (caps : list string) (allcaps : gmap string bool) (c : string) :
  foldl (fun allcaps cap => <[ cap := true ]> allcaps) allcaps caps !! c =
    if bool_decide (c ∈ caps) then Some true else allcaps !! c.
Proof.
  revert allcaps. induction caps as [| cap caps IH]; intros allcaps; [done |].
  cbn [foldl]. rewrite IH.
  destruct (decide (c ∈ caps)) as [Hin | Hout].
  - rewrite !bool_decide_eq_true_2; [done | by right | done].
  - rewrite (bool_decide_eq_false_2 _ Hout).
    destruct (decide (c = cap)) as [-> | Hne].
    + rewrite lookup_insert, bool_decide_eq_true_2; [| by left].
      by rewrite decide_True.
    + rewrite lookup_insert_ne by done.
      rewrite bool_decide_eq_false_2; [done |].
      rewrite elem_of_cons. tauto.
Qed.

(** X25.  [user_has_cap] only ever adds: an entry of the result is true
    when the token passes the check and the capability is one of those
    asked for, and is the entry of the capabilities given otherwise; so a
    capability the user has is never taken away, and nothing changes when
    the check fails. *)
Theorem user_has_cap_only_adds `{PhpLoose} (server : PreviewToken.Server)
    (payload : gmap string php) (allcaps : gmap string bool) (caps : list string)
    (args : list php) :
  let result := PreviewToken.user_has_cap server payload allcaps caps args in
  (∀ c, result !! c =
          if PreviewToken.check_capability server payload args && bool_decide (c ∈ caps)
          then Some true else allcaps !! c) ∧
  (∀ c, allcaps !! c = Some true → result !! c = Some true) ∧
  (PreviewToken.check_capability server payload args = false → result = allcaps).
Proof.
  intros result. subst result. unfold PreviewToken.user_has_cap.
  destruct (PreviewToken.check_capability server payload args); cbn [andb].
  - split; [| split].
    + intros c. apply foldl_grant.
    + intros c Hc. rewrite foldl_grant. by destruct (bool_decide _).
    + discriminate.
  - done.
Qed.

(** X26.  What [generate] issues, [check_capability] accepts: on a
    request that is a plain GET, the payload generated for the preview
    of a post grants the capabilities of the post type of the payload on
    that very post and on no other id, whenever it was issued. *)
Theorem generated_token_grants_its_post `{PhpLoose} (server : PreviewToken.Server)
    (issued_at : Z) (payload : gmap string php) (post_id : Z) (cap other id : php) :
  payload !! "type" = Some (PStr "preview") →
  payload !! "post_id" = Some (PInt post_id) →
  (∀ m, PreviewToken.REQUEST_METHOD server = Some m → m = "GET") →
  (∀ v, PreviewToken.GET_method server = Some v → v = PNull ∨ v = PStr "GET") →
  (∀ m, PreviewToken.HTTP_X_HTTP_METHOD_OVERRIDE server = Some m → m = "GET") →
  PreviewToken.check_capability server (PreviewToken.generate_payload issued_at payload)
    [cap; other; id] = true ↔
    (∃ name, cap = PStr name ∧
             name ∈ PreviewToken.granted_names (PreviewToken.index payload "post_type")) ∧
    id = PInt post_id.
Proof.
  intros Htype Hid Hm Hv Ho.
  assert (Hgates : PreviewToken.gates server (PreviewToken.generate_payload issued_at payload)).
  { repeat split; try done.
    unfold PreviewToken.index at 1, PreviewToken.generate_payload.
    do 2 (rewrite lookup_insert_ne by done). rewrite lookup_insert.
    rewrite decide_True by done. cbn. unfold PreviewToken.index. by rewrite Htype. }
  assert (Hpost : PreviewToken.index (PreviewToken.generate_payload issued_at payload)
                    "post_id" = PInt post_id).
  { unfold PreviewToken.index at 1, PreviewToken.generate_payload.
    do 4 (rewrite lookup_insert_ne by done). rewrite lookup_insert.
    rewrite decide_True by done. cbn. unfold PreviewToken.index. by rewrite Hid. }
  assert (Hptype : PreviewToken.index (PreviewToken.generate_payload issued_at payload)
                     "post_type" = PreviewToken.index payload "post_type").
  { unfold PreviewToken.index at 1, PreviewToken.generate_payload.
    do 3 (rewrite lookup_insert_ne by done). rewrite lookup_insert.
    by rewrite decide_True by done. }
  rewrite check_capability_on_post_aux, Hpost, Hptype.
  split.
  - by intros (_ & Hname & -> & _).
  - intros [Hname ->]. split; [done |]. split; [done |]. split; [done | discriminate].
Qed.

Lemma generated_token_grants_its_post_witness :
  @PreviewToken.check_capability Doubles.php8 Doubles.get_request
    (PreviewToken.generate_payload 1700000000
       {[ "type" := PStr "preview"; "post_type" := PStr "page"; "post_id" := PInt 10 ]})
    [PStr "edit_page"; PInt 1; PInt 10] = true.
Proof.
  apply (@generated_token_grants_its_post Doubles.php8 Doubles.get_request 1700000000
           {[ "type" := PStr "preview"; "post_type" := PStr "page"; "post_id" := PInt 10 ]}
           10 (PStr "edit_page") (PInt 1) (PInt 10)).
  - vm_compute. reflexivity.
  - vm_compute. reflexivity.
  - cbn. by intros m [= <-].
  - cbn. by intros v [=].
  - cbn. by intros m [=].
  - split; [| reflexivity].
    exists "edit_page". split; [reflexivity |].
    apply (bool_decide_unpack _). exact I.
Defined.

(** X27.  A global capability (a call whose arguments are not three) is
    decided by the loose comparison of PHP alone: once the guards are
    passed, it is granted exactly when the capability asked for, null
    when there is none, is loosely equal to the post id of the token. *)
Theorem global_capability_is_loose_on_post_id `{PhpLoose} (server : PreviewToken.Server)
    (payload : gmap string php) (args : list php) :
  length args ≠ 3%nat →
  PreviewToken.gates server payload →
  PreviewToken.check_capability server payload args =
    loose_eq (default PNull (head args)) (PreviewToken.index payload "post_id").
Proof.
  intros Hlen Hgates. rewrite (gates_pass _ _ _ Hgates). cbn zeta.
  assert (Hany : existsb (loose_eq (default PNull (head args)))
                   (PreviewToken.capabilities (PreviewToken.index payload "post_id")
                      (PreviewToken.index payload "post_type")).*2 =
                 loose_eq (default PNull (head args)) (PreviewToken.index payload "post_id")).
  { unfold PreviewToken.capabilities.
    destruct (PreviewToken.identical _ (PStr "page")); cbn;
      by destruct (loose_eq _ _). }
  destruct args as [| a [| b [| c [| d args]]]]; try exact Hany.
  by destruct Hlen.
Qed.

Lemma global_capability_is_loose_on_post_id_witness :
  @PreviewToken.check_capability Doubles.php8 Doubles.get_request
    (PreviewToken.generate_payload 0
       {[ "type" := PStr "preview"; "post_type" := PStr "post"; "post_id" := PInt 10 ]})
    [PStr "10"] = true.
Proof.
  rewrite (@global_capability_is_loose_on_post_id Doubles.php8 Doubles.get_request
             (PreviewToken.generate_payload 0
                {[ "type" := PStr "preview"; "post_type" := PStr "post";
                   "post_id" := PInt 10 ]}) [PStr "10"]).
  - reflexivity.
  - cbn. discriminate.
  - split; [reflexivity |]. split; [reflexivity |].
    cbn. split; [by intros m [= <-] |]. split; [by intros v [=] | by intros m [=]].
Defined.

(** ** BlocksRenderer *)

(** X28.  A child that replaces some node is never one of those the
    renderer warns about: whenever [shouldReplaceWithBlock] answers true
    for a child, the test of [hasInvalidComponent] answers false for
    it. *)
Theorem replacing_block_is_valid {Node Settings : Type} (isBlock : Node -> string -> JSON -> bool)
    (block : @BlocksRenderer.ReactNode Node Settings) (domNode : Node) (site : Settings) :
  BlocksRenderer.shouldReplaceWithBlock isBlock block domNode site = true →
  BlocksRenderer.invalid block = false.
Proof.
  destruct block as [props |]; cbn; [| discriminate].
  destruct (BlocksRenderer.test props); [done |].
  destruct (BlocksRenderer.tagName props) as [[] |]; try discriminate.
  by destruct (BlocksRenderer.classList props).
Qed.

Lemma replacing_block_is_valid_witness :
  let block : @BlocksRenderer.ReactNode unit unit :=
    BlocksRenderer.Element {| BlocksRenderer.test := Some (fun _ _ => true);
                              BlocksRenderer.tagName := None;
                              BlocksRenderer.classList := None |} in
  BlocksRenderer.invalid block = false.
Proof.
  intros block.
  apply (replacing_block_is_valid (fun _ _ _ => false) block tt tt). reflexivity.
Defined.

Lemma replacing_none_match {Node Settings : Type} (isBlock : Node -> string -> JSON -> bool)
    (blocks : list (@BlocksRenderer.ReactNode Node Settings)) (domNode : Node)
    (site : Settings) (component : option BlocksRenderer.ReactNode) :
  Forall (fun block => BlocksRenderer.shouldReplaceWithBlock isBlock block domNode site = false)
    blocks →
  foldl (fun component block =>
           if BlocksRenderer.shouldReplaceWithBlock isBlock block domNode site
           then Some block else component) component blocks = component.
Proof.
  induction 1 as [| block blocks Hblock _ IH]; [done |].
  cbn [foldl]. by rewrite Hblock.
Qed.

(** X29.  [replace] answers with the last child that matches the node:
    the children after it that do not match leave it in place, whatever
    matched before; and it answers with none exactly when no child
    matches. *)
Theorem replace_takes_last_matching_block {Node Settings : Type}
    (isBlock : Node -> string -> JSON -> bool)
    (blocks : list (@BlocksRenderer.ReactNode Node Settings)) (domNode : Node)
    (site : Settings) :
  (∀ before block after,
      blocks = (before ++ block :: after)%list →
      BlocksRenderer.shouldReplaceWithBlock isBlock block domNode site = true →
      Forall (fun later =>
                BlocksRenderer.shouldReplaceWithBlock isBlock later domNode site = false)
        after →
      BlocksRenderer.replacing isBlock blocks domNode site = Some block) ∧
  (BlocksRenderer.replacing isBlock blocks domNode site = None ↔
   Forall (fun block =>
             BlocksRenderer.shouldReplaceWithBlock isBlock block domNode site = false)
     blocks).
Proof.
  split.
  - intros before block after -> Hblock Hafter. unfold BlocksRenderer.replacing.
    rewrite foldl_app. cbn [foldl]. rewrite Hblock. by apply replacing_none_match.
  - split.
    + unfold BlocksRenderer.replacing.
      induction blocks as [| block blocks IH] using rev_ind; [by constructor |].
      rewrite foldl_app. cbn [foldl].
      destruct (BlocksRenderer.shouldReplaceWithBlock isBlock block domNode site) eqn:Hblock;
        [discriminate |].
      intros Hnone. apply Forall_app. split; [by apply IH | by repeat constructor].
    + intros Hall. by apply replacing_none_match.
Qed.

(** A child with a tag name that is not a string passes the check of
    [hasInvalidComponent] and yet never replaces a node. *)
Example valid_block_that_never_replaces :
  let block : @BlocksRenderer.ReactNode unit unit :=
    BlocksRenderer.Element {| BlocksRenderer.test := None;
                              BlocksRenderer.tagName := Some (JNum 1);
                              BlocksRenderer.classList := Some (JStr "wp-block") |} in
  BlocksRenderer.invalid block = false ∧
  ∀ isBlock domNode site,
    BlocksRenderer.shouldReplaceWithBlock isBlock block domNode site = false.
Proof. done. Qed.
